(** * Graphormer (SIEG-OGB): structural attention bias and encoder stack

    A shallow embedding of [src/graphormer.py].  Tensors are modelled by
    their shape and their entries; the tensor operations of the torch
    library that the source calls are written out (shape checks
    included), the numeric kernels that have no exact counterpart
    (inner products, softmax, GELU, layer normalisation, random
    sampling) are fields of a [Backend].  Objects that the source
    mutates in place live in a heap of tensors. *)

From Stdlib Require Import ZArith QArith Qround Floats.
From stdpp Require Import gmap strings list fin_maps.

Local Open Scope nat_scope.

(** ** Exceptions and results *)

Inductive exn :=
| AttributeError (attr : string)
| IndexError
| RuntimeError
| TypeError
| ValueError
| ZeroDivisionError
| AssertionError.

Inductive result (A : Type) :=
| Ok (a : A)
| Raise (e : exn).
Arguments Ok {A} a.
Arguments Raise {A} e.

#[global] Instance result_ret : MRet result := λ A a, Ok a.
#[global] Instance result_bind : MBind result := λ A B f r,
  match r with Ok a => f a | Raise e => Raise e end.
#[global] Instance result_fmap : FMap result := λ A B f r,
  match r with Ok a => Ok (f a) | Raise e => Raise e end.

Definition is_ok {A} (r : result A) : bool :=
  match r with Ok _ => true | Raise _ => false end.

Definition guard_or (e : exn) (b : bool) : result unit :=
  if b then Ok tt else Raise e.

(** ** Tensors: a shape and the entry at each multi-index *)

Record tensor (A : Type) := Tensor { shape : list nat; entry : list nat → A }.
Arguments Tensor {A} shape entry.
Arguments shape {A} t.
Arguments entry {A} t ix.

Definition numel (s : list nat) : nat := foldr Nat.mul 1 s.

Definition in_bounds (ix s : list nat) : Prop := Forall2 lt ix s.

(** All multi-indices of a shape, in row-major order. *)
Fixpoint indices (s : list nat) : list (list nat) :=
  match s with
  | [] => [[]]
  | n :: s' => flat_map (λ i, map (cons i) (indices s')) (seq 0 n)
  end.

(** Two tensors hold the same data: same shape, same entry at every
    index of that shape. *)
Definition tensor_eq {A} (t u : tensor A) : Prop :=
  shape t = shape u ∧ ∀ ix, in_bounds ix (shape t) → entry t ix = entry u ix.

Definition tmap {A B} (f : A → B) (t : tensor A) : tensor B :=
  Tensor (shape t) (λ ix, f (entry t ix)).

Definition full {A} (s : list nat) (a : A) : tensor A := Tensor s (λ _, a).

(** *** Broadcasting *)

Definition broadcast_dim (n m : nat) : option nat :=
  if n =? m then Some n
  else if n =? 1 then Some m
  else if m =? 1 then Some n
  else None.

(** Shapes are aligned at their last dimension; reversed lists make
    that the head. *)
Fixpoint broadcast_rev (s1 s2 : list nat) : option (list nat) :=
  match s1, s2 with
  | [], _ => Some s2
  | _, [] => Some s1
  | n :: s1', m :: s2' =>
      d ← broadcast_dim n m; r ← broadcast_rev s1' s2'; Some (d :: r)
  end.

Definition broadcast_shapes (s1 s2 : list nat) : option (list nat) :=
  reverse <$> broadcast_rev (reverse s1) (reverse s2).

(** The index of an operand of shape [s] that a result index [ix]
    reads: leading result dimensions are dropped, dimensions of size 1
    are read at 0. *)
Definition expand_dim (n i : nat) : nat := if n =? 1 then 0 else i.

Definition expand_index (s ix : list nat) : list nat :=
  zip_with expand_dim s (drop (length ix - length s) ix).

Definition broadcast2 {A B C} (f : A → B → C) (t : tensor A) (u : tensor B)
  : result (tensor C) :=
  match broadcast_shapes (shape t) (shape u) with
  | Some s => Ok (Tensor s (λ ix, f (entry t (expand_index (shape t) ix))
                                    (entry u (expand_index (shape u) ix))))
  | None => Raise RuntimeError
  end.

#[global] Arguments broadcast_dim : simpl never.
#[global] Arguments broadcast_shapes : simpl never.
#[global] Arguments expand_dim : simpl never.
#[global] Arguments expand_index : simpl never.

(** [t.expand(s)] as [copy_] applies it to the right-hand side of an
    indexed assignment. *)
Definition expandable (s target : list nat) : bool :=
  match broadcast_shapes s target with
  | Some r => bool_decide (r = target)
  | None => false
  end.

(** *** Shape surgery *)

Definition unsqueeze {A} (d : nat) (t : tensor A) : result (tensor A) :=
  if d <=? length (shape t)
  then Ok (Tensor (take d (shape t) ++ 1 :: drop d (shape t))
                  (λ ix, entry t (delete d ix)))
  else Raise IndexError.

Definition repeat_tensor {A} (reps : list nat) (t : tensor A) : result (tensor A) :=
  if length (shape t) <=? length reps
  then let pad := length reps - length (shape t) in
       let s := replicate pad 1 ++ shape t in
       Ok (Tensor (zip_with Nat.mul s reps)
                  (λ ix, entry t (drop pad (zip_with Nat.modulo ix s))))
  else Raise RuntimeError.

Definition index_of (p : nat) (dims : list nat) : nat :=
  default 0 (list_find (λ d, d = p) dims ≫= λ r, Some r.1).

Definition is_permutation (dims : list nat) (n : nat) : bool :=
  (length dims =? n) && forallb (λ p, bool_decide (p ∈ dims)) (seq 0 n).

(** [t.permute(dims)]: dimension [k] of the result is dimension
    [dims[k]] of [t]. *)
Definition permute {A} (dims : list nat) (t : tensor A) : result (tensor A) :=
  if is_permutation dims (length (shape t))
  then Ok (Tensor (map (λ d, nth d (shape t) 0) dims)
                  (λ ix, entry t (map (λ p, nth (index_of p dims) ix 0)
                                      (seq 0 (length dims)))))
  else Raise RuntimeError.

Definition swap_dims (d0 d1 n : nat) : list nat :=
  map (λ k, if k =? d0 then d1 else if k =? d1 then d0 else k) (seq 0 n).

Definition transpose {A} (d0 d1 : nat) (t : tensor A) : result (tensor A) :=
  let n := length (shape t) in
  if (d0 <? n) && (d1 <? n) then permute (swap_dims d0 d1 n) t
  else Raise IndexError.

(** Row-major position of an index and back. *)
Fixpoint ravel (s ix : list nat) : nat :=
  match s, ix with
  | _ :: s', i :: ix' => i * numel s' + ravel s' ix'
  | _, _ => 0
  end.

Fixpoint unravel (s : list nat) (k : nat) : list nat :=
  match s with
  | [] => []
  | _ :: s' => (k / numel s') :: unravel s' (k mod numel s')
  end.

(** [t.view(...)] with at most one inferred dimension, written
    [None] for the source's [-1].  The inferred size is the number of
    elements divided by the product of the given sizes; when that
    product is 0 the size cannot be inferred and the call fails. *)
Definition infer_size (spec : list (option nat)) (n : nat) : result (list nat) :=
  let known := numel (omap id spec) in
  match length (filter (λ o, o = None) spec) with
  | 0 => if known =? n then Ok (omap id spec) else Raise RuntimeError
  | 1 => if (0 <? known) && (n mod known =? 0)
         then Ok (map (λ o, default (n / known) o) spec)
         else Raise RuntimeError
  | _ => Raise RuntimeError
  end.

Definition view {A} (spec : list (option nat)) (t : tensor A) : result (tensor A) :=
  s ← infer_size spec (numel (shape t));
  Ok (Tensor s (λ ix, entry t (unravel (shape t) (ravel s ix)))).

(** [torch.cat([t, u], dim)]. *)
Definition cat {A} (d : nat) (t u : tensor A) : result (tensor A) :=
  if (d <? length (shape t))
     && bool_decide (length (shape t) = length (shape u))
     && bool_decide (delete d (shape t) = delete d (shape u))
  then let n := nth d (shape t) 0 in
       Ok (Tensor (alter (λ _, n + nth d (shape u) 0) d (shape t))
                  (λ ix, if nth d ix 0 <? n then entry t ix
                         else entry u (alter (λ i, i - n) d ix)))
  else Raise RuntimeError.

(** *** Indexing with slices *)

Inductive sel :=
| All               (* [:]  *)
| From (k : nat)    (* [k:] *)
| At (k : nat).     (* [k]  *)

Fixpoint slice_shape (sels : list sel) (s : list nat) : result (list nat) :=
  match sels, s with
  | [], _ => Ok s
  | _ :: _, [] => Raise IndexError
  | All :: r, n :: s' => cons n <$> slice_shape r s'
  | From k :: r, n :: s' => cons (n - k) <$> slice_shape r s'
  | At k :: r, n :: s' => if k <? n then slice_shape r s' else Raise IndexError
  end.

(** The index of the base tensor that an index of the slice reads. *)
Fixpoint base_index (sels : list sel) (ix : list nat) : list nat :=
  match sels with
  | [] => ix
  | All :: r => match ix with i :: ix' => i :: base_index r ix' | [] => [] end
  | From k :: r => match ix with i :: ix' => (k + i) :: base_index r ix' | [] => [] end
  | At k :: r => k :: base_index r ix
  end.

(** The index of the slice that holds a given index of the base
    tensor, if the slice covers it. *)
Fixpoint sub_index (sels : list sel) (ix : list nat) : option (list nat) :=
  match sels, ix with
  | [], _ => Some ix
  | _ :: _, [] => None
  | All :: r, i :: ix' => cons i <$> sub_index r ix'
  | From k :: r, i :: ix' => if k <=? i then cons (i - k) <$> sub_index r ix' else None
  | At k :: r, i :: ix' => if i =? k then sub_index r ix' else None
  end.

(** [t[sels]] *)
Definition getitem {A} (sels : list sel) (t : tensor A) : result (tensor A) :=
  s ← slice_shape sels (shape t);
  Ok (Tensor s (λ ix, entry t (base_index sels ix))).

(** The contents of [t] after [t[sels] = v]. *)
Definition setitem {A} (sels : list sel) (t v : tensor A) : result (tensor A) :=
  s ← slice_shape sels (shape t);
  if expandable (shape v) s
  then Ok (Tensor (shape t)
                  (λ ix, match sub_index sels ix with
                         | Some jx => entry v (expand_index (shape v) jx)
                         | None => entry t ix
                         end))
  else Raise RuntimeError.

(** *** Elementwise numeric operations on index tensors *)

(** [torch.clamp(x, min=lo, max=hi)] on an integer. *)
Definition clampZ (lo hi x : Z) : Z := Z.min (Z.max x lo) hi.

Definition clamp (lo hi : Z) (t : tensor Z) : tensor Z := tmap (clampZ lo hi) t.

(** The integer tensors of a batch are [int64]: a product wraps
    around. *)
Definition int64_min : Z := (- 2 ^ 63)%Z.

Definition wrap64 (z : Z) : Z := ((z + 2 ^ 63) mod 2 ^ 64 - 2 ^ 63)%Z.

(** What a float scalar denotes: not a number, an infinity, or a
    rational (both zeros denote 0). *)
Inductive fval :=
| FNaN
| FInf (negative : bool)
| FFin (q : Q).

(** [torch.clamp(x, min=lo, max=hi)] on a float is
    [min(max(x, lo), hi)], and a NaN stays a NaN. *)
Definition clampQ (lo hi x : Q) : Q :=
  let y := if Qle_bool x lo then lo else x in
  if Qle_bool hi y then hi else y.

Definition clamp_val (lo hi : Z) (v : fval) : fval :=
  match v with
  | FNaN => FNaN
  | FInf true => FFin (clampQ (inject_Z lo) (inject_Z hi) (inject_Z lo))
  | FInf false => FFin (inject_Z hi)
  | FFin q => FFin (clampQ (inject_Z lo) (inject_Z hi) q)
  end.

(** [.long()] on a float truncates toward zero.  What has no [int64]
    value (a NaN, an infinity, a number out of range) is converted to
    the smallest [int64], as the conversion instruction of x86-64
    does. *)
Definition truncQ (x : Q) : Z := Z.quot (Qnum x) (Z.pos (Qden x)).

Definition long_val (v : fval) : Z :=
  match v with
  | FFin q => let z := truncQ q in
              if (int64_min <=? z)%Z && (z <? 2 ^ 63)%Z then z else int64_min
  | _ => int64_min
  end.

Definition index_ok (n : nat) (z : Z) : bool :=
  (0 <=? z)%Z && (z <? Z.of_nat n)%Z.

(** ** The numeric backend

    What torch computes in floating point and the source only calls.
    No algebraic law is assumed of any field. *)

Class Backend := {
  F : Type;                                   (* float scalars *)
  fzero : F;
  fone : F;
  fadd : F → F → F;
  fmul : F → F → F;
  of_int : Z → F;                             (* a Python integer as a float scalar *)
  fvalue : F → fval;                          (* what a float scalar denotes *)
  dot : list F → list F → F;                  (* inner product of a row and a column *)
  softmax_vec : list F → list F;
  gelu : F → F;
  layer_norm_vec : list F → list F → list F → list F;  (* weight, bias, row *)
  pow_neg_half : nat → F;                     (* n ** -0.5 for n > 0 *)
  Gen : Type;                                 (* state of the random generator *)
  sample_fn : Gen → list nat → (list nat → F) * Gen;
  dropout_mask : Gen → Q → list nat → (list nat → F) * Gen
}.

Section Model.

Context {B : Backend}.

(** ** Heap of tensors and the state-and-exception monad

    A tensor object is a float tensor over the backend's [F] or an
    integer tensor.  The features [data.x], the baseline
    [data.attn_bias] and every weight are read as float tensors.  The
    path lengths, path counts, degrees and similarity scores of a batch
    may be tensors of either kind: the source multiplies, clamps and
    converts them with operations that accept both. *)

Inductive cell :=
| CellF (t : tensor F)      (* float tensor *)
| CellZ (t : tensor Z).     (* integer tensor *)

Definition cell_shape (c : cell) : list nat :=
  match c with CellF t => shape t | CellZ t => shape t end.

(** [c * k] for a Python integer [k]: in the element type of the
    tensor. *)
Definition mul_scalar (c : cell) (k : Z) : cell :=
  match c with
  | CellF t => CellF (tmap (λ x, fmul x (of_int k)) t)
  | CellZ t => CellZ (tmap (λ z, wrap64 (z * k)) t)
  end.

(** [torch.clamp(c, min=lo, max=hi).long()] *)
Definition clamp_long (lo hi : Z) (c : cell) : tensor Z :=
  match c with
  | CellF t => tmap (λ x, long_val (clamp_val lo hi (fvalue x))) t
  | CellZ t => clamp lo hi t
  end.

Record state := State { heap : gmap positive cell; rng : Gen }.

Definition M (A : Type) : Type := state → state * result A.

#[global] Instance M_ret : MRet M := λ A a st, (st, Ok a).
#[global] Instance M_bind : MBind M := λ A B f m st,
  match m st with
  | (st', Ok a) => f a st'
  | (st', Raise e) => (st', Raise e)
  end.

Definition raise {A} (e : exn) : M A := λ st, (st, Raise e).

Definition lift {A} (r : result A) : M A := λ st, (st, r).

(** A new tensor object holding [c]. *)
Definition alloc (c : cell) : M positive := λ st,
  let l := fresh (dom (heap st)) in
  (State (<[l:=c]> (heap st)) (rng st), Ok l).

Definition load (l : positive) : M cell := λ st,
  match heap st !! l with
  | Some c => (st, Ok c)
  | None => (st, Raise RuntimeError)
  end.

(** In-place update of the tensor object at [l]. *)
Definition store (l : positive) (c : cell) : M unit := λ st,
  (State (<[l:=c]> (heap st)) (rng st), Ok tt).

Definition load_F (l : positive) : M (tensor F) :=
  c ← load l; match c with CellF t => mret t | _ => raise TypeError end.

(** Attribute access on the batch object [data]: an attribute that the
    object does not have raises.  A batch class may give an attribute
    to every object, as [torch_geometric.data.Data] gives [x] and
    [edge_index] with the default [None]; the objects of such a class
    have an entry for it. *)
Definition getattr (data : gmap string positive) (name : string) : M positive :=
  match data !! name with
  | Some l => mret l
  | None => raise (AttributeError name)
  end.

(** Attribute access on a module: a sub-module that [__init__] did not
    assign is absent. *)
Definition getattr_module {A} (name : string) (o : option A) : M A :=
  match o with
  | Some a => mret a
  | None => raise (AttributeError name)
  end.

Definition sample (s : list nat) : M (tensor F) := λ st,
  let '(f, r) := sample_fn (rng st) s in
  (State (heap st) r, Ok (Tensor s f)).

(** ** torch.nn layers *)

Definition add (t u : tensor F) : result (tensor F) := broadcast2 fadd t u.

Definition last_dim (s : list nat) : result nat :=
  match last s with Some n => Ok n | None => Raise RuntimeError end.

Definition last_index (ix : list nat) : nat := default 0 (last ix).

(** *** nn.Linear *)

Record Linear := {
  in_features : nat;
  out_features : nat;
  lin_weight : tensor F;       (* [out_features, in_features] *)
  lin_bias : tensor F          (* [out_features] *)
}.

Definition Linear_reset_parameters (l : Linear) : M Linear :=
  w ← sample [out_features l; in_features l];
  b ← sample [out_features l];
  mret {| in_features := in_features l; out_features := out_features l;
          lin_weight := w; lin_bias := b |}.

Definition Linear_init (i o : nat) : M Linear :=
  Linear_reset_parameters
    {| in_features := i; out_features := o;
       lin_weight := full [o; i] fzero; lin_bias := full [o] fzero |}.

Definition Linear_forward (l : Linear) (x : tensor F) : result (tensor F) :=
  n ← last_dim (shape x);
  if n =? in_features l
  then Ok (Tensor (removelast (shape x) ++ [out_features l])
             (λ ix, fadd (dot (map (λ k, entry x (removelast ix ++ [k]))
                                   (seq 0 (in_features l)))
                              (map (λ k, entry (lin_weight l) [last_index ix; k])
                                   (seq 0 (in_features l))))
                         (entry (lin_bias l) [last_index ix])))
  else Raise RuntimeError.

(** *** nn.Embedding *)

Record Embedding := {
  num_embeddings : nat;
  embedding_dim : nat;
  padding_idx : option nat;
  emb_weight : tensor F        (* [num_embeddings, embedding_dim] *)
}.

Definition fill_padding_idx_with_zero (p : option nat) (w : tensor F) : tensor F :=
  match p with
  | Some r => Tensor (shape w) (λ ix, if nth 0 ix 0 =? r then fzero else entry w ix)
  | None => w
  end.

Definition Embedding_reset_parameters (e : Embedding) : M Embedding :=
  w ← sample [num_embeddings e; embedding_dim e];
  mret {| num_embeddings := num_embeddings e; embedding_dim := embedding_dim e;
          padding_idx := padding_idx e;
          emb_weight := fill_padding_idx_with_zero (padding_idx e) w |}.

Definition Embedding_init (n d : nat) (p : option nat) : M Embedding :=
  _ ← lift (guard_or AssertionError
              (match p with Some r => r <? n | None => true end));
  Embedding_reset_parameters
    {| num_embeddings := n; embedding_dim := d; padding_idx := p;
       emb_weight := full [n; d] fzero |}.

(** The lookup fails on any index outside the table. *)
Definition Embedding_forward (e : Embedding) (input : tensor Z) : result (tensor F) :=
  if forallb (λ ix, index_ok (num_embeddings e) (entry input ix))
             (indices (shape input))
  then Ok (Tensor (shape input ++ [embedding_dim e])
             (λ ix, entry (emb_weight e)
                      [Z.to_nat (entry input (removelast ix)); last_index ix]))
  else Raise IndexError.

(** *** nn.LayerNorm over the last dimension *)

Record LayerNorm := {
  normalized_shape : nat;
  ln_weight : tensor F;
  ln_bias : tensor F
}.

Definition LayerNorm_reset_parameters (l : LayerNorm) : LayerNorm :=
  {| normalized_shape := normalized_shape l;
     ln_weight := full [normalized_shape l] fone;
     ln_bias := full [normalized_shape l] fzero |}.

Definition LayerNorm_init (n : nat) : LayerNorm :=
  LayerNorm_reset_parameters
    {| normalized_shape := n; ln_weight := full [n] fone; ln_bias := full [n] fzero |}.

Definition row_of (t : tensor F) (ix : list nat) (n : nat) : list F :=
  map (λ k, entry t (removelast ix ++ [k])) (seq 0 n).

Definition LayerNorm_forward (l : LayerNorm) (x : tensor F) : result (tensor F) :=
  n ← last_dim (shape x);
  if n =? normalized_shape l
  then Ok (Tensor (shape x)
             (λ ix, nth (last_index ix)
                        (layer_norm_vec (row_of (ln_weight l) [0] n)
                                        (row_of (ln_bias l) [0] n)
                                        (row_of x ix n))
                        fzero))
  else Raise RuntimeError.

(** *** nn.Dropout *)

Record Dropout := { drop_p : Q; training : bool }.

Definition Dropout_init (rate : Q) : result Dropout :=
  if Qle_bool 0 rate && Qle_bool rate 1
  then Ok {| drop_p := rate; training := true |}
  else Raise ValueError.

(** Identity in evaluation mode; in training mode a random mask drawn
    from the generator. *)
Definition Dropout_forward (d : Dropout) (x : tensor F) : M (tensor F) :=
  if training d
  then λ st, let '(m, r) := dropout_mask (rng st) (drop_p d) (shape x) in
             (State (heap st) r, Ok (Tensor (shape x) (λ ix, fmul (entry x ix) (m ix))))
  else mret x.

(** *** torch.matmul on operands of rank at least 2 and torch.softmax *)

Definition matmul (t u : tensor F) : result (tensor F) :=
  match reverse (shape t), reverse (shape u) with
  | k :: m :: bt, n :: k' :: bu =>
      match broadcast_rev bt bu with
      | Some b =>
          if k =? k'
          then Ok (Tensor (reverse b ++ [m; n])
                 (λ ix, let batch := take (length ix - 2) ix in
                        let i := nth (length ix - 2) ix 0 in
                        let j := nth (length ix - 1) ix 0 in
                        dot (map (λ c, entry t (expand_index (reverse bt) batch ++ [i; c]))
                                 (seq 0 k))
                            (map (λ c, entry u (expand_index (reverse bu) batch ++ [c; j]))
                                 (seq 0 k))))
          else Raise RuntimeError
      | None => Raise RuntimeError
      end
  | _, _ => Raise RuntimeError
  end.

Definition softmax (d : nat) (x : tensor F) : result (tensor F) :=
  if d <? length (shape x)
  then Ok (Tensor (shape x)
             (λ ix, nth (nth d ix 0)
                        (softmax_vec (map (λ k, entry x (<[d:=k]> ix))
                                          (seq 0 (nth d (shape x) 0))))
                        fzero))
  else Raise IndexError.

(** ** class FeedForwardNetwork *)

Record FeedForwardNetwork := {
  layer1 : Linear;
  layer2 : Linear
}.

Definition FeedForwardNetwork_init (hidden_size ffn_size : nat) (dropout_rate : Q)
  : M FeedForwardNetwork :=
  l1 ← Linear_init hidden_size ffn_size;
  l2 ← Linear_init ffn_size hidden_size;
  mret {| layer1 := l1; layer2 := l2 |}.

Definition FeedForwardNetwork_reset_parameters (self : FeedForwardNetwork)
  : M FeedForwardNetwork :=
  l1 ← Linear_reset_parameters (layer1 self);
  l2 ← Linear_reset_parameters (layer2 self);
  mret {| layer1 := l1; layer2 := l2 |}.

Definition FeedForwardNetwork_forward (self : FeedForwardNetwork) (x : tensor F)
  : result (tensor F) :=
  x ← Linear_forward (layer1 self) x;
  let x := tmap gelu x in
  Linear_forward (layer2 self) x.

(** ** class MultiHeadAttention *)

Record MultiHeadAttention := {
  mha_num_heads : nat;
  att_size : nat;
  scale : F;
  linear_q : Linear;
  linear_k : Linear;
  linear_v : Linear;
  att_dropout : Dropout;
  output_layer : Linear
}.

(** Python's [hidden_size // num_heads] and [att_size ** -0.5]: a zero
    divisor and a zero base both raise [ZeroDivisionError]. *)
Definition floordiv (a b : nat) : result nat :=
  if b =? 0 then Raise ZeroDivisionError else Ok (a / b).

Definition pow_minus_half (n : nat) : result F :=
  if n =? 0 then Raise ZeroDivisionError else Ok (pow_neg_half n).

Definition MultiHeadAttention_init
  (hidden_size : nat) (attention_dropout_rate : Q) (num_heads : nat)
  : M MultiHeadAttention :=
  att ← lift (floordiv hidden_size num_heads);
  sc ← lift (pow_minus_half att);
  lq ← Linear_init hidden_size (num_heads * att);
  lk ← Linear_init hidden_size (num_heads * att);
  lv ← Linear_init hidden_size (num_heads * att);
  dr ← lift (Dropout_init attention_dropout_rate);
  out ← Linear_init (num_heads * att) hidden_size;
  mret {| mha_num_heads := num_heads; att_size := att; scale := sc;
          linear_q := lq; linear_k := lk; linear_v := lv;
          att_dropout := dr; output_layer := out |}.

Definition MultiHeadAttention_reset_parameters (self : MultiHeadAttention)
  : M MultiHeadAttention :=
  lq ← Linear_reset_parameters (linear_q self);
  lk ← Linear_reset_parameters (linear_k self);
  lv ← Linear_reset_parameters (linear_v self);
  out ← Linear_reset_parameters (output_layer self);
  mret {| mha_num_heads := mha_num_heads self; att_size := att_size self;
          scale := scale self;
          linear_q := lq; linear_k := lk; linear_v := lv;
          att_dropout := att_dropout self; output_layer := out |}.

(** [q.size(0)] *)
Definition size_at {A} (t : tensor A) (d : nat) : result nat :=
  match shape t !! d with Some n => Ok n | None => Raise IndexError end.

Definition MultiHeadAttention_forward (self : MultiHeadAttention)
  (q k v : tensor F) (attn_bias : option (tensor F)) : M (tensor F) :=
  let orig_q_size := shape q in
  let d_k := att_size self in
  let d_v := att_size self in
  let h := mha_num_heads self in
  batch_size ← lift (size_at q 0);
  q ← lift (Linear_forward (linear_q self) q
            ≫= view [Some batch_size; None; Some h; Some d_k]);
  k ← lift (Linear_forward (linear_k self) k
            ≫= view [Some batch_size; None; Some h; Some d_k]);
  v ← lift (Linear_forward (linear_v self) v
            ≫= view [Some batch_size; None; Some h; Some d_v]);
  q ← lift (transpose 1 2 q);
  v ← lift (transpose 1 2 v);
  k ← lift (transpose 1 2 k ≫= transpose 2 3);
  let q := tmap (λ a, fmul a (scale self)) q in
  x ← lift (matmul q k);
  x ← match attn_bias with
       | Some b => lift (add x b)
       | None => mret x
       end;
  x ← lift (softmax 3 x);
  x ← Dropout_forward (att_dropout self) x;
  x ← lift (matmul x v);
  x ← lift (transpose 1 2 x);
  x ← lift (view [Some batch_size; None; Some (h * d_v)] x);
  x ← lift (Linear_forward (output_layer self) x);
  if bool_decide (shape x = orig_q_size) then mret x else raise AssertionError.

(** ** class EncoderLayer *)

Record EncoderLayer := {
  self_attention_norm : LayerNorm;
  self_attention : MultiHeadAttention;
  self_attention_dropout : Dropout;
  ffn_norm : LayerNorm;
  ffn : FeedForwardNetwork;
  ffn_dropout : Dropout
}.

Definition EncoderLayer_init
  (hidden_size ffn_size : nat) (dropout_rate attention_dropout_rate : Q)
  (num_heads : nat) : M EncoderLayer :=
  let n1 := LayerNorm_init hidden_size in
  att ← MultiHeadAttention_init hidden_size attention_dropout_rate num_heads;
  d1 ← lift (Dropout_init dropout_rate);
  let n2 := LayerNorm_init hidden_size in
  f ← FeedForwardNetwork_init hidden_size ffn_size dropout_rate;
  d2 ← lift (Dropout_init dropout_rate);
  mret {| self_attention_norm := n1; self_attention := att;
          self_attention_dropout := d1;
          ffn_norm := n2; ffn := f; ffn_dropout := d2 |}.

Definition EncoderLayer_reset_parameters (self : EncoderLayer) : M EncoderLayer :=
  let n1 := LayerNorm_reset_parameters (self_attention_norm self) in
  att ← MultiHeadAttention_reset_parameters (self_attention self);
  let n2 := LayerNorm_reset_parameters (ffn_norm self) in
  f ← FeedForwardNetwork_reset_parameters (ffn self);
  mret {| self_attention_norm := n1; self_attention := att;
          self_attention_dropout := self_attention_dropout self;
          ffn_norm := n2; ffn := f; ffn_dropout := ffn_dropout self |}.

Definition EncoderLayer_forward (self : EncoderLayer)
  (x : tensor F) (attn_bias : option (tensor F)) : M (tensor F) :=
  y ← lift (LayerNorm_forward (self_attention_norm self) x);
  y ← MultiHeadAttention_forward (self_attention self) y y y attn_bias;
  y ← Dropout_forward (self_attention_dropout self) y;
  x ← lift (add x y);
  y ← lift (LayerNorm_forward (ffn_norm self) x);
  y ← lift (FeedForwardNetwork_forward (ffn self) y);
  y ← Dropout_forward (ffn_dropout self) y;
  x ← lift (add x y);
  mret x.

(** ** class Graphormer *)

Record Config := {
  n_layers : nat;
  num_node_feat : nat;
  cfg_num_heads : nat;
  cfg_hidden_dim : nat;
  ffn_dim : nat;
  cfg_use_num_spd : bool;
  cfg_use_cnb_jac : bool;
  cfg_use_cnb_aa : bool;
  cfg_use_degree : bool;
  dropout_rate : Q;
  intput_dropout_rate : Q;
  attention_dropout_rate : Q;
  cfg_multi_hop_max_dist : nat
}.

(** The attributes of a model object.  The encoders of the optional
    channels are assigned by [__init__] only when their flag is set;
    an unassigned attribute is [None]. *)
Record Graphormer := {
  num_heads : nat;
  atom_encoder : Linear;
  len_shortest_path_encoder : Embedding;
  num_shortest_path_encoder : option Embedding;
  undir_jac_encoder : option Embedding;
  undir_aa_encoder : option Embedding;
  in_degree_encoder : option Embedding;
  out_degree_encoder : option Embedding;
  input_dropout : Dropout;
  layers : list EncoderLayer;
  final_ln : LayerNorm;
  graph_token : Embedding;
  graph_token_virtual_distance : Embedding;
  multi_hop_max_dist : nat;
  hidden_dim : nat;
  use_num_spd : bool;
  use_cnb_jac : bool;
  use_cnb_aa : bool;
  use_degree : bool
}.

(** [if flag: self.attr = nn.Embedding(n, d, padding_idx=0)] *)
Definition init_if (flag : bool) (n d : nat) : M (option Embedding) :=
  if flag then e ← Embedding_init n d (Some 0); mret (Some e) else mret None.

Fixpoint init_layers (n : nat) (c : Config) : M (list EncoderLayer) :=
  match n with
  | 0 => mret []
  | S n' =>
      l ← EncoderLayer_init (cfg_hidden_dim c) (ffn_dim c) (dropout_rate c)
            (attention_dropout_rate c) (cfg_num_heads c);
      ls ← init_layers n' c;
      mret (l :: ls)
  end.

Definition Graphormer_init (c : Config) : M Graphormer :=
  let h := cfg_num_heads c in
  let d := cfg_hidden_dim c in
  atom ← Linear_init (num_node_feat c) d;
  lsp ← Embedding_init 40 h (Some 0);
  nsp ← init_if (cfg_use_num_spd c) 40 h;
  jac ← init_if (cfg_use_cnb_jac c) 40 h;
  aa ← init_if (cfg_use_cnb_aa c) 40 h;
  ind ← init_if (cfg_use_degree c) 64 d;
  outd ← init_if (cfg_use_degree c) 64 d;
  idr ← lift (Dropout_init (intput_dropout_rate c));
  encoders ← init_layers (n_layers c) c;
  let fln := LayerNorm_init d in
  gt ← Embedding_init 1 d None;
  gtvd ← Embedding_init 1 h None;
  mret {| num_heads := h; atom_encoder := atom;
          len_shortest_path_encoder := lsp;
          num_shortest_path_encoder := nsp;
          undir_jac_encoder := jac; undir_aa_encoder := aa;
          in_degree_encoder := ind; out_degree_encoder := outd;
          input_dropout := idr; layers := encoders; final_ln := fln;
          graph_token := gt; graph_token_virtual_distance := gtvd;
          multi_hop_max_dist := cfg_multi_hop_max_dist c;
          hidden_dim := d;
          use_num_spd := cfg_use_num_spd c; use_cnb_jac := cfg_use_cnb_jac c;
          use_cnb_aa := cfg_use_cnb_aa c; use_degree := cfg_use_degree c |}.

Fixpoint reset_layers (ls : list EncoderLayer) : M (list EncoderLayer) :=
  match ls with
  | [] => mret []
  | l :: ls' =>
      l' ← EncoderLayer_reset_parameters l;
      ls'' ← reset_layers ls';
      mret (l' :: ls'')
  end.

(** [self.attr.reset_parameters()] *)
Definition reset_attr (name : string) (o : option Embedding) : M (option Embedding) :=
  e ← getattr_module name o;
  e' ← Embedding_reset_parameters e;
  mret (Some e').

(** [if flag: self.attr.reset_parameters()] *)
Definition reset_if (flag : bool) (name : string) (o : option Embedding)
  : M (option Embedding) :=
  if flag then reset_attr name o else mret o.

Definition Graphormer_reset_parameters (self : Graphormer) : M Graphormer :=
  ls ← reset_layers (layers self);
  let fln := LayerNorm_reset_parameters (final_ln self) in
  atom ← Linear_reset_parameters (atom_encoder self);
  lsp ← Embedding_reset_parameters (len_shortest_path_encoder self);
  nsp ← reset_if (use_num_spd self) "num_shortest_path_encoder"
          (num_shortest_path_encoder self);
  jac ← reset_if (use_cnb_jac self) "undir_jac_encoder" (undir_jac_encoder self);
  aa ← reset_if (use_cnb_aa self) "undir_aa_encoder" (undir_aa_encoder self);
  ind ← reset_attr "in_degree_encoder" (in_degree_encoder self);
  outd ← reset_attr "out_degree_encoder" (out_degree_encoder self);
  mret {| num_heads := num_heads self; atom_encoder := atom;
          len_shortest_path_encoder := lsp;
          num_shortest_path_encoder := nsp;
          undir_jac_encoder := jac; undir_aa_encoder := aa;
          in_degree_encoder := ind; out_degree_encoder := outd;
          input_dropout := input_dropout self; layers := ls; final_ln := fln;
          graph_token := graph_token self;
          graph_token_virtual_distance := graph_token_virtual_distance self;
          multi_hop_max_dist := multi_hop_max_dist self;
          hidden_dim := hidden_dim self;
          use_num_spd := use_num_spd self; use_cnb_jac := use_cnb_jac self;
          use_cnb_aa := use_cnb_aa self; use_degree := use_degree self |}.

(** *** Graphormer.forward *)

(** [n_graph, n_node = x.size()[:2]] *)
Definition size2 {A} (t : tensor A) : result (nat * nat) :=
  match shape t with
  | g :: n :: _ => Ok (g, n)
  | _ => Raise ValueError
  end.

(** [t[sels] = t[sels] + v] on the tensor object at [l]. *)
Definition setitem_add (l : positive) (sels : list sel) (v : tensor F) : M unit :=
  cur ← load_F l;
  rhs ← lift (getitem sels cur ≫= λ s, add s v);
  cur ← load_F l;
  new ← lift (setitem sels cur rhs);
  store l (CellF new).

(** [self.encoder(index).permute(0, 3, 1, 2)] *)
Definition encode (e : Embedding) (index : tensor Z) : result (tensor F) :=
  Embedding_forward e index ≫= permute [0; 3; 1; 2].

(** The local variables of [forward] that are live after line 241. *)
Record Locals := {
  loc_x : positive;
  loc_n_graph : nat;
  loc_in_degree : tensor Z;
  loc_out_degree : tensor Z;
  loc_graph_attn_bias : tensor F
}.

(** Lines 203-241: the attention bias. *)
Definition Graphormer_forward_bias (self : Graphormer) (data : gmap string positive)
  : M Locals :=
  x ← getattr data "x";
  edge_index ← getattr data "edge_index";
  attn_bias ← getattr data "attn_bias";
  len_shortest_path ← (l ← getattr data "len_shortest_path"; c ← load l;
                       mret (clamp_long 0 39 c));
  in_degree ← (l ← getattr data "in_degree"; c ← load l; mret (clamp_long 0 63 c));
  out_degree ← (l ← getattr data "out_degree"; c ← load l; mret (clamp_long 0 63 c));
  xv ← load_F x;
  '(n_graph, n_node) ← lift (size2 xv);
  b ← load_F attn_bias;
  cloned ← alloc (CellF b);
  c ← load_F cloned;
  r ← lift (unsqueeze 1 c ≫= repeat_tensor [1; num_heads self; 1; 1]);
  graph_attn_bias ← alloc (CellF r);
  spatial_pos_bias ← lift (encode (len_shortest_path_encoder self) len_shortest_path);
  spatial_pos_bias ←
    (if use_num_spd self then
       num_shortest_path ← (l ← getattr data "num_shortest_path"; c ← load l;
                            mret (clamp_long 0 39 c));
       enc ← getattr_module "num_shortest_path_encoder" (num_shortest_path_encoder self);
       lift (encode enc num_shortest_path ≫= add spatial_pos_bias)
     else mret spatial_pos_bias);
  spatial_pos_bias ←
    (if use_cnb_jac self then
       undir_jac ← (l ← getattr data "undir_jac"; load l);
       let undir_jac_enc := clamp_long 0 39 (mul_scalar undir_jac 30) in
       enc ← getattr_module "undir_jac_encoder" (undir_jac_encoder self);
       lift (encode enc undir_jac_enc ≫= add spatial_pos_bias)
     else mret spatial_pos_bias);
  spatial_pos_bias ←
    (if use_cnb_aa self then
       undir_aa ← (l ← getattr data "undir_aa"; load l);
       let undir_aa_enc := clamp_long 0 39 (mul_scalar undir_aa 10) in
       enc ← getattr_module "undir_aa_encoder" (undir_aa_encoder self);
       lift (encode enc undir_aa_enc ≫= add spatial_pos_bias)
     else mret spatial_pos_bias);
  _ ← setitem_add graph_attn_bias [All; All; From 1; From 1] spatial_pos_bias;
  t ← lift (view [Some 1; Some (num_heads self); Some 1]
              (emb_weight (graph_token_virtual_distance self)));
  _ ← setitem_add graph_attn_bias [All; All; From 1; At 0] t;
  _ ← setitem_add graph_attn_bias [All; All; At 0; All] t;
  cur ← load_F graph_attn_bias;
  b ← load_F attn_bias;
  final ← lift (unsqueeze 1 b ≫= add cur);
  mret {| loc_x := x; loc_n_graph := n_graph; loc_in_degree := in_degree;
          loc_out_degree := out_degree; loc_graph_attn_bias := final |}.

Fixpoint run_layers (ls : list EncoderLayer) (output graph_attn_bias : tensor F)
  : M (tensor F) :=
  match ls with
  | [] => mret output
  | enc_layer :: ls' =>
      output ← EncoderLayer_forward enc_layer output (Some graph_attn_bias);
      run_layers ls' output graph_attn_bias
  end.

Definition Graphormer_forward (self : Graphormer) (data : gmap string positive)
  (perturb : option positive) : M (tensor F) :=
  loc ← Graphormer_forward_bias self data;
  xv ← load_F (loc_x loc);
  node_feature ← lift (Linear_forward (atom_encoder self) xv);
  node_feature ←
    (if use_degree self then
       ie ← getattr_module "in_degree_encoder" (in_degree_encoder self);
       nf ← lift (Embedding_forward ie (loc_in_degree loc) ≫= add node_feature);
       oe ← getattr_module "out_degree_encoder" (out_degree_encoder self);
       lift (Embedding_forward oe (loc_out_degree loc) ≫= add nf)
     else mret node_feature);
  graph_token_feature ←
    lift (unsqueeze 0 (emb_weight (graph_token self))
          ≫= repeat_tensor [loc_n_graph loc; 1; 1]);
  graph_node_feature ← lift (cat 1 graph_token_feature node_feature);
  output ← Dropout_forward (input_dropout self) graph_node_feature;
  output ← run_layers (layers self) output (loc_graph_attn_bias loc);
  output ← lift (LayerNorm_forward (final_ln self) output);
  mret output.

End Model.

(** ** Three backends to run the model on

    [ZBackend] computes with exact integers.  [FloatBackend] adds and
    multiplies binary64 floats as the hardware does, [Float32Backend]
    binary32 floats (the default element type of torch) by the
    library's specification of IEEE 754 arithmetic; the kernels that
    the attention bias never calls are left trivial in all three. *)

(** The value of a float given by its sign, mantissa and exponent. *)
Definition sf_value (x : spec_float) : fval :=
  match x with
  | S754_zero _ => FFin 0
  | S754_infinity s => FInf s
  | S754_nan => FNaN
  | S754_finite s m e =>
      let q := match e with
               | Z0 => inject_Z (Z.pos m)
               | Zpos p => inject_Z (Z.pos m * 2 ^ Z.pos p)
               | Zneg p => Qmake (Z.pos m) (2 ^ p)
               end in
      FFin (if s then Qopp q else q)
  end.

Definition ZBackend : Backend := {|
  F := Z; fzero := 0%Z; fone := 1%Z; fadd := Z.add; fmul := Z.mul;
  of_int := λ k, k;
  fvalue := λ z, FFin (inject_Z z);
  dot := λ a b, foldr Z.add 0%Z (zip_with Z.mul a b);
  softmax_vec := λ l, l;
  gelu := λ a, a;
  layer_norm_vec := λ w b r, r;
  pow_neg_half := λ _, 1%Z;
  Gen := nat;
  sample_fn := λ r s, (λ ix : list nat, (Z.of_nat r + Z.of_nat (length ix))%Z, S r);
  dropout_mask := λ r rate s, (λ _, 1%Z, S r)
|}.

Definition FloatBackend : Backend := {|
  F := float; fzero := 0%float; fone := 1%float;
  fadd := PrimFloat.add; fmul := PrimFloat.mul;
  of_int := λ k, SF2Prim (binary_normalize 53 1024 k 0 false);
  fvalue := λ x, sf_value (Prim2SF x);
  dot := λ a b, foldr PrimFloat.add 0%float (zip_with PrimFloat.mul a b);
  softmax_vec := λ l, l;
  gelu := λ a, a;
  layer_norm_vec := λ w b r, r;
  pow_neg_half := λ _, 1%float;
  Gen := nat;
  sample_fn := λ r s, (λ _, 0%float, S r);
  dropout_mask := λ r rate s, (λ _, 1%float, S r)
|}.

Definition Float32Backend : Backend := {|
  F := spec_float; fzero := S754_zero false;
  fone := binary_normalize 24 128 1 0 false;
  fadd := SFadd 24 128; fmul := SFmul 24 128;
  of_int := λ k, binary_normalize 24 128 k 0 false;
  fvalue := sf_value;
  dot := λ a b, foldr (SFadd 24 128) (S754_zero false) (zip_with (SFmul 24 128) a b);
  softmax_vec := λ l, l;
  gelu := λ a, a;
  layer_norm_vec := λ w b r, r;
  pow_neg_half := λ _, binary_normalize 24 128 1 0 false;
  Gen := nat;
  sample_fn := λ r s, (λ _, S754_zero false, S r);
  dropout_mask := λ r rate s, (λ _, binary_normalize 24 128 1 0 false, S r)
|}.

Section Specification.

Context {B : Backend}.

(** ** What a forward call is given *)

(** The tensors behind the attributes of a batch object. *)
Record Batch := {
  b_x : tensor F;
  b_attn_bias : tensor F;
  b_len_shortest_path : cell;
  b_in_degree : cell;
  b_out_degree : cell;
  b_num_shortest_path : option cell;
  b_undir_jac : option cell;
  b_undir_aa : option cell
}.

Definition has_attr (data : gmap string positive) (st : state)
  (name : string) (c : cell) : Prop :=
  ∃ l, data !! name = Some l ∧ heap st !! l = Some c.

Definition has_opt (data : gmap string positive) (st : state)
  (name : string) (o : option cell) : Prop :=
  match o with Some c => has_attr data st name c | None => True end.

(** [data], read in state [st], holds the tensors of [b]. *)
Definition holds (data : gmap string positive) (st : state) (b : Batch) : Prop :=
  has_attr data st "x" (CellF (b_x b))
  ∧ is_Some (data !! "edge_index")
  ∧ has_attr data st "attn_bias" (CellF (b_attn_bias b))
  ∧ has_attr data st "len_shortest_path" (b_len_shortest_path b)
  ∧ has_attr data st "in_degree" (b_in_degree b)
  ∧ has_attr data st "out_degree" (b_out_degree b)
  ∧ has_opt data st "num_shortest_path" (b_num_shortest_path b)
  ∧ has_opt data st "undir_jac" (b_undir_jac b)
  ∧ has_opt data st "undir_aa" (b_undir_aa b).

Definition is_nan (v : fval) : bool :=
  match v with FNaN => true | _ => false end.

(** Entry [ix] of the tensor is a number: any entry of an integer
    tensor, an entry of a float tensor that is not a NaN. *)
Definition numeric_at (c : cell) (ix : list nat) : bool :=
  match c with
  | CellF t => negb (is_nan (fvalue (entry t ix)))
  | CellZ _ => true
  end.

Definition numeric (c : cell) : bool :=
  forallb (numeric_at c) (indices (cell_shape c)).

(** A tensor of shape [s] whose entries can be converted to indices. *)
Definition index_tensor (c : cell) (s : list nat) : bool :=
  bool_decide (cell_shape c = s) && numeric c.

Definition opt_index (flag : bool) (o : option cell) (s : list nat) : bool :=
  if flag then match o with Some c => index_tensor c s | None => false end
  else true.

(** The similarity scores as the forward pass converts them: times 30
    and times 10. *)
Definition scaled_jac (b : Batch) : option cell :=
  (λ c, mul_scalar c 30) <$> b_undir_jac b.

Definition scaled_aa (b : Batch) : option cell :=
  (λ c, mul_scalar c 10) <$> b_undir_aa b.

(** The shapes of section 6 of the specification, for [G] graphs of
    [N] nodes: the baseline bias has the graph-token row and column,
    the structural matrices of the enabled channels do not; what these
    matrices hold are numbers. *)
Definition batch_shapes (self : Graphormer) (b : Batch) (G N : nat) : bool :=
  (2 <=? length (shape (b_x b)))
  && bool_decide (shape (b_attn_bias b) = [G; S N; S N])
  && index_tensor (b_len_shortest_path b) [G; N; N]
  && opt_index (use_num_spd self) (b_num_shortest_path b) [G; N; N]
  && opt_index (use_cnb_jac self) (scaled_jac b) [G; N; N]
  && opt_index (use_cnb_aa self) (scaled_aa b) [G; N; N].

Definition table_ok (n d : nat) (e : Embedding) : bool :=
  (num_embeddings e =? n) && (embedding_dim e =? d).

Definition opt_table (flag : bool) (n d : nat) (o : option Embedding) : bool :=
  if flag then match o with Some e => table_ok n d e | None => false end
  else true.

(** The tables a model object needs for the attention bias, as
    [__init__] sizes them; their weights are arbitrary. *)
Definition bias_tables (self : Graphormer) : bool :=
  table_ok 40 (num_heads self) (len_shortest_path_encoder self)
  && opt_table (use_num_spd self) 40 (num_heads self) (num_shortest_path_encoder self)
  && opt_table (use_cnb_jac self) 40 (num_heads self) (undir_jac_encoder self)
  && opt_table (use_cnb_aa self) 40 (num_heads self) (undir_aa_encoder self)
  && bool_decide (shape (emb_weight (graph_token_virtual_distance self))
                  = [1; num_heads self]).

(** The sizes [MultiHeadAttention.__init__] gives an attention module
    of width [hidden]; its weights are arbitrary. *)
Definition linear_dims (l : Linear) (i o : nat) : bool :=
  (in_features l =? i) && (out_features l =? o).

Definition mha_ok (self : MultiHeadAttention) (hidden : nat) : bool :=
  let w := mha_num_heads self * att_size self in
  (0 <? mha_num_heads self) && (0 <? att_size self)
  && linear_dims (linear_q self) hidden w
  && linear_dims (linear_k self) hidden w
  && linear_dims (linear_v self) hidden w
  && linear_dims (output_layer self) w hidden.

(** The additive bias handed to an attention module, if any, has one
    score matrix per graph and head. *)
Definition bias_fits (attn_bias : option (tensor F)) (b h n : nat) : bool :=
  match attn_bias with
  | Some t => bool_decide (shape t = [b; h; n; n])
  | None => true
  end.

(** ** What construction checks and what it leaves *)

(** [nn.Dropout] accepts a probability between 0 and 1. *)
Definition rate_ok (r : Q) : bool := Qle_bool 0 r && Qle_bool r 1.

(** One encoder layer can be built: the head count is positive and at
    most the hidden dimension, so that [att_size] is positive. *)
Definition layer_ok (c : Config) : bool :=
  (1 <=? cfg_num_heads c) && (cfg_num_heads c <=? cfg_hidden_dim c)
  && rate_ok (attention_dropout_rate c) && rate_ok (dropout_rate c).

Definition init_ok (c : Config) : bool :=
  rate_ok (intput_dropout_rate c) && ((n_layers c =? 0) || layer_ok c).

(** An optional encoder is assigned exactly when its flag is set. *)
Definition assigned (flag : bool) (n d : nat) (o : option Embedding) : bool :=
  match o with
  | Some e => flag && table_ok n d e
  | None => negb flag
  end.

(** The model objects that [Graphormer(...)] returns for [c]. *)
Definition constructed (c : Config) (self : Graphormer) : Prop :=
  num_heads self = cfg_num_heads c
  ∧ hidden_dim self = cfg_hidden_dim c
  ∧ use_num_spd self = cfg_use_num_spd c
  ∧ use_cnb_jac self = cfg_use_cnb_jac c
  ∧ use_cnb_aa self = cfg_use_cnb_aa c
  ∧ use_degree self = cfg_use_degree c
  ∧ table_ok 40 (num_heads self) (len_shortest_path_encoder self) = true
  ∧ assigned (use_num_spd self) 40 (num_heads self) (num_shortest_path_encoder self) = true
  ∧ assigned (use_cnb_jac self) 40 (num_heads self) (undir_jac_encoder self) = true
  ∧ assigned (use_cnb_aa self) 40 (num_heads self) (undir_aa_encoder self) = true
  ∧ assigned (use_degree self) 64 (hidden_dim self) (in_degree_encoder self) = true
  ∧ assigned (use_degree self) 64 (hidden_dim self) (out_degree_encoder self) = true
  ∧ shape (emb_weight (graph_token_virtual_distance self)) = [1; num_heads self]
  ∧ length (layers self) = n_layers c
  ∧ Forall (λ l, mha_ok (self_attention l) (hidden_dim self) = true) (layers self).

(** ** The entries of the attention bias, term by term *)

(** The weight of head [h] that a table holds for a bucket. *)
Definition bucket_weight (e : Embedding) (bucket : Z) (h : nat) : F :=
  entry (emb_weight e) [Z.to_nat bucket; h].

(** One optional channel: its weight is added to the sum so far. *)
Definition channel_term (flag : bool) (enc : option Embedding)
  (index : option (tensor Z)) (g h i j : nat) (acc : F) : F :=
  match flag, enc, index with
  | true, Some e, Some t => fadd acc (bucket_weight e (entry t [g; i; j]) h)
  | _, _, _ => acc
  end.

Definition spd_index (b : Batch) : tensor Z :=
  clamp_long 0 39 (b_len_shortest_path b).
Definition num_spd_index (b : Batch) : option (tensor Z) :=
  clamp_long 0 39 <$> b_num_shortest_path b.
Definition jac_index (b : Batch) : option (tensor Z) :=
  (λ c, clamp_long 0 39 (mul_scalar c 30)) <$> b_undir_jac b.
Definition aa_index (b : Batch) : option (tensor Z) :=
  (λ c, clamp_long 0 39 (mul_scalar c 10)) <$> b_undir_aa b.

Definition spd_term (self : Graphormer) (b : Batch) (g h i j : nat) : F :=
  bucket_weight (len_shortest_path_encoder self) (entry (spd_index b) [g; i; j]) h.

Definition after_num_spd (self : Graphormer) (b : Batch) (g h i j : nat) : F :=
  channel_term (use_num_spd self) (num_shortest_path_encoder self)
    (num_spd_index b) g h i j (spd_term self b g h i j).

Definition after_jac (self : Graphormer) (b : Batch) (g h i j : nat) : F :=
  channel_term (use_cnb_jac self) (undir_jac_encoder self)
    (jac_index b) g h i j (after_num_spd self b g h i j).

(** The structural bias of the node pair [(i, j)] of graph [g] for head
    [h]: the shortest-path weight, then each enabled channel in the
    order of the source. *)
Definition structural (self : Graphormer) (b : Batch) (g h i j : nat) : F :=
  channel_term (use_cnb_aa self) (undir_aa_encoder self)
    (aa_index b) g h i j (after_jac self b g h i j).

(** The virtual distance of the graph token for head [h]. *)
Definition virtual_distance (self : Graphormer) (h : nat) : F :=
  entry (emb_weight (graph_token_virtual_distance self)) [0; h].

(** What is added to the cloned baseline at row [i], column [j]. *)
Definition added_term (self : Graphormer) (b : Batch) (g h i j : nat) : F :=
  match i, j with
  | S i', S j' => structural self b g h i' j'
  | _, _ => virtual_distance self h
  end.

Definition baseline (b : Batch) (g i j : nat) : F := entry (b_attn_bias b) [g; i; j].

(** ** Optional channels as values *)

Inductive channel := NumSpd | Jac | AA | Degree.

Definition enabled (c : channel) (self : Graphormer) : bool :=
  match c with
  | NumSpd => use_num_spd self
  | Jac => use_cnb_jac self
  | AA => use_cnb_aa self
  | Degree => use_degree self
  end.

Definition set_num_spd (flag : bool) (e : option Embedding) (self : Graphormer)
  : Graphormer :=
  {| num_heads := num_heads self; atom_encoder := atom_encoder self;
     len_shortest_path_encoder := len_shortest_path_encoder self;
     num_shortest_path_encoder := e;
     undir_jac_encoder := undir_jac_encoder self;
     undir_aa_encoder := undir_aa_encoder self;
     in_degree_encoder := in_degree_encoder self;
     out_degree_encoder := out_degree_encoder self;
     input_dropout := input_dropout self; layers := layers self;
     final_ln := final_ln self; graph_token := graph_token self;
     graph_token_virtual_distance := graph_token_virtual_distance self;
     multi_hop_max_dist := multi_hop_max_dist self; hidden_dim := hidden_dim self;
     use_num_spd := flag; use_cnb_jac := use_cnb_jac self;
     use_cnb_aa := use_cnb_aa self; use_degree := use_degree self |}.

Definition set_jac (flag : bool) (e : option Embedding) (self : Graphormer)
  : Graphormer :=
  {| num_heads := num_heads self; atom_encoder := atom_encoder self;
     len_shortest_path_encoder := len_shortest_path_encoder self;
     num_shortest_path_encoder := num_shortest_path_encoder self;
     undir_jac_encoder := e;
     undir_aa_encoder := undir_aa_encoder self;
     in_degree_encoder := in_degree_encoder self;
     out_degree_encoder := out_degree_encoder self;
     input_dropout := input_dropout self; layers := layers self;
     final_ln := final_ln self; graph_token := graph_token self;
     graph_token_virtual_distance := graph_token_virtual_distance self;
     multi_hop_max_dist := multi_hop_max_dist self; hidden_dim := hidden_dim self;
     use_num_spd := use_num_spd self; use_cnb_jac := flag;
     use_cnb_aa := use_cnb_aa self; use_degree := use_degree self |}.

Definition set_aa (flag : bool) (e : option Embedding) (self : Graphormer)
  : Graphormer :=
  {| num_heads := num_heads self; atom_encoder := atom_encoder self;
     len_shortest_path_encoder := len_shortest_path_encoder self;
     num_shortest_path_encoder := num_shortest_path_encoder self;
     undir_jac_encoder := undir_jac_encoder self;
     undir_aa_encoder := e;
     in_degree_encoder := in_degree_encoder self;
     out_degree_encoder := out_degree_encoder self;
     input_dropout := input_dropout self; layers := layers self;
     final_ln := final_ln self; graph_token := graph_token self;
     graph_token_virtual_distance := graph_token_virtual_distance self;
     multi_hop_max_dist := multi_hop_max_dist self; hidden_dim := hidden_dim self;
     use_num_spd := use_num_spd self; use_cnb_jac := use_cnb_jac self;
     use_cnb_aa := flag; use_degree := use_degree self |}.

Definition set_degree (flag : bool) (e : option Embedding) (self : Graphormer)
  : Graphormer :=
  {| num_heads := num_heads self; atom_encoder := atom_encoder self;
     len_shortest_path_encoder := len_shortest_path_encoder self;
     num_shortest_path_encoder := num_shortest_path_encoder self;
     undir_jac_encoder := undir_jac_encoder self;
     undir_aa_encoder := undir_aa_encoder self;
     in_degree_encoder := e;
     out_degree_encoder := e;
     input_dropout := input_dropout self; layers := layers self;
     final_ln := final_ln self; graph_token := graph_token self;
     graph_token_virtual_distance := graph_token_virtual_distance self;
     multi_hop_max_dist := multi_hop_max_dist self; hidden_dim := hidden_dim self;
     use_num_spd := use_num_spd self; use_cnb_jac := use_cnb_jac self;
     use_cnb_aa := use_cnb_aa self; use_degree := flag |}.

(** The model with channel [c] switched off (its table unassigned), and
    with [c] switched on over the table [e]. *)
Definition set_channel (c : channel) (flag : bool) (e : option Embedding)
  (self : Graphormer) : Graphormer :=
  match c with
  | NumSpd => set_num_spd flag e self
  | Jac => set_jac flag e self
  | AA => set_aa flag e self
  | Degree => set_degree flag e self
  end.

Definition disable (c : channel) (self : Graphormer) : Graphormer :=
  set_channel c false None self.

Definition enable (c : channel) (e : Embedding) (self : Graphormer) : Graphormer :=
  set_channel c true (Some e) self.

(** A table whose weights are all zero. *)
Definition zero_table (n d : nat) : Embedding :=
  {| num_embeddings := n; embedding_dim := d; padding_idx := Some 0;
     emb_weight := full [n; d] fzero |}.

(** The all-zero table of the size [__init__] gives channel [c]. *)
Definition channel_zero_table (c : channel) (self : Graphormer) : Embedding :=
  match c with
  | Degree => zero_table 64 (hidden_dim self)
  | _ => zero_table 40 (num_heads self)
  end.

(** The sum of the channels that precede [c] in the source. *)
Definition sum_before (c : channel) (self : Graphormer) (b : Batch)
  (g h i j : nat) : F :=
  match c with
  | NumSpd => spd_term self b g h i j
  | Jac => after_num_spd self b g h i j
  | AA => after_jac self b g h i j
  | Degree => structural self b g h i j
  end.

(** ** Statements about runs *)

(** [m] run from [st] returns normally, in a state and with a value
    that satisfy [Q]. *)
Definition wp {A} (m : M A) (st : state) (Q : state → A → Prop) : Prop :=
  ∃ st' a, m st = (st', Ok a) ∧ Q st' a.

(** [m] leaves the heap as it is (it may advance the generator). *)
Definition heap_pure {A} (m : M A) : Prop := ∀ st, heap (m st).1 = heap st.

(** [m] changes no tensor object of [D]; a value it returns satisfies [Q]. *)
Definition frames {A} (D : gset positive) (m : M A) (Q : A → Prop) : Prop :=
  ∀ st, D ⊆ dom (heap st) →
    (∀ l, l ∈ D → heap (m st).1 !! l = heap st !! l)
    ∧ (∀ a, (m st).2 = Ok a → Q a).

(** Every tensor object of [st0] is in [st], unchanged. *)
Definition extends (st0 st : state) : Prop :=
  ∀ l c, heap st0 !! l = Some c → heap st !! l = Some c.

(** Whether [m] returns does not depend on the state: it returns iff
    [b], and a value it returns satisfies [Q]. *)
Definition decides {A} (m : M A) (b : bool) (Q : A → Prop) : Prop :=
  ∀ st, is_ok (m st).2 = b ∧ ∀ a, (m st).2 = Ok a → Q a.

(** Every attribute of [data] names a tensor object that both states
    hold with the same contents. *)
Definition same_batch (data : gmap string positive) (s1 s2 : state) : Prop :=
  ∀ name l, data !! name = Some l →
    ∃ c, heap s1 !! l = Some c ∧ heap s2 !! l = Some c.

(** Dropout is disabled in every module of the model. *)
Definition layer_eval (l : EncoderLayer) : bool :=
  negb (training (att_dropout (self_attention l)))
  && negb (training (self_attention_dropout l))
  && negb (training (ffn_dropout l)).

Definition eval_mode (self : Graphormer) : bool :=
  negb (training (input_dropout self)) && forallb layer_eval (layers self).

(** [m] neither reads nor changes the state. *)
Definition stateless {A} (m : M A) : Prop := ∃ r, ∀ s, m s = (s, r).

(** Two runs end with the same result (the same value returned or the
    same exception raised). *)
Definition same_result {A} (r1 r2 : state * result A) : Prop := r1.2 = r2.2.

(** What a computation returns, when it returns. *)
Definition returns {A} (m : M A) (Q : A → Prop) : Prop :=
  ∀ s a, (m s).2 = Ok a → Q a.

(** ** The encoder stack and the input features *)

(** The sizes [FeedForwardNetwork.__init__] gives a feed-forward block
    of width [hidden]; the inner width is whatever [layer1] has. *)
Definition ffn_ok (self : FeedForwardNetwork) (hidden : nat) : bool :=
  (in_features (layer1 self) =? hidden)
  && (in_features (layer2 self) =? out_features (layer1 self))
  && (out_features (layer2 self) =? hidden).

(** The sizes [EncoderLayer.__init__] gives a layer of width [hidden]
    with [heads] attention heads. *)
Definition encoder_layer_ok (l : EncoderLayer) (hidden heads : nat) : bool :=
  (normalized_shape (self_attention_norm l) =? hidden)
  && mha_ok (self_attention l) hidden
  && (mha_num_heads (self_attention l) =? heads)
  && (normalized_shape (ffn_norm l) =? hidden)
  && ffn_ok (ffn l) hidden.

(** The sizes of the modules that lines 244-260 of [forward] call, for
    node features of width [nf]. *)
Definition features_ok (self : Graphormer) (nf : nat) : bool :=
  linear_dims (atom_encoder self) nf (hidden_dim self)
  && opt_table (use_degree self) 64 (hidden_dim self) (in_degree_encoder self)
  && opt_table (use_degree self) 64 (hidden_dim self) (out_degree_encoder self)
  && bool_decide (shape (emb_weight (graph_token self)) = [1; hidden_dim self]).

Definition stack_ok (self : Graphormer) : bool :=
  forallb (λ l, encoder_layer_ok l (hidden_dim self) (num_heads self)) (layers self)
  && (normalized_shape (final_ln self) =? hidden_dim self).

(** The shapes of the node features and, when degrees are encoded, of
    the degree vectors (which then hold numbers), for [G] graphs of [N]
    nodes. *)
Definition feature_shapes (self : Graphormer) (b : Batch) (G N nf : nat) : bool :=
  bool_decide (shape (b_x b) = [G; N; nf])
  && (if use_degree self
      then index_tensor (b_in_degree b) [G; N]
           && index_tensor (b_out_degree b) [G; N]
      else true).

(** [self.atom_encoder(x)] at node [i] of graph [g], channel [c]. *)
Definition atom_feature (self : Graphormer) (b : Batch) (g i c : nat) : F :=
  let n := in_features (atom_encoder self) in
  fadd (dot (map (λ k, entry (b_x b) [g; i; k]) (seq 0 n))
            (map (λ k, entry (lin_weight (atom_encoder self)) [c; k]) (seq 0 n)))
       (entry (lin_bias (atom_encoder self)) [c]).

(** The row that a degree table holds for the clamped degree of a node. *)
Definition degree_weight (o : option Embedding) (t : cell) (g i c : nat) : F :=
  match o with
  | Some e => entry (emb_weight e) [Z.to_nat (entry (clamp_long 0 63 t) [g; i]); c]
  | None => fzero
  end.

Definition node_feature (self : Graphormer) (b : Batch) (g i c : nat) : F :=
  if use_degree self
  then fadd (fadd (atom_feature self b g i c)
                  (degree_weight (in_degree_encoder self) (b_in_degree b) g i c))
            (degree_weight (out_degree_encoder self) (b_out_degree b) g i c)
  else atom_feature self b g i c.

(** The sequence handed to the encoder layers: the graph token at
    position 0, then the nodes. *)
Definition graph_node_feature (self : Graphormer) (b : Batch) (g i c : nat) : F :=
  match i with
  | 0 => entry (emb_weight (graph_token self)) [0; c]
  | S i' => node_feature self b g i' c
  end.

(** Lines 257-262 of [forward]: input dropout, the layers, the final
    normalisation. *)
Definition encoder_stack (self : Graphormer) (graph_node_feature graph_attn_bias : tensor F)
  : M (tensor F) :=
  output ← Dropout_forward (input_dropout self) graph_node_feature;
  output ← run_layers (layers self) output graph_attn_bias;
  output ← lift (LayerNorm_forward (final_ln self) output);
  mret output.

(** Everything [forward] needs of a model object that reads node
    features of width [nf]. *)
Definition forward_ready (self : Graphormer) (nf : nat) : bool :=
  bias_tables self && features_ok self nf && stack_ok self.

(** A table built with [padding_idx=0] whose row 0 is zero. *)
Definition zero_row (e : Embedding) : Prop :=
  padding_idx e = Some 0 ∧ ∀ c, entry (emb_weight e) [0; c] = fzero.

Definition opt_zero_row (o : option Embedding) : Prop :=
  match o with Some e => zero_row e | None => True end.

(** Bucket 0 of every structural and degree table carries no weight. *)
Definition padding_rows_zero (self : Graphormer) : Prop :=
  zero_row (len_shortest_path_encoder self)
  ∧ opt_zero_row (num_shortest_path_encoder self)
  ∧ opt_zero_row (undir_jac_encoder self)
  ∧ opt_zero_row (undir_aa_encoder self)
  ∧ opt_zero_row (in_degree_encoder self)
  ∧ opt_zero_row (out_degree_encoder self).

(** A table after [reset_parameters]: as large as before, with the
    padding row zero again. *)
Definition table_reset (e e' : Embedding) : Prop :=
  num_embeddings e' = num_embeddings e
  ∧ embedding_dim e' = embedding_dim e
  ∧ (zero_row e → zero_row e').

Definition opt_table_reset (o o' : option Embedding) : Prop :=
  match o, o' with
  | Some e, Some e' => table_reset e e'
  | None, None => True
  | _, _ => False
  end.

(** The result of running [m] from [st], whether a value or an
    exception, satisfies [P]. *)
Definition ends {A} (m : M A) (st : state) (P : result A → Prop) : Prop :=
  P (m st).2.

(** A stack of [N]-by-[N] matrices, each equal to its transpose. *)
Definition symmetric {A} (t : tensor A) (N : nat) : Prop :=
  ∀ g i j, i < N → j < N → entry t [g; i; j] = entry t [g; j; i].

Definition cell_symmetric (c : cell) (N : nat) : Prop :=
  match c with CellF t => symmetric t N | CellZ t => symmetric t N end.

Definition opt_symmetric (o : option cell) (N : nat) : Prop :=
  match o with Some c => cell_symmetric c N | None => True end.

(** The baseline bias and every structural matrix of the batch are
    symmetric, as they are for an undirected graph. *)
Definition symmetric_batch (b : Batch) (N : nat) : Prop :=
  symmetric (b_attn_bias b) (S N)
  ∧ cell_symmetric (b_len_shortest_path b) N
  ∧ opt_symmetric (b_num_shortest_path b) N
  ∧ opt_symmetric (b_undir_jac b) N
  ∧ opt_symmetric (b_undir_aa b) N.

(** Two sets of local variables that differ at most in the degree
    vectors. *)
Definition same_but_degrees (l1 l2 : Locals) : Prop :=
  loc_x l1 = loc_x l2
  ∧ loc_n_graph l1 = loc_n_graph l2
  ∧ loc_graph_attn_bias l1 = loc_graph_attn_bias l2.

(** Two runs end in the same state, with the same exception or with
    values related by [R]. *)
Definition related {A} (R : A → A → Prop) (r1 r2 : state * result A) : Prop :=
  r1.1 = r2.1
  ∧ match r1.2, r2.2 with
    | Ok a, Ok b => R a b
    | Raise e1, Raise e2 => e1 = e2
    | _, _ => False
    end.

(** The shapes of the structural matrices alone, whatever the shape
    of the baseline bias. *)
Definition structural_shapes (self : Graphormer) (b : Batch) (G N : nat) : bool :=
  (2 <=? length (shape (b_x b)))
  && index_tensor (b_len_shortest_path b) [G; N; N]
  && opt_index (use_num_spd self) (b_num_shortest_path b) [G; N; N]
  && opt_index (use_cnb_jac self) (scaled_jac b) [G; N; N]
  && opt_index (use_cnb_aa self) (scaled_aa b) [G; N; N].

(** ** Buckets, in the words of the specification *)

(** A value is clamped into the buckets 0 to [hi]: a value in range is
    its own bucket, a value outside gets the boundary on its side. *)
Definition saturate (hi z : Z) : Z :=
  if (z <? 0)%Z then 0%Z else if (hi <? z)%Z then hi else z.

(** The bucket of what a float denotes: a number is rounded down to an
    integer and clamped, an infinity gets the boundary on its side, a
    NaN has no bucket. *)
Definition float_bucket (hi : Z) (v : fval) : option Z :=
  match v with
  | FNaN => None
  | FInf negative => Some (if negative then 0%Z else hi)
  | FFin q => Some (saturate hi (Qfloor q))
  end.

(** The bucket of entry [ix] of a structural tensor. *)
Definition bucket_at (hi : Z) (c : cell) (ix : list nat) : option Z :=
  match c with
  | CellF t => float_bucket hi (fvalue (entry t ix))
  | CellZ t => Some (saturate hi (entry t ix))
  end.

(** The bucket of entry [ix] of a tensor of scores that are multiplied
    by [k]: the product is the one of the element type, rounded as a
    float, wrapped as an integer. *)
Definition score_bucket_at (hi k : Z) (c : cell) (ix : list nat) : option Z :=
  match c with
  | CellF t => float_bucket hi (fvalue (fmul (entry t ix) (of_int k)))
  | CellZ t => Some (saturate hi (wrap64 (entry t ix * k)))
  end.

(** Whatever [m] raises satisfies [P]. *)
Definition raises_only {A} (m : M A) (P : exn → Prop) : Prop :=
  ∀ st e, (m st).2 = Raise e → P e.

(** The heads do not fit the hidden dimension: none, or more heads
    than dimensions. *)
Definition heads_misfit (hidden heads : nat) : bool :=
  (heads =? 0) || (hidden <? heads).

(** Why building one encoder layer fails. *)
Definition layer_failure (hidden heads : nat) (rate att_rate : Q) (e : exn) : Prop :=
  if heads_misfit hidden heads
  then e = ZeroDivisionError
  else e = ValueError ∧ (rate_ok att_rate = false ∨ rate_ok rate = false).

(** ** The attention formula *)

(** [nn.Linear] at position [i] of sequence [g], output channel [c]. *)
Definition projection (l : Linear) (x : tensor F) (g i c : nat) : F :=
  fadd (dot (map (λ k, entry x [g; i; k]) (seq 0 (in_features l)))
            (map (λ k, entry (lin_weight l) [c; k]) (seq 0 (in_features l))))
       (entry (lin_bias l) [c]).

(** The score of key [j] for query [i] in head [h]: the scaled query
    times the key over the [att_size] channels of the head, plus the
    bias if there is one. *)
Definition attention_score (self : MultiHeadAttention) (q k : tensor F)
  (attn_bias : option (tensor F)) (g h i j : nat) : F :=
  let d := att_size self in
  let s := dot (map (λ c, fmul (projection (linear_q self) q g i (h * d + c))
                               (scale self)) (seq 0 d))
               (map (λ c, projection (linear_k self) k g j (h * d + c)) (seq 0 d)) in
  match attn_bias with
  | Some t => fadd s (entry t [g; h; i; j])
  | None => s
  end.

(** Softmax over the [m] keys. *)
Definition attention_weight (self : MultiHeadAttention) (q k : tensor F)
  (attn_bias : option (tensor F)) (m g h i j : nat) : F :=
  nth j (softmax_vec (map (λ j', attention_score self q k attn_bias g h i j')
                          (seq 0 m))) fzero.

(** Channel [c] of head [h]: the values weighted by the attention. *)
Definition attention_head (self : MultiHeadAttention) (q k v : tensor F)
  (attn_bias : option (tensor F)) (m g h i c : nat) : F :=
  dot (map (λ j, attention_weight self q k attn_bias m g h i j) (seq 0 m))
      (map (λ j, projection (linear_v self) v g j (h * att_size self + c)) (seq 0 m)).

(** The output projection of the heads laid side by side. *)
Definition attention_output (self : MultiHeadAttention) (q k v : tensor F)
  (attn_bias : option (tensor F)) (m g i o : nat) : F :=
  let d := att_size self in
  let l := output_layer self in
  fadd (dot (map (λ c, attention_head self q k v attn_bias m g (c / d) i (c mod d))
                 (seq 0 (in_features l)))
            (map (λ c, entry (lin_weight l) [o; c]) (seq 0 (in_features l))))
       (entry (lin_bias l) [o]).

End Specification.

(** * Running the model

    A small model and batch over exact integers, a model over binary64
    floats and a model with float scores over binary32 floats, on which
    the hypotheses of the theorems below are checked and the boundary
    cases are evaluated. *)

Definition get_ok {A} (d : A) (r : result A) : A :=
  match r with Ok a => a | Raise _ => d end.

(** The entry of the attention bias that a forward call builds. *)
Definition bias_entry {B : Backend} (self : Graphormer) (data : gmap string positive)
  (st : state) (ix : list nat) : result F :=
  match (Graphormer_forward_bias self data st).2 with
  | Ok loc => Ok (entry (loc_graph_attn_bias loc) ix)
  | Raise e => Raise e
  end.

Definition ex_linear {B : Backend} (i o : nat) : Linear :=
  {| in_features := i; out_features := o;
     lin_weight := full [o; i] fone; lin_bias := full [o] fzero |}.

(** The [k]-th coordinate of an index, as an integer. *)
Definition coord (k : nat) (ix : list nat) : Z := Z.of_nat (nth k ix 0).

Definition ex_dropout : Dropout := {| drop_p := 0.1; training := false |}.

Module ZExample.

#[local] Existing Instance ZBackend.

Definition table (n d : nat) : Embedding :=
  {| num_embeddings := n; embedding_dim := d; padding_idx := Some 0;
     emb_weight := Tensor [n; d]
                     (λ ix, (coord 0 ix * 10 + coord 1 ix)%Z) |}.

(** Two heads, hidden size 4, shortest-path counts enabled, no layer. *)
Definition model : Graphormer :=
  {| num_heads := 2; atom_encoder := ex_linear 3 4;
     len_shortest_path_encoder := table 40 2;
     num_shortest_path_encoder := Some (table 40 2);
     undir_jac_encoder := None; undir_aa_encoder := None;
     in_degree_encoder := None; out_degree_encoder := None;
     input_dropout := ex_dropout; layers := []; final_ln := LayerNorm_init 4;
     graph_token := table 1 4;
     graph_token_virtual_distance :=
       {| num_embeddings := 1; embedding_dim := 2; padding_idx := None;
          emb_weight := Tensor [1; 2] (λ ix, (7 + coord 1 ix)%Z) |};
     multi_hop_max_dist := 20; hidden_dim := 4;
     use_num_spd := true; use_cnb_jac := false; use_cnb_aa := false;
     use_degree := false |}.

(** One graph of two nodes. *)
Definition batch : Batch :=
  {| b_x := full [1; 2; 3] 1%Z;
     b_attn_bias := Tensor [1; 3; 3]
                      (λ ix, (coord 1 ix * 100 + coord 2 ix * 1000)%Z);
     b_len_shortest_path := CellZ (Tensor [1; 2; 2]
                                     (λ ix, (coord 1 ix + 50 * coord 2 ix - 1)%Z));
     b_in_degree := CellZ (full [1; 2] 70%Z);
     b_out_degree := CellZ (full [1; 2] (-3)%Z);
     b_num_shortest_path := Some (CellZ (full [1; 2; 2] 3%Z));
     b_undir_jac := None; b_undir_aa := None |}.

Definition data : gmap string positive :=
  <["x" := 1%positive]> (<["edge_index" := 2%positive]>
  (<["attn_bias" := 3%positive]> (<["len_shortest_path" := 4%positive]>
  (<["in_degree" := 5%positive]> (<["out_degree" := 6%positive]>
  (<["num_shortest_path" := 7%positive]> ∅)))))).

Definition st : state :=
  State (<[1%positive := CellF (b_x batch)]>
        (<[2%positive := CellZ (full [2; 1] 0%Z)]>
        (<[3%positive := CellF (b_attn_bias batch)]>
        (<[4%positive := b_len_shortest_path batch]>
        (<[5%positive := b_in_degree batch]>
        (<[6%positive := b_out_degree batch]>
        (<[7%positive := CellZ (full [1; 2; 2] 3%Z)]> ∅)))))))
        (0 : Gen).

End ZExample.

Module FloatExample.

#[local] Existing Instance FloatBackend.

(** A table all of whose weights are negative zero. *)
Definition table (n d : nat) : Embedding :=
  {| num_embeddings := n; embedding_dim := d; padding_idx := Some 0;
     emb_weight := full [n; d] (-0)%float |}.

(** One head; only the shortest-path length is encoded. *)
Definition model : Graphormer :=
  {| num_heads := 1; atom_encoder := ex_linear 1 1;
     len_shortest_path_encoder := table 40 1;
     num_shortest_path_encoder := None;
     undir_jac_encoder := None; undir_aa_encoder := None;
     in_degree_encoder := None; out_degree_encoder := None;
     input_dropout := ex_dropout; layers := []; final_ln := LayerNorm_init 1;
     graph_token := table 1 1;
     graph_token_virtual_distance := table 1 1;
     multi_hop_max_dist := 20; hidden_dim := 1;
     use_num_spd := false; use_cnb_jac := false; use_cnb_aa := false;
     use_degree := false |}.

(** One graph of one node; the baseline bias is negative zero, as a
    mask multiplied by a negative constant is where the mask is 0. *)
Definition data : gmap string positive :=
  <["x" := 1%positive]> (<["edge_index" := 2%positive]>
  (<["attn_bias" := 3%positive]> (<["len_shortest_path" := 4%positive]>
  (<["in_degree" := 5%positive]> (<["out_degree" := 5%positive]>
  (<["num_shortest_path" := 4%positive]> ∅)))))).

Definition st : state :=
  State (<[1%positive := CellF (full [1; 1; 1] 1%float)]>
        (<[2%positive := CellZ (full [2; 1] 0%Z)]>
        (<[3%positive := CellF (full [1; 2; 2] (-0)%float)]>
        (<[4%positive := CellZ (full [1; 1; 1] 1%Z)]>
        (<[5%positive := CellZ (full [1; 1] 1%Z)]> ∅)))))
        (0 : Gen).

End FloatExample.

Definition ex_config (hidden heads : nat) (degree : bool) : Config :=
  {| n_layers := 1; num_node_feat := 3; cfg_num_heads := heads;
     cfg_hidden_dim := hidden; ffn_dim := 8;
     cfg_use_num_spd := false; cfg_use_cnb_jac := false; cfg_use_cnb_aa := false;
     cfg_use_degree := degree;
     dropout_rate := 0.1; intput_dropout_rate := 0.1;
     attention_dropout_rate := 0.1; cfg_multi_hop_max_dist := 20 |}.

Definition ex_state : @state ZBackend := State ∅ (0 : @Gen ZBackend).

(** The model that [Graphormer(...)] returns without degree encoding. *)
Definition built_without_degree : @Graphormer ZBackend :=
  get_ok ZExample.model
    (Graphormer_init (B := ZBackend) (ex_config 4 2 false) ex_state).2.

Definition ex_query (b n d : nat) : tensor (@F ZBackend) := full [b; n; d] fone.

Definition ex_attention : @MultiHeadAttention ZBackend :=
  {| mha_num_heads := 2; att_size := 2; scale := fone;
     linear_q := ex_linear 4 4; linear_k := ex_linear 4 4;
     linear_v := ex_linear 4 4; att_dropout := ex_dropout;
     output_layer := ex_linear 4 4 |}.

Definition ex_ffn : @FeedForwardNetwork ZBackend :=
  {| layer1 := ex_linear 4 8; layer2 := ex_linear 8 4 |}.

Definition ex_layer : @EncoderLayer ZBackend :=
  {| self_attention_norm := LayerNorm_init 4; self_attention := ex_attention;
     self_attention_dropout := ex_dropout;
     ffn_norm := LayerNorm_init 4; ffn := ex_ffn; ffn_dropout := ex_dropout |}.

(** The model that [Graphormer(...)] returns with degree encoding. *)
Definition built_with_degree : @Graphormer ZBackend :=
  get_ok ZExample.model
    (Graphormer_init (B := ZBackend) (ex_config 4 2 true) ex_state).2.

Module ZCases.

#[local] Existing Instance ZBackend.

(** A batch object with the six attributes every call reads, and the
    state that holds the tensors of [b] behind them. *)
Definition data : gmap string positive :=
  <["x" := 1%positive]> (<["edge_index" := 2%positive]>
  (<["attn_bias" := 3%positive]> (<["len_shortest_path" := 4%positive]>
  (<["in_degree" := 5%positive]> (<["out_degree" := 6%positive]> ∅))))).

Definition state_of (b : Batch) : state :=
  State (<[1%positive := CellF (b_x b)]>
        (<[2%positive := CellZ (full [2; 1] 0%Z)]>
        (<[3%positive := CellF (b_attn_bias b)]>
        (<[4%positive := b_len_shortest_path b]>
        (<[5%positive := b_in_degree b]>
        (<[6%positive := b_out_degree b]> ∅))))))
        (0 : Gen).

Definition batch_of (x attn_bias : tensor Z) (len_shortest_path : tensor Z) : Batch :=
  {| b_x := x; b_attn_bias := attn_bias;
     b_len_shortest_path := CellZ len_shortest_path;
     b_in_degree := CellZ (full [1; 2] 1%Z); b_out_degree := CellZ (full [1; 2] 1%Z);
     b_num_shortest_path := None; b_undir_jac := None; b_undir_aa := None |}.

(** No graph at all. *)
Definition empty : Batch :=
  batch_of (full [0; 2; 3] 1%Z) (full [0; 3; 3] 0%Z) (full [0; 2; 2] 1%Z).

(** Node features without a graph dimension. *)
Definition flat : Batch :=
  batch_of (full [3] 1%Z) (full [1; 3; 3] 0%Z) (full [1; 2; 2] 1%Z).

(** One undirected graph of two nodes. *)
Definition undirected : Batch :=
  batch_of (full [1; 2; 3] 1%Z)
    (Tensor [1; 3; 3] (λ ix, (coord 1 ix + coord 2 ix)%Z))
    (Tensor [1; 2; 2] (λ ix, (coord 1 ix * coord 2 ix)%Z)).

(** A baseline bias without the row and column of the graph token. *)
Definition narrow : Batch :=
  batch_of (full [1; 2; 3] 1%Z) (full [1; 2; 2] 0%Z) (full [1; 2; 2] 1%Z).

(** One graph without a node, and a baseline bias without a row. *)
Definition nodeless : Batch :=
  batch_of (full [1; 0; 3] 1%Z) (full [1; 0; 0] 0%Z) (full [1; 0; 0] 1%Z).

End ZCases.

(** A model with every channel over binary32 floats, and a batch of one
    graph of two nodes whose path lengths, scores and out-degrees are
    float tensors. *)
Module ScoreExample.

#[local] Existing Instance Float32Backend.

(** The binary32 float nearest to [n / d]. *)
Definition ratio (n d : Z) : spec_float := SFdiv 24 128 (of_int n) (of_int d).

(** A two-by-two matrix and a vector of two, from their entries. *)
Definition matrix {A} (a b c d : A) : tensor A :=
  Tensor [1; 2; 2] (λ ix, nth (2 * nth 1 ix 0 + nth 2 ix 0) [a; b; c] d).

Definition vector {A} (a b : A) : tensor A :=
  Tensor [1; 2] (λ ix, nth (nth 1 ix 0) [a] b).

(** The weight of bucket [k] is [k], for every head. *)
Definition table (n d : nat) : Embedding :=
  {| num_embeddings := n; embedding_dim := d; padding_idx := Some 0;
     emb_weight := Tensor [n; d] (λ ix, of_int (coord 0 ix)) |}.

Definition model : Graphormer :=
  {| num_heads := 1; atom_encoder := ex_linear 1 1;
     len_shortest_path_encoder := table 40 1;
     num_shortest_path_encoder := None;
     undir_jac_encoder := Some (table 40 1);
     undir_aa_encoder := Some (table 40 1);
     in_degree_encoder := Some (table 64 1);
     out_degree_encoder := Some (table 64 1);
     input_dropout := ex_dropout; layers := []; final_ln := LayerNorm_init 1;
     graph_token := table 1 1;
     graph_token_virtual_distance := table 1 1;
     multi_hop_max_dist := 20; hidden_dim := 1;
     use_num_spd := false; use_cnb_jac := true; use_cnb_aa := true;
     use_degree := true |}.

(** Jaccard scores 0.7, 1, 2 and [jac]; Adamic-Adar scores 1.25,
    infinity, 0 and 3.95; path lengths 0, 1000, 2.5 and minus
    infinity. *)
Definition scores (jac : spec_float) : cell :=
  CellF (matrix (ratio 7 10) (of_int 1) (of_int 2) jac).

Definition batch_with (jac : spec_float) : Batch :=
  {| b_x := full [1; 2; 1] (of_int 1);
     b_attn_bias := full [1; 3; 3] (of_int 0);
     b_len_shortest_path :=
       CellF (matrix (of_int 0) (of_int 1000) (ratio 5 2) (S754_infinity true));
     b_in_degree := CellZ (vector 70%Z 5%Z);
     b_out_degree := CellF (vector (of_int (-3)) (ratio 5 2));
     b_num_shortest_path := None;
     b_undir_jac := Some (scores jac);
     b_undir_aa :=
       Some (CellF (matrix (ratio 5 4) (S754_infinity false) (of_int 0)
                      (ratio 395 100))) |}.

(** All scores are numbers. *)
Definition batch : Batch := batch_with (ratio (-1) 2).

(** One Jaccard score is a NaN. *)
Definition nan_batch : Batch := batch_with S754_nan.

Definition data : gmap string positive :=
  <["x" := 1%positive]> (<["edge_index" := 2%positive]>
  (<["attn_bias" := 3%positive]> (<["len_shortest_path" := 4%positive]>
  (<["in_degree" := 5%positive]> (<["out_degree" := 6%positive]>
  (<["undir_jac" := 7%positive]> (<["undir_aa" := 8%positive]> ∅))))))).

Definition state_of (b : Batch) : state :=
  State (<[1%positive := CellF (b_x b)]>
        (<[2%positive := CellZ (full [2; 1] 0%Z)]>
        (<[3%positive := CellF (b_attn_bias b)]>
        (<[4%positive := b_len_shortest_path b]>
        (<[5%positive := b_in_degree b]>
        (<[6%positive := b_out_degree b]>
        (<[7%positive := default (CellZ (full [] 0%Z)) (b_undir_jac b)]>
        (<[8%positive := default (CellZ (full [] 0%Z)) (b_undir_aa b)]> ∅))))))))
        (0 : Gen).

End ScoreExample.

Section Proofs.

Context {B : Backend}.

(** ** The monad: stepping through a run *)

Lemma wp_ret {A} (a : A) st (Q : state → A → Prop) :
  Q st a → wp (mret a) st Q.
Proof. intros H. exists st, a. split; [reflexivity | exact H]. Qed.

Lemma wp_bind {A C} (m : M A) (f : A → M C) st (Q : state → C → Prop) :
  wp m st (λ st1 a, wp (f a) st1 Q) → wp (m ≫= f) st Q.
Proof.
  intros (st1 & a & Hm & st2 & c & Hf & HQ).
  exists st2, c. split; [| exact HQ].
  unfold mbind, M_bind. rewrite Hm. exact Hf.
Qed.

Lemma wp_lift {A} (r : result A) (a : A) st (Q : state → A → Prop) :
  r = Ok a → Q st a → wp (lift r) st Q.
Proof. intros -> H. exists st, a. split; [reflexivity | exact H]. Qed.

Lemma wp_getattr data name l st (Q : state → positive → Prop) :
  data !! name = Some l → Q st l → wp (getattr data name) st Q.
Proof.
  intros H HQ. exists st, l. split; [| exact HQ].
  unfold getattr. rewrite H. reflexivity.
Qed.

Lemma wp_getattr_module {A} name (o : option A) a st (Q : state → A → Prop) :
  o = Some a → Q st a → wp (getattr_module name o) st Q.
Proof. intros -> HQ. exists st, a. split; [reflexivity | exact HQ]. Qed.

Lemma wp_load_F l t st (Q : state → tensor F → Prop) :
  heap st !! l = Some (CellF t) → Q st t → wp (load_F l) st Q.
Proof.
  intros H HQ. exists st, t. split; [| exact HQ].
  unfold load_F, load, mbind, M_bind. rewrite H. reflexivity.
Qed.

Lemma wp_load l c st (Q : state → cell → Prop) :
  heap st !! l = Some c → Q st c → wp (load l) st Q.
Proof.
  intros H HQ. exists st, c. split; [| exact HQ].
  unfold load. rewrite H. reflexivity.
Qed.

Lemma wp_alloc c st (Q : state → positive → Prop) :
  (∀ l, heap st !! l = None → Q (State (<[l:=c]> (heap st)) (rng st)) l) →
  wp (alloc c) st Q.
Proof.
  intros H. eexists _, _. split; [reflexivity |].
  apply H, not_elem_of_dom, is_fresh.
Qed.

Lemma wp_store l c st (Q : state → unit → Prop) :
  Q (State (<[l:=c]> (heap st)) (rng st)) tt → wp (store l c) st Q.
Proof. intros H. eexists _, _. split; [reflexivity | exact H]. Qed.

(** ** The frame of a computation *)

Lemma heap_pure_ret {A} (a : A) : heap_pure (mret a : M A).
Proof. intros st. reflexivity. Qed.

Lemma heap_pure_raise {A} e : heap_pure (raise e : M A).
Proof. intros st. reflexivity. Qed.

Lemma heap_pure_lift {A} (r : result A) : heap_pure (lift r).
Proof. intros st. reflexivity. Qed.

Lemma heap_pure_bind {A C} (m : M A) (f : A → M C) :
  heap_pure m → (∀ a, heap_pure (f a)) → heap_pure (m ≫= f).
Proof.
  intros Hm Hf st. unfold mbind, M_bind.
  specialize (Hm st). destruct (m st) as [st1 [a | e]]; simpl in *.
  - rewrite Hf. exact Hm.
  - exact Hm.
Qed.

Lemma heap_pure_getattr data name : heap_pure (getattr data name).
Proof. intros st. unfold getattr. destruct (data !! name); reflexivity. Qed.

Lemma heap_pure_getattr_module {A} name (o : option A) :
  heap_pure (getattr_module name o).
Proof. intros st. destruct o; reflexivity. Qed.

Lemma heap_pure_load l : heap_pure (load l).
Proof. intros st. unfold load. destruct (heap st !! l); reflexivity. Qed.

Lemma heap_pure_load_F l : heap_pure (load_F l).
Proof.
  apply heap_pure_bind; [apply heap_pure_load |].
  intros [t | t]; first [apply heap_pure_ret | apply heap_pure_raise].
Qed.

Lemma heap_pure_sample s : heap_pure (sample s).
Proof. intros st. unfold sample. destruct (sample_fn (rng st) s). reflexivity. Qed.

Lemma heap_pure_Dropout_forward d t : heap_pure (Dropout_forward d t).
Proof.
  intros st. unfold Dropout_forward. destruct (training d); [| reflexivity].
  destruct (dropout_mask (rng st) (drop_p d) (shape t)). reflexivity.
Qed.

Ltac heap_pure_step :=
  first
    [ apply heap_pure_ret | apply heap_pure_raise | apply heap_pure_lift
    | apply heap_pure_getattr | apply heap_pure_getattr_module
    | apply heap_pure_load_F | apply heap_pure_load
    | apply heap_pure_sample | apply heap_pure_Dropout_forward
    | apply heap_pure_bind; [| intros ?]
    | match goal with
      | |- heap_pure (if ?c then _ else _) => destruct c
      | |- heap_pure (match ?o with _ => _ end) => destruct o
      end ].

Lemma heap_pure_MultiHeadAttention_forward self q k v attn_bias :
  heap_pure (MultiHeadAttention_forward self q k v attn_bias).
Proof. unfold MultiHeadAttention_forward. repeat heap_pure_step. Qed.

Lemma heap_pure_EncoderLayer_forward self t attn_bias :
  heap_pure (EncoderLayer_forward self t attn_bias).
Proof.
  unfold EncoderLayer_forward.
  repeat first [apply heap_pure_MultiHeadAttention_forward | heap_pure_step].
Qed.

Lemma heap_pure_run_layers ls output bias : heap_pure (run_layers ls output bias).
Proof.
  revert output. induction ls as [| l ls IH]; intros output; simpl.
  - apply heap_pure_ret.
  - apply heap_pure_bind; [apply heap_pure_EncoderLayer_forward | intros t; apply IH].
Qed.

Lemma frames_heap_pure {A} D (m : M A) : heap_pure m → frames D m (λ _, True).
Proof. intros H st _. split; [intros l _; rewrite H; reflexivity | trivial]. Qed.

Lemma frames_weaken {A} D (m : M A) (Q Q' : A → Prop) :
  frames D m Q → (∀ a, Q a → Q' a) → frames D m Q'.
Proof.
  intros H HQ st HD. destruct (H st HD) as [H1 H2].
  split; [exact H1 | intros a Ha; apply HQ, H2, Ha].
Qed.

Lemma frames_bind {A C} D (m : M A) (f : A → M C) (Q : A → Prop) (R : C → Prop) :
  frames D m Q → (∀ a, Q a → frames D (f a) R) → frames D (m ≫= f) R.
Proof.
  intros Hm Hf st HD. destruct (Hm st HD) as [H1 H2].
  unfold mbind, M_bind. destruct (m st) as [st1 [a | e]] eqn:E; simpl in *.
  - assert (HD1 : D ⊆ dom (heap st1)).
    { intros l Hl. apply elem_of_dom. rewrite H1 by exact Hl.
      apply elem_of_dom, HD, Hl. }
    destruct (Hf a (H2 a eq_refl) st1 HD1) as [H3 H4].
    split; [| exact H4].
    intros l Hl. rewrite H3 by exact Hl. apply H1, Hl.
  - split; [exact H1 | intros a Ha; discriminate Ha].
Qed.

Lemma frames_alloc D c : frames D (alloc c) (λ l, l ∉ D).
Proof.
  intros st HD. simpl. split.
  - intros l Hl. apply lookup_insert_ne. intros <-.
    apply (is_fresh (dom (heap st))), HD, Hl.
  - intros a [= <-] Ha. apply (is_fresh (dom (heap st))), HD, Ha.
Qed.

Lemma frames_store D l c : l ∉ D → frames D (store l c) (λ _, True).
Proof.
  intros Hl st HD. simpl. split; [| trivial].
  intros l' Hl'. apply lookup_insert_ne. intros <-. exact (Hl Hl').
Qed.

Lemma frames_setitem_add D l sels v :
  l ∉ D → frames D (setitem_add l sels v) (λ _, True).
Proof.
  intros Hl. unfold setitem_add.
  eapply frames_bind; [apply frames_heap_pure, heap_pure_load_F | intros cur _].
  eapply frames_bind; [apply frames_heap_pure, heap_pure_lift | intros rhs _].
  eapply frames_bind; [apply frames_heap_pure, heap_pure_load_F | intros cur' _].
  eapply frames_bind; [apply frames_heap_pure, heap_pure_lift | intros new _].
  apply frames_store, Hl.
Qed.

Ltac frames_pure := apply frames_heap_pure; solve [repeat heap_pure_step].

Ltac frames_step :=
  lazymatch goal with
  | |- frames _ (mbind _ _) _ =>
      eapply frames_bind;
      [ first [ apply frames_alloc
              | apply frames_setitem_add; assumption
              | frames_pure ]
      | intros ? ? ]
  end.

Lemma frames_Graphormer_forward_bias D self data :
  frames D (Graphormer_forward_bias self data) (λ _, True).
Proof.
  unfold Graphormer_forward_bias.
  do 7 frames_step.
  eapply frames_bind; [frames_pure | intros [n_graph n_node] _].
  repeat frames_step.
  frames_pure.
Qed.

Lemma frames_Graphormer_forward D self data perturb :
  frames D (Graphormer_forward self data perturb) (λ _, True).
Proof.
  unfold Graphormer_forward.
  eapply frames_bind; [apply frames_Graphormer_forward_bias | intros loc _].
  do 6 frames_step.
  eapply frames_bind;
    [apply frames_heap_pure, heap_pure_run_layers | intros output _].
  repeat frames_step. frames_pure.
Qed.

(** ** Shapes and indices *)

Lemma broadcast_dim_refl n : broadcast_dim n n = Some n.
Proof. unfold broadcast_dim. rewrite Nat.eqb_refl. reflexivity. Qed.

Lemma broadcast_dim_1_r n : broadcast_dim n 1 = Some n.
Proof.
  unfold broadcast_dim. destruct (n =? 1) eqn:E; [| reflexivity].
  apply Nat.eqb_eq in E. subst. reflexivity.
Qed.

Lemma broadcast_dim_1_l n : broadcast_dim 1 n = Some n.
Proof.
  unfold broadcast_dim. destruct (1 =? n) eqn:E; [| reflexivity].
  apply Nat.eqb_eq in E. subst. reflexivity.
Qed.

Lemma expand_dim_lt n i : i < n → expand_dim n i = i.
Proof.
  intros H. unfold expand_dim. destruct (n =? 1) eqn:E; [| reflexivity].
  apply Nat.eqb_eq in E. lia.
Qed.

Lemma expand_dim_1 i : expand_dim 1 i = 0.
Proof. reflexivity. Qed.

Lemma broadcast_rev_refl s : broadcast_rev s s = Some s.
Proof.
  induction s as [| n s IH]; [reflexivity |].
  simpl. rewrite broadcast_dim_refl. simpl. rewrite IH. reflexivity.
Qed.

Lemma broadcast_shapes_refl s : broadcast_shapes s s = Some s.
Proof.
  unfold broadcast_shapes. rewrite broadcast_rev_refl. simpl.
  rewrite reverse_involutive. reflexivity.
Qed.

Lemma zip_expand_dim_same s ix : in_bounds ix s → zip_with expand_dim s ix = ix.
Proof.
  induction 1 as [| i n ix s Hi _ IH]; [reflexivity |].
  simpl. rewrite expand_dim_lt by exact Hi. rewrite IH. reflexivity.
Qed.

Lemma expand_index_same s ix : in_bounds ix s → expand_index s ix = ix.
Proof.
  intros H. unfold expand_index.
  rewrite (Forall2_length _ _ _ H), Nat.sub_diag. simpl.
  apply zip_expand_dim_same, H.
Qed.

Lemma in_bounds_4 g h i j G H N M :
  g < G → h < H → i < N → j < M → in_bounds [g; h; i; j] [G; H; N; M].
Proof. intros. repeat constructor; assumption. Qed.

(** ** Clamping *)

Lemma clampZ_range lo hi z : (lo ≤ hi)%Z → (lo ≤ clampZ lo hi z ≤ hi)%Z.
Proof. unfold clampZ. lia. Qed.

Lemma clampZ_in_range lo hi z : (lo ≤ z ≤ hi)%Z → clampZ lo hi z = z.
Proof. unfold clampZ. lia. Qed.

Lemma clampZ_above lo hi z : (lo ≤ hi < z)%Z → clampZ lo hi z = hi.
Proof. unfold clampZ. lia. Qed.

Lemma clampZ_below lo hi z : (z < lo ≤ hi)%Z → clampZ lo hi z = lo.
Proof. unfold clampZ. lia. Qed.

Lemma Qle_bool_true x y : Qle_bool x y = true → (x <= y)%Q.
Proof. apply Qle_bool_iff. Qed.

Lemma Qle_bool_false x y : Qle_bool x y = false → (y < x)%Q.
Proof.
  intros H. apply Qnot_le_lt. intros Hle.
  apply Qle_bool_iff in Hle. congruence.
Qed.

Lemma clampQ_range lo hi x :
  (lo ≤ hi)%Z →
  (inject_Z lo <= clampQ (inject_Z lo) (inject_Z hi) x <= inject_Z hi)%Q.
Proof.
  intros Hlh. unfold clampQ.
  assert (Hq : (inject_Z lo <= inject_Z hi)%Q) by (rewrite <- Zle_Qle; exact Hlh).
  destruct (Qle_bool x (inject_Z lo)) eqn:E1.
  - destruct (Qle_bool (inject_Z hi) (inject_Z lo)) eqn:E2.
    + split; [exact Hq | apply Qle_refl].
    + split; [apply Qle_refl | exact Hq].
  - apply Qle_bool_false in E1.
    destruct (Qle_bool (inject_Z hi) x) eqn:E2.
    + split; [exact Hq | apply Qle_refl].
    + apply Qle_bool_false in E2.
      split; apply Qlt_le_weak; assumption.
Qed.

(** Truncation keeps a score between two integers between them. *)
Lemma truncQ_range lo hi x :
  (0 ≤ lo)%Z → (inject_Z lo <= x <= inject_Z hi)%Q → (lo ≤ truncQ x ≤ hi)%Z.
Proof.
  intros Hlo [H1 H2]. unfold truncQ.
  destruct x as [n d]. unfold Qle, inject_Z in *. simpl in *.
  assert (Hn : (0 ≤ n)%Z) by nia.
  rewrite Z.quot_div_nonneg by lia.
  split.
  - apply Z.div_le_lower_bound; lia.
  - apply Z.div_le_upper_bound; lia.
Qed.

Lemma truncQ_inject_Z z : truncQ (inject_Z z) = z.
Proof. unfold truncQ, inject_Z. simpl. apply Z.quot_1_r. Qed.

Lemma truncQ_floor x : (0 <= x)%Q → truncQ x = Qfloor x.
Proof.
  intros H. destruct x as [n d]. unfold truncQ, Qfloor, Qle in *. simpl in *.
  apply Z.quot_div_nonneg; lia.
Qed.

(** Clamping a score between two non-negative integers and truncating
    it is rounding it down and clamping the integer. *)
Lemma trunc_clamp_floor lo hi x :
  (0 ≤ lo ≤ hi)%Z →
  truncQ (clampQ (inject_Z lo) (inject_Z hi) x) = clampZ lo hi (Qfloor x).
Proof.
  intros [H0 Hlh]. unfold clampQ, clampZ.
  destruct (Qle_bool x (inject_Z lo)) eqn:E1.
  - apply Qle_bool_true in E1.
    assert (Hf : (Qfloor x ≤ lo)%Z).
    { rewrite <- (Qfloor_Z lo). apply Qfloor_resp_le, E1. }
    destruct (Qle_bool (inject_Z hi) (inject_Z lo)) eqn:E2.
    + apply Qle_bool_true in E2. rewrite <- Zle_Qle in E2.
      rewrite truncQ_inject_Z. lia.
    + rewrite truncQ_inject_Z. lia.
  - apply Qle_bool_false in E1.
    assert (Hf : (lo ≤ Qfloor x)%Z).
    { rewrite <- (Qfloor_Z lo). apply Qfloor_resp_le, Qlt_le_weak, E1. }
    destruct (Qle_bool (inject_Z hi) x) eqn:E2.
    + apply Qle_bool_true in E2.
      assert (Hg : (hi ≤ Qfloor x)%Z).
      { rewrite <- (Qfloor_Z hi). apply Qfloor_resp_le, E2. }
      rewrite truncQ_inject_Z. lia.
    + apply Qle_bool_false in E2.
      assert (Hg : (Qfloor x < hi)%Z).
      { rewrite Zlt_Qlt. eapply Qle_lt_trans; [apply Qfloor_le | exact E2]. }
      rewrite truncQ_floor.
      * lia.
      * apply Qlt_le_weak. eapply Qle_lt_trans; [| exact E1].
        change (inject_Z 0 <= inject_Z lo)%Q. rewrite <- Zle_Qle. exact H0.
Qed.

Lemma clampZ_monotone lo hi x y : (x ≤ y)%Z → (clampZ lo hi x ≤ clampZ lo hi y)%Z.
Proof. unfold clampZ. lia. Qed.

(** A number between two indices is converted to the integer it
    truncates to. *)
Lemma long_val_trunc lo hi q :
  (0 ≤ lo)%Z → (hi < 2 ^ 63)%Z → (inject_Z lo <= q <= inject_Z hi)%Q →
  long_val (FFin q) = truncQ q.
Proof.
  intros H0 H1 Hq. pose proof (truncQ_range lo hi q H0 Hq) as Hr.
  unfold long_val, int64_min.
  replace (_ && _) with true; [reflexivity |].
  symmetry. apply andb_true_intro. split; lia.
Qed.

Lemma long_clamp_val_range lo hi v :
  (0 ≤ lo ≤ hi)%Z → (hi < 2 ^ 63)%Z → is_nan v = false →
  (lo ≤ long_val (clamp_val lo hi v) ≤ hi)%Z.
Proof.
  intros [H0 H1] H2 Hv.
  assert (Hq : (inject_Z lo <= inject_Z hi)%Q) by (rewrite <- Zle_Qle; exact H1).
  assert (Hc : ∀ q, (inject_Z lo <= q <= inject_Z hi)%Q →
                    (lo ≤ long_val (FFin q) ≤ hi)%Z).
  { intros q Hq'. rewrite (long_val_trunc lo hi q H0 H2 Hq').
    apply truncQ_range; assumption. }
  destruct v as [| [|] | q]; [discriminate Hv | | |]; simpl clamp_val.
  - apply Hc, clampQ_range, H1.
  - apply Hc. split; [exact Hq | apply Qle_refl].
  - apply Hc, clampQ_range, H1.
Qed.

Lemma shape_clamp_long lo hi c : shape (clamp_long lo hi c) = cell_shape c.
Proof. destruct c; reflexivity. Qed.

Lemma clamp_long_range lo hi c ix :
  (0 ≤ lo ≤ hi)%Z → (hi < 2 ^ 63)%Z → numeric_at c ix = true →
  (lo ≤ entry (clamp_long lo hi c) ix ≤ hi)%Z.
Proof.
  intros H0 H1 Hn. destruct c as [t | t]; simpl.
  - apply long_clamp_val_range; [exact H0 | exact H1 |].
    simpl in Hn. apply negb_true_iff, Hn.
  - apply clampZ_range. lia.
Qed.

Lemma in_indices s ix : in_bounds ix s → In ix (indices s).
Proof.
  induction 1 as [| i n ix s Hi _ IH]; simpl; [left; reflexivity |].
  apply in_flat_map. exists i. split; [apply in_seq; lia | apply in_map, IH].
Qed.

Lemma indices_in_bounds s ix : In ix (indices s) → in_bounds ix s.
Proof.
  revert ix. induction s as [| n s IH]; simpl; intros ix H.
  - destruct H as [<- | []]. constructor.
  - apply in_flat_map in H as (i & Hi & H).
    apply in_map_iff in H as (jx & <- & Hj).
    constructor; [apply in_seq in Hi; lia | apply IH, Hj].
Qed.

Lemma numeric_in_bounds c ix :
  numeric c = true → in_bounds ix (cell_shape c) → numeric_at c ix = true.
Proof.
  intros H Hb. unfold numeric in H.
  rewrite forallb_forall in H. apply H, in_indices, Hb.
Qed.

Lemma index_tensor_inv c s :
  index_tensor c s = true →
  cell_shape c = s ∧ ∀ ix, in_bounds ix s → numeric_at c ix = true.
Proof.
  intros H. apply andb_prop in H as [Hs Hn].
  apply bool_decide_eq_true in Hs. split; [exact Hs |].
  intros ix Hb. apply numeric_in_bounds; [exact Hn | rewrite Hs; exact Hb].
Qed.

Lemma index_ok_range n z : (0 ≤ z < Z.of_nat n)%Z → index_ok n z = true.
Proof. intros H. unfold index_ok. apply andb_true_intro. split; lia. Qed.

(** ** Table lookup *)

Lemma Embedding_forward_ok e t :
  (∀ ix, in_bounds ix (shape t) → index_ok (num_embeddings e) (entry t ix) = true) →
  Embedding_forward e t =
    Ok (Tensor (shape t ++ [embedding_dim e])
          (λ ix, entry (emb_weight e)
                   [Z.to_nat (entry t (removelast ix)); last_index ix])).
Proof.
  intros H. unfold Embedding_forward.
  replace (forallb _ _) with true; [reflexivity |].
  symmetry. apply forallb_forall. intros ix Hin. apply H, indices_in_bounds, Hin.
Qed.

Lemma encode_spec e t G N :
  (∀ ix, in_bounds ix (shape t) → index_ok (num_embeddings e) (entry t ix) = true) →
  shape t = [G; N; N] →
  ∃ r, encode e t = Ok r
       ∧ shape r = [G; embedding_dim e; N; N]
       ∧ ∀ g h i j, entry r [g; h; i; j]
                    = entry (emb_weight e) [Z.to_nat (entry t [g; i; j]); h].
Proof.
  intros Hok Hs. unfold encode. rewrite Embedding_forward_ok by exact Hok.
  rewrite Hs. eexists. split; [reflexivity |]. split; reflexivity.
Qed.

(** ** The tensor steps of the attention bias *)

Ltac broadcast_shapes_eq :=
  unfold broadcast_shapes; simpl;
  repeat (first [ rewrite broadcast_dim_refl | rewrite broadcast_dim_1_r
                | rewrite broadcast_dim_1_l ]; simpl);
  reflexivity.

Ltac expand_dims :=
  repeat first
    [ rewrite expand_dim_1
    | match goal with
      | |- context [expand_dim ?n ?i] =>
          is_var i; rewrite (expand_dim_lt n i) by lia
      end ].

Lemma add_same_shape (t u : tensor F) s :
  shape t = s → shape u = s →
  ∃ r, add t u = Ok r ∧ shape r = s
       ∧ ∀ ix, in_bounds ix s → entry r ix = fadd (entry t ix) (entry u ix).
Proof.
  intros Ht Hu. unfold add, broadcast2.
  rewrite Ht, Hu, broadcast_shapes_refl.
  eexists. split; [reflexivity |]. split; [reflexivity |].
  intros ix Hix. simpl. rewrite expand_index_same by exact Hix. reflexivity.
Qed.

(** [attn_bias.clone().unsqueeze(1).repeat(1, num_heads, 1, 1)] *)
Lemma repeat_heads_spec (c : tensor F) G H N :
  shape c = [G; N; N] →
  ∃ r, (unsqueeze 1 c ≫= repeat_tensor [1; H; 1; 1]) = Ok r
       ∧ shape r = [G; H; N; N]
       ∧ ∀ g h i j, g < G → i < N → j < N →
           entry r [g; h; i; j] = entry c [g; i; j].
Proof.
  intros Hs. destruct c as [s f]. simpl in Hs. subst s.
  eexists. split; [reflexivity |]. split.
  - simpl. rewrite !Nat.mul_1_r, Nat.add_0_r. reflexivity.
  - intros g h i j Hg Hi Hj. simpl.
    rewrite !Nat.mod_small by assumption. reflexivity.
Qed.

(** [graph_attn_bias[:, :, 1:, 1:] = graph_attn_bias[:, :, 1:, 1:] + v] *)
Lemma block_update_spec (cur v : tensor F) G H N :
  shape cur = [G; H; S N; S N] → shape v = [G; H; N; N] →
  ∃ rhs new,
    (getitem [All; All; From 1; From 1] cur ≫= λ s, add s v) = Ok rhs
    ∧ setitem [All; All; From 1; From 1] cur rhs = Ok new
    ∧ shape new = [G; H; S N; S N]
    ∧ ∀ g h i j, g < G → h < H → i < S N → j < S N →
        entry new [g; h; i; j] =
          match i, j with
          | S i', S j' => fadd (entry cur [g; h; i; j]) (entry v [g; h; i'; j'])
          | _, _ => entry cur [g; h; i; j]
          end.
Proof.
  intros Hc Hv. destruct cur as [sc fc], v as [sv fv]. simpl in Hc, Hv. subst.
  unfold getitem, setitem, add, broadcast2, expandable. simpl.
  rewrite !Nat.sub_0_r.
  eexists _, _. split; [rewrite broadcast_shapes_refl; reflexivity |].
  simpl. rewrite broadcast_shapes_refl.
  rewrite bool_decide_eq_true_2 by reflexivity.
  split; [reflexivity |]. split; [reflexivity |].
  intros g h i j Hg Hh Hi Hj. simpl.
  destruct i as [| i]; [reflexivity |].
  destruct j as [| j]; [reflexivity |].
  simpl. rewrite !Nat.sub_0_r.
  rewrite !(expand_index_same [G; H; N; N] [g; h; i; j])
    by (apply in_bounds_4; lia).
  expand_dims. reflexivity.
Qed.

(** [self.graph_token_virtual_distance.weight.view(1, num_heads, 1)] *)
Lemma view_heads_spec (w : tensor F) H :
  shape w = [1; H] →
  ∃ t, view [Some 1; Some H; Some 1] w = Ok t
       ∧ shape t = [1; H; 1]
       ∧ ∀ h, h < H → entry t [0; h; 0] = entry w [0; h].
Proof.
  intros Hs. destruct w as [s f]. simpl in Hs. subst s.
  unfold view, infer_size. simpl.
  rewrite !Nat.mul_1_r, !Nat.add_0_r, Nat.eqb_refl. simpl.
  eexists. split; [reflexivity |]. split; [reflexivity |].
  intros h Hh. simpl.
  rewrite !Nat.mul_1_r, !Nat.add_0_r.
  rewrite Nat.div_small, Nat.mod_small by exact Hh.
  change (Nat.divmod h 0 0 0).1 with (h / 1). rewrite Nat.div_1_r. reflexivity.
Qed.

(** [graph_attn_bias[:, :, 1:, 0] = graph_attn_bias[:, :, 1:, 0] + t] *)
Lemma column_update_spec (cur t : tensor F) G H N :
  shape cur = [G; H; S N; S N] → shape t = [1; H; 1] →
  ∃ rhs new,
    (getitem [All; All; From 1; At 0] cur ≫= λ s, add s t) = Ok rhs
    ∧ setitem [All; All; From 1; At 0] cur rhs = Ok new
    ∧ shape new = [G; H; S N; S N]
    ∧ ∀ g h i j, g < G → h < H → i < S N → j < S N →
        entry new [g; h; i; j] =
          match i, j with
          | S _, 0 => fadd (entry cur [g; h; i; j]) (entry t [0; h; 0])
          | _, _ => entry cur [g; h; i; j]
          end.
Proof.
  intros Hc Ht. destruct cur as [sc fc], t as [st ft]. simpl in Hc, Ht. subst.
  assert (Hb : broadcast_shapes [G; H; N] [1; H; 1] = Some [G; H; N]).
  { broadcast_shapes_eq. }
  unfold getitem, setitem, add, broadcast2, expandable. simpl.
  rewrite !Nat.sub_0_r.
  eexists _, _. split; [rewrite Hb; reflexivity |].
  simpl. rewrite broadcast_shapes_refl.
  rewrite bool_decide_eq_true_2 by reflexivity.
  split; [reflexivity |]. split; [reflexivity |].
  intros g h i j Hg Hh Hi Hj. simpl.
  destruct i as [| i]; [reflexivity |].
  destruct j as [| j]; [| reflexivity].
  simpl. rewrite !Nat.sub_0_r.
  unfold expand_index. simpl.
  expand_dims. reflexivity.
Qed.

(** [graph_attn_bias[:, :, 0, :] = graph_attn_bias[:, :, 0, :] + t] *)
Lemma row_update_spec (cur t : tensor F) G H N :
  shape cur = [G; H; S N; S N] → shape t = [1; H; 1] →
  ∃ rhs new,
    (getitem [All; All; At 0; All] cur ≫= λ s, add s t) = Ok rhs
    ∧ setitem [All; All; At 0; All] cur rhs = Ok new
    ∧ shape new = [G; H; S N; S N]
    ∧ ∀ g h i j, g < G → h < H → i < S N → j < S N →
        entry new [g; h; i; j] =
          match i with
          | 0 => fadd (entry cur [g; h; i; j]) (entry t [0; h; 0])
          | S _ => entry cur [g; h; i; j]
          end.
Proof.
  intros Hc Ht. destruct cur as [sc fc], t as [st ft]. simpl in Hc, Ht. subst.
  assert (Hb : broadcast_shapes [G; H; S N] [1; H; 1] = Some [G; H; S N]).
  { broadcast_shapes_eq. }
  unfold getitem, setitem, add, broadcast2, expandable. simpl.
  eexists _, _. split; [rewrite Hb; reflexivity |].
  simpl. rewrite broadcast_shapes_refl.
  rewrite bool_decide_eq_true_2 by reflexivity.
  split; [reflexivity |]. split; [reflexivity |].
  intros g h i j Hg Hh Hi Hj. simpl.
  destruct i as [| i]; [| reflexivity].
  simpl. unfold expand_index. simpl.
  expand_dims. reflexivity.
Qed.

(** [graph_attn_bias + attn_bias.unsqueeze(1)] *)
Lemma add_baseline_spec (cur b : tensor F) G H N :
  shape cur = [G; H; N; N] → shape b = [G; N; N] →
  ∃ r, (unsqueeze 1 b ≫= add cur) = Ok r
       ∧ shape r = [G; H; N; N]
       ∧ ∀ g h i j, g < G → h < H → i < N → j < N →
           entry r [g; h; i; j] = fadd (entry cur [g; h; i; j]) (entry b [g; i; j]).
Proof.
  intros Hc Hb. destruct cur as [sc fc], b as [sb fb]. simpl in Hc, Hb. subst.
  assert (Hs : broadcast_shapes [G; H; N; N] [G; 1; N; N] = Some [G; H; N; N]).
  { broadcast_shapes_eq. }
  unfold add, broadcast2. simpl. rewrite Hs.
  eexists. split; [reflexivity |]. split; [reflexivity |].
  intros g h i j Hg Hh Hi Hj. simpl.
  unfold expand_index. simpl.
  expand_dims. reflexivity.
Qed.

(** ** Reading the batch in a later state *)

Lemma extends_refl st : extends st st.
Proof. intros l c H. exact H. Qed.

Lemma extends_insert st0 h g l c :
  extends st0 (State h g) → heap st0 !! l = None →
  extends st0 (State (<[l:=c]> h) g).
Proof.
  intros He Hl l' c' H'. simpl.
  rewrite lookup_insert_ne by congruence. apply (He l' c' H').
Qed.

Lemma has_attr_extends data st0 st name c :
  extends st0 st → has_attr data st0 name c → has_attr data st name c.
Proof. intros He (l & Hd & Hh). exists l. split; [exact Hd | apply He, Hh]. Qed.

Lemma has_opt_extends data st0 st name o :
  extends st0 st → has_opt data st0 name o → has_opt data st name o.
Proof. intros He. destruct o; simpl; [apply has_attr_extends, He | trivial]. Qed.

Lemma wp_read_F data name t st (Q : state → tensor F → Prop) :
  has_attr data st name (CellF t) → Q st t →
  wp (l ← getattr data name; load_F l) st Q.
Proof.
  intros (l & Hd & Hh) HQ.
  apply wp_bind, wp_getattr with l; [exact Hd |].
  apply wp_load_F with t; assumption.
Qed.

Lemma wp_read data name c st (Q : state → cell → Prop) :
  has_attr data st name c → Q st c →
  wp (l ← getattr data name; load l) st Q.
Proof.
  intros (l & Hd & Hh) HQ.
  apply wp_bind, wp_getattr with l; [exact Hd |].
  apply wp_load with c; assumption.
Qed.

(** [torch.clamp(data.name, min=lo, max=hi).long()] *)
Lemma wp_read_clamp data name lo hi c st (Q : state → tensor Z → Prop) :
  has_attr data st name c → Q st (clamp_long lo hi c) →
  wp (l ← getattr data name; c ← load l; mret (clamp_long lo hi c)) st Q.
Proof.
  intros (l & Hd & Hh) HQ.
  apply wp_bind, wp_getattr with l; [exact Hd |].
  apply wp_bind, wp_load with c; [exact Hh |].
  apply wp_ret, HQ.
Qed.

Lemma wp_setitem_add l sels v cur rhs new st (Q : state → unit → Prop) :
  heap st !! l = Some (CellF cur) →
  (getitem sels cur ≫= λ s, add s v) = Ok rhs →
  setitem sels cur rhs = Ok new →
  Q (State (<[l:=CellF new]> (heap st)) (rng st)) tt →
  wp (setitem_add l sels v) st Q.
Proof.
  intros Hl Hrhs Hnew HQ. unfold setitem_add.
  apply wp_bind, wp_load_F with cur; [exact Hl |].
  apply wp_bind, wp_lift with rhs; [exact Hrhs |].
  apply wp_bind, wp_load_F with cur; [exact Hl |].
  apply wp_bind, wp_lift with new; [exact Hnew |].
  apply wp_store, HQ.
Qed.

(** ** The optional channels *)

Lemma clamp_long_index_ok hi n c ix :
  (0 ≤ hi < Z.of_nat n)%Z → (hi < 2 ^ 63)%Z → numeric_at c ix = true →
  index_ok n (entry (clamp_long 0 hi c) ix) = true.
Proof.
  intros H H' Hn. apply index_ok_range.
  assert (H0 : (0 ≤ 0 ≤ hi)%Z) by lia.
  pose proof (clamp_long_range 0 hi c ix H0 H' Hn). lia.
Qed.

(** The indices of a well-formed structural matrix are rows of a table
    with more than [hi] rows. *)
Lemma clamp_long_rows hi n c s :
  (0 ≤ hi < Z.of_nat n)%Z → (hi < 2 ^ 63)%Z → index_tensor c s = true →
  ∀ ix, in_bounds ix (shape (clamp_long 0 hi c)) →
        index_ok n (entry (clamp_long 0 hi c) ix) = true.
Proof.
  intros H H' Hc ix Hb. apply index_tensor_inv in Hc as [Hs Hn].
  rewrite shape_clamp_long, Hs in Hb.
  apply clamp_long_index_ok; [exact H | exact H' | apply Hn, Hb].
Qed.

(** Adding the weights of one more table to the structural sum. *)
Lemma add_channel_spec e (index : tensor Z) (sp : tensor F) G H N :
  table_ok 40 H e = true →
  (∀ ix, in_bounds ix (shape index) → index_ok 40 (entry index ix) = true) →
  shape index = [G; N; N] → shape sp = [G; H; N; N] →
  ∃ r, (encode e index ≫= add sp) = Ok r
       ∧ shape r = [G; H; N; N]
       ∧ ∀ g h i j, g < G → h < H → i < N → j < N →
           entry r [g; h; i; j]
           = fadd (entry sp [g; h; i; j]) (bucket_weight e (entry index [g; i; j]) h).
Proof.
  intros Ht Hok Hi Hs.
  apply andb_prop in Ht as [Hn Hd].
  apply Nat.eqb_eq in Hn, Hd.
  destruct (encode_spec e index G N) as (r & Hr & Hrs & Hre);
    [rewrite Hn; exact Hok | exact Hi |].
  rewrite Hd in Hrs.
  destruct (add_same_shape sp r _ Hs Hrs) as (r' & Hr' & Hrs' & Hre').
  exists r'. split; [rewrite Hr; exact Hr' |]. split; [exact Hrs' |].
  intros g h i j Hg Hh Hi' Hj.
  rewrite Hre' by (apply in_bounds_4; assumption).
  rewrite Hre. reflexivity.
Qed.

Lemma wp_channel_Z (flag : bool) name mname (eo : option Embedding)
  (o : option cell) data st (sp : tensor F) G H N
  (Q : state → tensor F → Prop) :
  opt_table flag 40 H eo = true →
  opt_index flag o [G; N; N] = true →
  has_opt data st name o →
  shape sp = [G; H; N; N] →
  (∀ sp', shape sp' = [G; H; N; N] →
     (∀ g h i j, g < G → h < H → i < N → j < N →
        entry sp' [g; h; i; j]
        = channel_term flag eo (clamp_long 0 39 <$> o) g h i j
            (entry sp [g; h; i; j])) →
     Q st sp') →
  wp (if flag then
        num_shortest_path ← (l ← getattr data name; c ← load l;
                             mret (clamp_long 0 39 c));
        enc ← getattr_module mname eo;
        lift (encode enc num_shortest_path ≫= add sp)
      else mret sp) st Q.
Proof.
  intros Ht Ho Hd Hs HQ. destruct flag.
  - simpl in Ht, Ho. destruct eo as [e |]; [| discriminate].
    destruct o as [c |]; [| discriminate].
    simpl in Hd.
    destruct (add_channel_spec e (clamp_long 0 39 c) sp G H N) as (r & Hr & Hrs & Hre);
      [exact Ht | apply clamp_long_rows with [G; N; N]; [lia | lia | exact Ho]
      | rewrite shape_clamp_long; apply index_tensor_inv in Ho as [Ho _]; exact Ho
      | exact Hs |].
    apply wp_bind, wp_read_clamp with c; [exact Hd |].
    apply wp_bind, wp_getattr_module with e; [reflexivity |].
    apply wp_lift with r; [exact Hr |].
    apply HQ; [exact Hrs | exact Hre].
  - apply wp_ret, HQ; [exact Hs | reflexivity].
Qed.

Lemma wp_channel_score (flag : bool) name mname (eo : option Embedding) (k : Z)
  (o : option cell) data st (sp : tensor F) G H N
  (Q : state → tensor F → Prop) :
  opt_table flag 40 H eo = true →
  opt_index flag ((λ c, mul_scalar c k) <$> o) [G; N; N] = true →
  has_opt data st name o →
  shape sp = [G; H; N; N] →
  (∀ sp', shape sp' = [G; H; N; N] →
     (∀ g h i j, g < G → h < H → i < N → j < N →
        entry sp' [g; h; i; j]
        = channel_term flag eo ((λ c, clamp_long 0 39 (mul_scalar c k)) <$> o)
            g h i j (entry sp [g; h; i; j])) →
     Q st sp') →
  wp (if flag then
        score ← (l ← getattr data name; load l);
        let score_enc := clamp_long 0 39 (mul_scalar score k) in
        enc ← getattr_module mname eo;
        lift (encode enc score_enc ≫= add sp)
      else mret sp) st Q.
Proof.
  intros Ht Ho Hd Hs HQ. destruct flag.
  - simpl in Ht, Ho. destruct eo as [e |]; [| discriminate].
    destruct o as [c |]; [| discriminate].
    simpl in Hd, Ho.
    destruct (add_channel_spec e (clamp_long 0 39 (mul_scalar c k)) sp G H N)
      as (r & Hr & Hrs & Hre);
      [exact Ht | apply clamp_long_rows with [G; N; N]; [lia | lia | exact Ho]
      | rewrite shape_clamp_long; apply index_tensor_inv in Ho as [Ho _]; exact Ho
      | exact Hs |].
    apply wp_bind, wp_read with c; [exact Hd |].
    apply wp_bind, wp_getattr_module with e; [reflexivity |].
    apply wp_lift with r; [exact Hr |].
    apply HQ; [exact Hrs | exact Hre].
  - apply wp_ret, HQ; [exact Hs | reflexivity].
Qed.

(** ** Lines 203-241, run on a well-formed batch *)

Lemma forward_bias_spec self data st b G N :
  bias_tables self = true →
  batch_shapes self b G N = true →
  holds data st b →
  wp (Graphormer_forward_bias self data) st (λ st' loc,
    extends st st'
    ∧ rng st' = rng st
    ∧ loc_in_degree loc = clamp_long 0 63 (b_in_degree b)
    ∧ loc_out_degree loc = clamp_long 0 63 (b_out_degree b)
    ∧ shape (loc_graph_attn_bias loc) = [G; num_heads self; S N; S N]
    ∧ ∀ g h i j, g < G → h < num_heads self → i < S N → j < S N →
        entry (loc_graph_attn_bias loc) [g; h; i; j]
        = fadd (fadd (baseline b g i j) (added_term self b g h i j))
               (baseline b g i j)).
Proof.
  intros Ht Hs Hh.
  unfold bias_tables in Ht.
  apply andb_prop in Ht as [Ht Hvd]. apply andb_prop in Ht as [Ht Taa].
  apply andb_prop in Ht as [Ht Tjac]. apply andb_prop in Ht as [Tlsp Tnsp].
  apply bool_decide_eq_true in Hvd.
  unfold batch_shapes in Hs.
  apply andb_prop in Hs as [Hs Saa]. apply andb_prop in Hs as [Hs Sjac].
  apply andb_prop in Hs as [Hs Snsp]. apply andb_prop in Hs as [Hs Slsp].
  apply andb_prop in Hs as [Sx Sb].
  apply bool_decide_eq_true in Sb. apply Nat.leb_le in Sx.
  destruct Hh as ((lx & Dx & Hx) & [le De] & (lb & Db & Hb) & Hlsp & Hin & Hout
                  & Hnsp & Hjac & Haa).
  set (H := num_heads self) in *.
  unfold Graphormer_forward_bias.
  apply wp_bind, wp_getattr with lx; [exact Dx |].
  apply wp_bind, wp_getattr with le; [exact De |].
  apply wp_bind, wp_getattr with lb; [exact Db |].
  apply wp_bind, wp_read_clamp with (b_len_shortest_path b); [exact Hlsp |].
  apply wp_bind, wp_read_clamp with (b_in_degree b); [exact Hin |].
  apply wp_bind, wp_read_clamp with (b_out_degree b); [exact Hout |].
  apply wp_bind, wp_load_F with (b_x b); [exact Hx |].
  destruct (shape (b_x b)) as [| g0 [| n0 rest]] eqn:Ex; simpl in Sx; try lia.
  apply wp_bind, wp_lift with (g0, n0); [unfold size2; rewrite Ex; reflexivity |].
  apply wp_bind, wp_load_F with (b_attn_bias b); [exact Hb |].
  apply wp_bind, wp_alloc. intros lc Hlc.
  apply wp_bind, wp_load_F with (b_attn_bias b); [apply lookup_insert_eq |].
  destruct (repeat_heads_spec (b_attn_bias b) G H (S N) Sb) as (r & Hr & Hrs & Hre).
  apply wp_bind, wp_lift with r; [exact Hr |].
  apply wp_bind, wp_alloc. intros lg Hlg. simpl in Hlg.
  assert (Hlg0 : heap st !! lg = None).
  { destruct (decide (lg = lc)) as [-> | Hne]; [exact Hlc |].
    rewrite lookup_insert_ne in Hlg by congruence. exact Hlg. }
  assert (E1 : extends st (State (<[lg:=CellF r]>
                                    (<[lc:=CellF (b_attn_bias b)]> (heap st)))
                                 (rng st))).
  { do 2 (apply extends_insert; [| assumption]).
    destruct st. apply extends_refl. }
  (* the structural sum *)
  destruct (encode_spec (len_shortest_path_encoder self) (spd_index b) G N)
    as (sp0 & Hsp0 & Ss0 & Es0).
  { apply andb_prop in Tlsp as [Hn _]. apply Nat.eqb_eq in Hn. rewrite Hn.
    apply clamp_long_rows with [G; N; N]; [lia | lia | exact Slsp]. }
  { unfold spd_index. rewrite shape_clamp_long.
    apply index_tensor_inv in Slsp as [Slsp _]. exact Slsp. }
  apply andb_prop in Tlsp as [_ Hd]. apply Nat.eqb_eq in Hd. rewrite Hd in Ss0.
  apply wp_bind, wp_lift with sp0; [exact Hsp0 |].
  apply wp_bind.
  apply wp_channel_Z with (G := G) (H := H) (N := N) (o := b_num_shortest_path b);
    [exact Tnsp | exact Snsp | exact (has_opt_extends _ _ _ _ _ E1 Hnsp)
    | exact Ss0 |].
  intros sp1 Ss1 Es1.
  apply wp_bind.
  apply (wp_channel_score _ _ _ _ 30 (b_undir_jac b)) with (G := G) (H := H) (N := N);
    [exact Tjac | exact Sjac | exact (has_opt_extends _ _ _ _ _ E1 Hjac)
    | exact Ss1 |].
  intros sp2 Ss2 Es2.
  apply wp_bind.
  apply (wp_channel_score _ _ _ _ 10 (b_undir_aa b)) with (G := G) (H := H) (N := N);
    [exact Taa | exact Saa | exact (has_opt_extends _ _ _ _ _ E1 Haa)
    | exact Ss2 |].
  intros sp3 Ss3 Es3.
  (* the three assignments *)
  destruct (block_update_spec r sp3 G H N Hrs Ss3) as (rhs1 & n1 & R1 & W1 & S1 & N1).
  apply wp_bind, wp_setitem_add with r rhs1 n1;
    [apply lookup_insert_eq | exact R1 | exact W1 |].
  destruct (view_heads_spec _ H Hvd) as (t & Vt & St & Et).
  apply wp_bind, wp_lift with t; [exact Vt |].
  destruct (column_update_spec n1 t G H N S1 St) as (rhs2 & n2 & R2 & W2 & S2 & N2).
  apply wp_bind, wp_setitem_add with n1 rhs2 n2;
    [apply lookup_insert_eq | exact R2 | exact W2 |].
  destruct (row_update_spec n2 t G H N S2 St) as (rhs3 & n3 & R3 & W3 & S3 & N3).
  apply wp_bind, wp_setitem_add with n2 rhs3 n3;
    [apply lookup_insert_eq | exact R3 | exact W3 |].
  cbn [heap rng].
  assert (E4 : extends st
                 (State (<[lg:=CellF n3]> (<[lg:=CellF n2]> (<[lg:=CellF n1]>
                           (<[lg:=CellF r]>
                              (<[lc:=CellF (b_attn_bias b)]> (heap st))))))
                    (rng st))).
  { do 3 (apply extends_insert; [| assumption]). exact E1. }
  apply wp_bind, wp_load_F with n3; [apply lookup_insert_eq |].
  apply wp_bind, wp_load_F with (b_attn_bias b); [exact (E4 _ _ Hb) |].
  destruct (add_baseline_spec n3 (b_attn_bias b) G H (S N) S3 Sb)
    as (final & Hf & Sf & Ef).
  apply wp_bind, wp_lift with final; [exact Hf |].
  apply wp_ret. cbn [loc_in_degree loc_out_degree loc_graph_attn_bias].
  split; [exact E4 |]. split; [reflexivity |].
  split; [reflexivity |]. split; [reflexivity |]. split; [exact Sf |].
  intros g h i j Hg Hh Hi Hj.
  rewrite Ef, N3, N2, N1 by assumption.
  rewrite Hre by assumption.
  unfold baseline, added_term.
  destruct i as [| i].
  - rewrite Et by exact Hh. reflexivity.
  - destruct j as [| j].
    + rewrite Et by exact Hh. reflexivity.
    + rewrite Es3, Es2, Es1, Es0 by lia. reflexivity.
Qed.

(** ** The attention bias of a forward call *)

(** C1.  On a batch of [G] graphs of [N] nodes, lines 203-241 of
    [Graphormer.forward] return, and the bias tensor they build has
    shape [G, num_heads, N+1, N+1]; its entry at head [h], row [i],
    column [j] of graph [g] is the cloned baseline entry, plus the term
    written into that place (the summed structural weights in the
    node-to-node block, the virtual distance of the graph token in row
    0 and column 0), plus the baseline entry once more: every entry
    carries the baseline twice, in this order of additions. *)
Theorem bias_carries_baseline_twice self data st b G N :
  bias_tables self = true →
  batch_shapes self b G N = true →
  holds data st b →
  ∃ st' loc,
    Graphormer_forward_bias self data st = (st', Ok loc)
    ∧ shape (loc_graph_attn_bias loc) = [G; num_heads self; S N; S N]
    ∧ ∀ g h i j, g < G → h < num_heads self → i < S N → j < S N →
        entry (loc_graph_attn_bias loc) [g; h; i; j]
        = fadd (fadd (baseline b g i j) (added_term self b g h i j))
               (baseline b g i j).
Proof.
  intros Ht Hs Hh.
  destruct (forward_bias_spec self data st b G N Ht Hs Hh)
    as (st' & loc & Hrun & _ & _ & _ & _ & Hshape & Hentry).
  exists st', loc. split; [exact Hrun |]. split; [exact Hshape | exact Hentry].
Qed.

(** C3.  In the bias tensor of a forward call, every entry of the
    graph-token row (row 0) and of the graph-token column (column 0) is
    the baseline entry plus the virtual distance of the head plus the
    baseline entry again, with no structural weight in it; every other
    entry is the baseline plus the structural sum of the node pair plus
    the baseline, with no virtual distance in it. *)
Theorem token_row_and_column_bias self data st b G N :
  bias_tables self = true →
  batch_shapes self b G N = true →
  holds data st b →
  ∃ st' loc,
    Graphormer_forward_bias self data st = (st', Ok loc)
    ∧ ∀ g h i j, g < G → h < num_heads self → i < S N → j < S N →
        entry (loc_graph_attn_bias loc) [g; h; i; j]
        = if (i =? 0) || (j =? 0)
          then fadd (fadd (baseline b g i j) (virtual_distance self h))
                    (baseline b g i j)
          else fadd (fadd (baseline b g i j)
                          (structural self b g h (i - 1) (j - 1)))
                    (baseline b g i j).
Proof.
  intros Ht Hs Hh.
  destruct (forward_bias_spec self data st b G N Ht Hs Hh)
    as (st' & loc & Hrun & _ & _ & _ & _ & _ & Hentry).
  exists st', loc. split; [exact Hrun |].
  intros g h i j Hg Hh' Hi Hj. rewrite Hentry by assumption.
  unfold added_term. destruct i as [| i]; [reflexivity |].
  destruct j as [| j]; [reflexivity |].
  simpl. rewrite !Nat.sub_0_r. reflexivity.
Qed.

(** C8.  A forward call changes no tensor object that exists when it
    starts: whatever it returns or raises, every such object (the node
    features, the baseline bias, the structural matrices and the degree
    vectors of the batch among them) holds afterwards what it held
    before.  The in-place assignments go to the tensor that [repeat]
    allocates from the clone of the baseline. *)
Theorem forward_leaves_inputs_unchanged self data perturb st l c :
  heap st !! l = Some c →
  heap (Graphormer_forward self data perturb st).1 !! l = Some c.
Proof.
  intros Hl.
  destruct (frames_Graphormer_forward (dom (heap st)) self data perturb st)
    as [Hframe _]; [reflexivity |].
  rewrite Hframe; [exact Hl |].
  apply elem_of_dom. exists c. exact Hl.
Qed.

(** ** Switching a channel off against zero weights *)

Lemma opt_table_zero n d : opt_table true n d (Some (zero_table n d)) = true.
Proof. simpl. unfold table_ok. simpl. rewrite !Nat.eqb_refl. reflexivity. Qed.

Lemma bucket_weight_zero n d z h : bucket_weight (zero_table n d) z h = fzero.
Proof. reflexivity. Qed.

Lemma bias_tables_enable c self :
  bias_tables (disable c self) = true →
  bias_tables (enable c (channel_zero_table c self) self) = true.
Proof.
  unfold bias_tables. intros Ht.
  apply andb_prop in Ht as [Ht Hvd]. apply andb_prop in Ht as [Ht Taa].
  apply andb_prop in Ht as [Ht Tjac]. apply andb_prop in Ht as [Tlsp Tnsp].
  destruct c; simpl in *;
    rewrite ?Tlsp, ?Tnsp, ?Tjac, ?Taa, ?Hvd; unfold table_ok; simpl;
    rewrite ?Nat.eqb_refl; reflexivity.
Qed.

Lemma batch_shapes_disable c e self b G N :
  batch_shapes (enable c e self) b G N = true →
  batch_shapes (disable c self) b G N = true.
Proof.
  unfold batch_shapes. intros Hs.
  apply andb_prop in Hs as [Hs Saa]. apply andb_prop in Hs as [Hs Sjac].
  apply andb_prop in Hs as [Hs Snsp]. apply andb_prop in Hs as [Hs Slsp].
  apply andb_prop in Hs as [Sx Sb].
  destruct c; simpl in *; rewrite ?Sx, ?Sb, ?Slsp, ?Snsp, ?Sjac, ?Saa; reflexivity.
Qed.

(** With the zero contribution neutral on the sum it is added to, the
    structural sums of the two models agree. *)
Lemma structural_enable_zero c self b g h i j :
  fadd (sum_before c (disable c self) b g h i j) fzero
  = sum_before c (disable c self) b g h i j →
  structural (enable c (channel_zero_table c self) self) b g h i j
  = structural (disable c self) b g h i j.
Proof.
  intros Hz.
  destruct c; simpl in Hz;
    unfold structural, after_jac, after_num_spd, spd_term, spd_index in *;
    simpl in *.
  - (* NumSpd *)
    destruct (num_spd_index b) as [t |]; simpl; [| reflexivity].
    rewrite bucket_weight_zero, Hz. reflexivity.
  - (* Jac *)
    destruct (jac_index b) as [t |]; simpl; [| reflexivity].
    rewrite bucket_weight_zero, Hz. reflexivity.
  - (* AA *)
    destruct (aa_index b) as [t |]; simpl; [| reflexivity].
    rewrite bucket_weight_zero, Hz. reflexivity.
  - reflexivity.
Qed.

(** C7, as amended.  On the same batch, the bias tensor of the model
    with an optional channel switched off and the bias tensor of the
    model with that channel switched on over an all-zero table have the
    same shape and the same entries, provided adding the zero weight
    leaves unchanged each sum of the preceding channels that it is
    added to. *)
Theorem disabled_channel_equals_zero_weights c self data st b G N :
  bias_tables (disable c self) = true →
  batch_shapes (enable c (channel_zero_table c self) self) b G N = true →
  holds data st b →
  (∀ g h i j, g < G → h < num_heads self → i < N → j < N →
     fadd (sum_before c (disable c self) b g h i j) fzero
     = sum_before c (disable c self) b g h i j) →
  ∃ st1 loc1 st2 loc2,
    Graphormer_forward_bias (disable c self) data st = (st1, Ok loc1)
    ∧ Graphormer_forward_bias (enable c (channel_zero_table c self) self) data st
      = (st2, Ok loc2)
    ∧ tensor_eq (loc_graph_attn_bias loc1) (loc_graph_attn_bias loc2).
Proof.
  intros Ht Hs Hh Hz.
  pose proof (bias_tables_enable c self Ht) as Ht'.
  pose proof (batch_shapes_disable c _ self b G N Hs) as Hs'.
  destruct (forward_bias_spec _ data st b G N Ht Hs' Hh)
    as (st1 & loc1 & Hrun1 & _ & _ & _ & _ & Hshape1 & Hentry1).
  destruct (forward_bias_spec _ data st b G N Ht' Hs Hh)
    as (st2 & loc2 & Hrun2 & _ & _ & _ & _ & Hshape2 & Hentry2).
  exists st1, loc1, st2, loc2.
  split; [exact Hrun1 |]. split; [exact Hrun2 |].
  assert (HH : num_heads (disable c self) = num_heads self) by (destruct c; reflexivity).
  assert (HH' : num_heads (enable c (channel_zero_table c self) self) = num_heads self)
    by (destruct c; reflexivity).
  rewrite HH in *. rewrite HH' in *.
  split; [rewrite Hshape1, Hshape2; reflexivity |].
  intros ix Hix. rewrite Hshape1 in Hix.
  apply Forall2_cons_inv_r in Hix as (g & ix1 & Hg & Hix & ->).
  apply Forall2_cons_inv_r in Hix as (h & ix2 & Hh' & Hix & ->).
  apply Forall2_cons_inv_r in Hix as (i & ix3 & Hi & Hix & ->).
  apply Forall2_cons_inv_r in Hix as (j & ix4 & Hj & Hix & ->).
  apply Forall2_nil_inv_r in Hix as ->.
  rewrite Hentry1, Hentry2 by assumption.
  f_equal. f_equal. unfold added_term.
  destruct i as [| i]; [destruct c; reflexivity |].
  destruct j as [| j]; [destruct c; reflexivity |].
  symmetry. apply structural_enable_zero, Hz; lia.
Qed.

(** ** Shapes through MultiHeadAttention.forward *)

Lemma Linear_forward_shape l (t : tensor F) b n i o :
  linear_dims l i o = true → shape t = [b; n; i] →
  ∃ y, Linear_forward l t = Ok y ∧ shape y = [b; n; o].
Proof.
  intros Hl Hs. apply andb_prop in Hl as [Hi Ho].
  apply Nat.eqb_eq in Hi, Ho.
  unfold Linear_forward. rewrite Hs. simpl.
  rewrite Hi, Nat.eqb_refl, Ho. eexists. split; reflexivity.
Qed.

Lemma view_split_heads (t : tensor F) b n h d :
  0 < b → 0 < h → 0 < d → shape t = [b; n; h * d] →
  ∃ y, view [Some b; None; Some h; Some d] t = Ok y ∧ shape y = [b; n; h; d].
Proof.
  intros Hb Hh Hd Hs. unfold view, infer_size. rewrite Hs.
  cbn [omap id filter list_filter length decide_rel numel foldr mbind option_bind].
  simpl.
  rewrite !Nat.mul_1_r.
  replace (b * (n * (h * d))) with (n * (b * (h * d))) by lia.
  assert (Hk : 0 < b * (h * d)) by nia.
  rewrite Nat.Div0.mod_mul, Nat.div_mul by lia.
  destruct (b * (h * d)) as [| k] eqn:E; [lia |].
  simpl. eexists. split; reflexivity.
Qed.

Lemma view_merge_heads (t : tensor F) b n h d :
  0 < b → 0 < h → 0 < d → shape t = [b; n; h; d] →
  ∃ y, view [Some b; None; Some (h * d)] t = Ok y ∧ shape y = [b; n; h * d].
Proof.
  intros Hb Hh Hd Hs. unfold view, infer_size. rewrite Hs.
  simpl.
  rewrite !Nat.mul_1_r.
  replace (b * (n * (h * d))) with (n * (b * (h * d))) by lia.
  assert (Hk : 0 < b * (h * d)) by nia.
  rewrite Nat.Div0.mod_mul, Nat.div_mul by lia.
  destruct (b * (h * d)) as [| k] eqn:E; [lia |].
  simpl. eexists. split; reflexivity.
Qed.

Lemma transpose_1_2_shape (t : tensor F) a b c d :
  shape t = [a; b; c; d] →
  ∃ y, transpose 1 2 t = Ok y ∧ shape y = [a; c; b; d].
Proof.
  intros Hs. unfold transpose, permute. rewrite Hs. simpl.
  eexists. split; reflexivity.
Qed.

Lemma transpose_2_3_shape (t : tensor F) a b c d :
  shape t = [a; b; c; d] →
  ∃ y, transpose 2 3 t = Ok y ∧ shape y = [a; b; d; c].
Proof.
  intros Hs. unfold transpose, permute. rewrite Hs. simpl.
  eexists. split; reflexivity.
Qed.

Lemma matmul_shape (t u : tensor F) a b m k n :
  shape t = [a; b; m; k] → shape u = [a; b; k; n] →
  ∃ y, matmul t u = Ok y ∧ shape y = [a; b; m; n].
Proof.
  intros Ht Hu. unfold matmul. rewrite Ht, Hu. simpl.
  rewrite !broadcast_dim_refl. simpl. rewrite Nat.eqb_refl.
  eexists. split; reflexivity.
Qed.

Lemma softmax_shape (t : tensor F) a b c d :
  shape t = [a; b; c; d] →
  ∃ y, softmax 3 t = Ok y ∧ shape y = [a; b; c; d].
Proof.
  intros Hs. unfold softmax. rewrite Hs. simpl.
  eexists. split; reflexivity.
Qed.

Lemma wp_Dropout_forward d (t : tensor F) st (Q : state → tensor F → Prop) :
  (∀ st' y, shape y = shape t → Q st' y) → wp (Dropout_forward d t) st Q.
Proof.
  intros HQ. unfold Dropout_forward, wp. destruct (training d).
  - destruct (dropout_mask (rng st) (drop_p d) (shape t)) as [m r].
    eexists _, _. split; [reflexivity |]. apply HQ. reflexivity.
  - eexists _, _. split; [reflexivity |]. apply HQ. reflexivity.
Qed.

Lemma wp_attention_bias (attn_bias : option (tensor F)) (t : tensor F) b h n st
  (Q : state → tensor F → Prop) :
  bias_fits attn_bias b h n = true → shape t = [b; h; n; n] →
  (∀ y, shape y = [b; h; n; n] → Q st y) →
  wp (match attn_bias with
      | Some bias => lift (add t bias)
      | None => mret t
      end) st Q.
Proof.
  intros Hb Hs HQ. destruct attn_bias as [bias |].
  - apply bool_decide_eq_true in Hb.
    destruct (add_same_shape t bias _ Hs Hb) as (y & Hy & Sy & _).
    apply wp_lift with y; [exact Hy | apply HQ, Sy].
  - apply wp_ret, HQ, Hs.
Qed.

Lemma MultiHeadAttention_forward_spec self hidden q k v attn_bias st b n :
  mha_ok self hidden = true →
  0 < b →
  shape q = [b; n; hidden] → shape k = [b; n; hidden] → shape v = [b; n; hidden] →
  bias_fits attn_bias b (mha_num_heads self) n = true →
  wp (MultiHeadAttention_forward self q k v attn_bias) st
     (λ _ out, shape out = [b; n; hidden]).
Proof.
  intros Hok Hb Sq Sk Sv Hbias.
  unfold mha_ok in Hok.
  apply andb_prop in Hok as [Hok Lo]. apply andb_prop in Hok as [Hok Lv].
  apply andb_prop in Hok as [Hok Lk]. apply andb_prop in Hok as [Hok Lq].
  apply andb_prop in Hok as [Hh Hd].
  apply Nat.ltb_lt in Hh, Hd.
  set (h := mha_num_heads self) in *. set (d := att_size self) in *.
  unfold MultiHeadAttention_forward. fold h. fold d.
  apply wp_bind, wp_lift with b; [unfold size_at; rewrite Sq; reflexivity |].
  (* the three projections, split into heads *)
  destruct (Linear_forward_shape _ q b n _ _ Lq Sq) as (q1 & Hq1 & Sq1).
  destruct (view_split_heads q1 b n h d Hb Hh Hd Sq1) as (q2 & Hq2 & Sq2).
  apply wp_bind, wp_lift with q2; [rewrite Hq1; exact Hq2 |].
  destruct (Linear_forward_shape _ k b n _ _ Lk Sk) as (k1 & Hk1 & Sk1).
  destruct (view_split_heads k1 b n h d Hb Hh Hd Sk1) as (k2 & Hk2 & Sk2).
  apply wp_bind, wp_lift with k2; [rewrite Hk1; exact Hk2 |].
  destruct (Linear_forward_shape _ v b n _ _ Lv Sv) as (v1 & Hv1 & Sv1).
  destruct (view_split_heads v1 b n h d Hb Hh Hd Sv1) as (v2 & Hv2 & Sv2).
  apply wp_bind, wp_lift with v2; [rewrite Hv1; exact Hv2 |].
  destruct (transpose_1_2_shape q2 _ _ _ _ Sq2) as (q3 & Hq3 & Sq3).
  apply wp_bind, wp_lift with q3; [exact Hq3 |].
  destruct (transpose_1_2_shape v2 _ _ _ _ Sv2) as (v3 & Hv3 & Sv3).
  apply wp_bind, wp_lift with v3; [exact Hv3 |].
  destruct (transpose_1_2_shape k2 _ _ _ _ Sk2) as (k3 & Hk3 & Sk3).
  destruct (transpose_2_3_shape k3 _ _ _ _ Sk3) as (k4 & Hk4 & Sk4).
  apply wp_bind, wp_lift with k4; [rewrite Hk3; exact Hk4 |].
  (* scores, bias, softmax, dropout *)
  destruct (matmul_shape (tmap (λ a, fmul a (scale self)) q3) k4 b h n d n Sq3 Sk4)
    as (x1 & Hx1 & Sx1).
  apply wp_bind, wp_lift with x1; [exact Hx1 |].
  apply wp_bind, wp_attention_bias with b h n; [exact Hbias | exact Sx1 |].
  intros x2 Sx2.
  destruct (softmax_shape x2 _ _ _ _ Sx2) as (x3 & Hx3 & Sx3).
  apply wp_bind, wp_lift with x3; [exact Hx3 |].
  apply wp_bind, wp_Dropout_forward. intros st1 x4 Sx4. rewrite Sx3 in Sx4.
  (* weighted values, heads merged, output projection *)
  destruct (matmul_shape x4 v3 b h n n d Sx4 Sv3) as (x5 & Hx5 & Sx5).
  apply wp_bind, wp_lift with x5; [exact Hx5 |].
  destruct (transpose_1_2_shape x5 _ _ _ _ Sx5) as (x6 & Hx6 & Sx6).
  apply wp_bind, wp_lift with x6; [exact Hx6 |].
  destruct (view_merge_heads x6 b n h d Hb Hh Hd Sx6) as (x7 & Hx7 & Sx7).
  apply wp_bind, wp_lift with x7; [exact Hx7 |].
  destruct (Linear_forward_shape _ x7 b n _ _ Lo Sx7) as (x8 & Hx8 & Sx8).
  apply wp_bind, wp_lift with x8; [exact Hx8 |].
  rewrite bool_decide_eq_true_2 by (rewrite Sx8, Sq; reflexivity).
  apply wp_ret. exact Sx8.
Qed.

(** C5, as amended.  For an attention module of width [hidden] with
    the sizes [__init__] gives it, and query, key and value inputs of
    shape [b, n, hidden] with at least one batch element,
    [MultiHeadAttention.forward] returns a tensor of the shape of the
    query input; the assertion on the shape holds.  The head count need
    not divide [hidden]. *)
Theorem attention_output_has_query_shape self hidden q k v attn_bias st b n :
  mha_ok self hidden = true →
  0 < b →
  shape q = [b; n; hidden] → shape k = [b; n; hidden] → shape v = [b; n; hidden] →
  bias_fits attn_bias b (mha_num_heads self) n = true →
  ∃ st' out,
    MultiHeadAttention_forward self q k v attn_bias st = (st', Ok out)
    ∧ shape out = shape q.
Proof.
  intros Hok Hb Sq Sk Sv Hbias.
  destruct (MultiHeadAttention_forward_spec self hidden q k v attn_bias st b n
              Hok Hb Sq Sk Sv Hbias) as (st' & out & Hrun & Hshape).
  exists st', out. split; [exact Hrun | rewrite Hshape, Sq; reflexivity].
Qed.

(** ** Construction *)

Lemma decides_ret {A} (a : A) (Q : A → Prop) : Q a → decides (mret a) true Q.
Proof. intros H st. split; [reflexivity | intros a' [= <-]; exact H]. Qed.

Lemma decides_lift {A} (r : result A) : decides (lift r) (is_ok r) (λ a, r = Ok a).
Proof. intros st. split; [reflexivity | intros a H; exact H]. Qed.

Lemma decides_bind {A C} (m : M A) (f : A → M C) b1 b2 (Q : A → Prop) (R : C → Prop) :
  decides m b1 Q → (∀ a, Q a → decides (f a) b2 R) →
  decides (m ≫= f) (b1 && b2) R.
Proof.
  intros Hm Hf st. destruct (Hm st) as [H1 H2].
  unfold mbind, M_bind. destruct (m st) as [st1 [a | e]]; simpl in *.
  - subst b1. simpl. apply Hf, H2. reflexivity.
  - subst b1. split; [reflexivity | discriminate].
Qed.

Lemma decides_bind_true {A C} (m : M A) (f : A → M C) (Q : A → Prop) (R : C → Prop) :
  decides m true Q → (∀ a, Q a → decides (f a) true R) →
  decides (m ≫= f) true R.
Proof. intros Hm Hf. apply (decides_bind m f true true Q R Hm Hf). Qed.

Lemma decides_weaken {A} (m : M A) b b' (Q Q' : A → Prop) :
  decides m b Q → b = b' → (∀ a, Q a → Q' a) → decides m b' Q'.
Proof.
  intros H <- HQ st. destruct (H st) as [H1 H2].
  split; [exact H1 | intros a Ha; apply HQ, H2, Ha].
Qed.

Lemma decides_false {A} (m : M A) (Q Q' : A → Prop) :
  decides m false Q → decides m false Q'.
Proof.
  intros H st. destruct (H st) as [H1 _]. split; [exact H1 |].
  intros a Ha. rewrite Ha in H1. discriminate.
Qed.

Lemma decides_sample s : decides (sample s) true (λ t, shape t = s).
Proof.
  intros st. unfold sample. destruct (sample_fn (rng st) s) as [f r].
  split; [reflexivity | intros a [= <-]; reflexivity].
Qed.

Lemma decides_Linear_reset_parameters l :
  decides (Linear_reset_parameters l) true
    (λ l', linear_dims l' (in_features l) (out_features l) = true).
Proof.
  unfold Linear_reset_parameters.
  eapply decides_bind_true; [apply decides_sample | intros w _].
  eapply decides_bind_true; [apply decides_sample | intros b' _].
  apply decides_ret. unfold linear_dims. simpl. rewrite !Nat.eqb_refl. reflexivity.
Qed.

Lemma decides_Linear_init i o :
  decides (Linear_init i o) true (λ l, linear_dims l i o = true).
Proof. apply decides_Linear_reset_parameters. Qed.

Lemma decides_Embedding_reset_parameters e :
  decides (Embedding_reset_parameters e) true
    (λ e', table_ok (num_embeddings e) (embedding_dim e) e' = true
           ∧ shape (emb_weight e') = [num_embeddings e; embedding_dim e]).
Proof.
  unfold Embedding_reset_parameters.
  eapply decides_bind_true; [apply decides_sample | intros w Hw].
  apply decides_ret. unfold table_ok. simpl. rewrite !Nat.eqb_refl.
  split; [reflexivity |].
  destruct (padding_idx e); simpl; exact Hw.
Qed.

Lemma decides_Embedding_init n d p :
  match p with Some r => r < n | None => True end →
  decides (Embedding_init n d p) true
    (λ e, table_ok n d e = true ∧ shape (emb_weight e) = [n; d]).
Proof.
  intros Hp. unfold Embedding_init.
  eapply decides_bind_true.
  - eapply decides_weaken; [apply decides_lift | | intros u _; exact I].
    destruct p as [r |]; simpl; [| reflexivity].
    apply Nat.ltb_lt in Hp. rewrite Hp. reflexivity.
  - intros u _.
    apply (decides_Embedding_reset_parameters
             {| num_embeddings := n; embedding_dim := d; padding_idx := p;
                emb_weight := full [n; d] fzero |}).
Qed.

Lemma decides_init_if flag n d :
  0 < n → decides (init_if flag n d) true (λ o, assigned flag n d o = true).
Proof.
  intros Hn. unfold init_if. destruct flag.
  - eapply decides_bind_true; [apply decides_Embedding_init; exact Hn |].
    intros e [He _]. apply decides_ret. simpl. exact He.
  - apply decides_ret. reflexivity.
Qed.

Lemma decides_Dropout_init rate :
  decides (lift (Dropout_init rate)) (rate_ok rate) (λ _, True).
Proof.
  eapply decides_weaken; [apply decides_lift | | trivial].
  unfold Dropout_init, rate_ok. destruct (_ && _); reflexivity.
Qed.

Lemma decides_MultiHeadAttention_init hidden rate heads :
  decides (MultiHeadAttention_init hidden rate heads)
    ((1 <=? heads) && (heads <=? hidden) && rate_ok rate)
    (λ m, mha_ok m hidden = true).
Proof.
  unfold MultiHeadAttention_init.
  destruct (Nat.eqb_spec heads 0) as [-> | Hne].
  { intros st. split; [reflexivity | discriminate]. }
  assert (Hfd : floordiv hidden heads = Ok (hidden / heads)).
  { unfold floordiv. rewrite (proj2 (Nat.eqb_neq _ _) Hne). reflexivity. }
  assert (H1 : (1 <=? heads) = true) by (apply Nat.leb_le; lia).
  rewrite Hfd, H1.
  destruct (Nat.leb_spec heads hidden) as [Hle | Hlt].
  - (* att_size is positive *)
    assert (Hatt : 0 < hidden / heads) by (apply Nat.div_str_pos; lia).
    assert (Hp : pow_minus_half (hidden / heads) = Ok (pow_neg_half (hidden / heads))).
    { unfold pow_minus_half.
      rewrite (proj2 (Nat.eqb_neq _ _)) by lia. reflexivity. }
    eapply decides_weaken; [| | intros m Hm; exact Hm].
    + eapply decides_bind; [apply decides_lift | intros att Ha].
      injection Ha as <-.
      eapply decides_bind; [apply decides_lift | intros sc _].
      eapply decides_bind; [apply decides_Linear_init | intros lq Hq].
      eapply decides_bind; [apply decides_Linear_init | intros lk Hk].
      eapply decides_bind; [apply decides_Linear_init | intros lv Hv].
      eapply decides_bind; [apply decides_Dropout_init | intros dr _].
      eapply decides_bind; [apply decides_Linear_init | intros out Ho].
      apply decides_ret. unfold mha_ok.
      cbn [mha_num_heads att_size linear_q linear_k linear_v output_layer].
      cbv beta in Hq, Hk, Hv, Ho. rewrite Hq, Hk, Hv, Ho.
      apply Nat.ltb_lt in Hatt. rewrite Hatt.
      rewrite (proj2 (Nat.ltb_lt 0 heads)) by lia. reflexivity.
    + rewrite Hp. simpl. rewrite andb_true_r. reflexivity.
  - (* att_size is 0: the negative power raises *)
    intros st. unfold mbind, M_bind, lift, pow_minus_half.
    rewrite Nat.div_small by exact Hlt. simpl.
    split; [reflexivity | discriminate].
Qed.

Lemma decides_bind_fail {A C} (m : M A) (f : A → M C) (Q : A → Prop) (R : C → Prop) :
  decides m false Q → decides (m ≫= f) false R.
Proof.
  intros Hm st. destruct (Hm st) as [H1 _].
  unfold mbind, M_bind. destruct (m st) as [st1 [a | e]]; simpl in *.
  - discriminate.
  - split; [reflexivity | discriminate].
Qed.

Lemma decides_FeedForwardNetwork_init hidden ffn_size rate :
  decides (FeedForwardNetwork_init hidden ffn_size rate) true (λ _, True).
Proof.
  unfold FeedForwardNetwork_init.
  eapply decides_bind_true; [apply decides_Linear_init | intros l1 _].
  eapply decides_bind_true; [apply decides_Linear_init | intros l2 _].
  apply decides_ret. exact I.
Qed.

Lemma decides_EncoderLayer_init c :
  decides (EncoderLayer_init (cfg_hidden_dim c) (ffn_dim c) (dropout_rate c)
             (attention_dropout_rate c) (cfg_num_heads c))
    (layer_ok c)
    (λ l, mha_ok (self_attention l) (cfg_hidden_dim c) = true).
Proof.
  unfold EncoderLayer_init.
  eapply decides_weaken; [| | intros l Hl; exact Hl].
  - eapply decides_bind; [apply decides_MultiHeadAttention_init | intros att Hatt].
    eapply decides_bind; [apply decides_Dropout_init | intros d1 _].
    eapply decides_bind; [apply decides_FeedForwardNetwork_init | intros f _].
    eapply decides_bind; [apply decides_Dropout_init | intros d2 _].
    apply decides_ret. exact Hatt.
  - unfold layer_ok.
    destruct (rate_ok (dropout_rate c)); simpl;
      rewrite ?andb_true_r, ?andb_false_r; reflexivity.
Qed.

Lemma decides_init_layers n c :
  decides (init_layers n c) ((n =? 0) || layer_ok c)
    (λ ls, length ls = n
           ∧ Forall (λ l, mha_ok (self_attention l) (cfg_hidden_dim c) = true) ls).
Proof.
  induction n as [| n IH]; simpl.
  - apply decides_ret. split; [reflexivity | constructor].
  - destruct (layer_ok c) eqn:E.
    + eapply decides_bind_true.
      * pose proof (decides_EncoderLayer_init c) as H. rewrite E in H. exact H.
      * intros l Hl.
        eapply decides_bind_true.
        -- rewrite orb_true_r in IH. exact IH.
        -- intros ls [Hlen Hall]. apply decides_ret.
           split; [simpl; rewrite Hlen; reflexivity | constructor; assumption].
    + pose proof (decides_EncoderLayer_init c) as H. rewrite E in H.
      eapply decides_bind_fail. exact H.
Qed.

Lemma assigned_opt_table flag n d o :
  assigned flag n d o = true → opt_table flag n d o = true.
Proof.
  unfold assigned, opt_table. destruct o as [e |], flag; simpl; try discriminate;
    intros H; first [exact H | reflexivity].
Qed.

Lemma decides_Graphormer_init c :
  decides (Graphormer_init c) (init_ok c) (constructed c).
Proof.
  unfold Graphormer_init.
  eapply decides_weaken; [| | intros self Hs; exact Hs].
  - eapply decides_bind; [apply decides_Linear_init | intros atom _].
    eapply decides_bind; [apply decides_Embedding_init; simpl; lia | intros lsp [Hlsp _]].
    eapply decides_bind; [apply decides_init_if; lia | intros nsp Hnsp].
    eapply decides_bind; [apply decides_init_if; lia | intros jac Hjac].
    eapply decides_bind; [apply decides_init_if; lia | intros aa Haa].
    eapply decides_bind; [apply decides_init_if; lia | intros ind Hind].
    eapply decides_bind; [apply decides_init_if; lia | intros outd Houtd].
    eapply decides_bind; [apply decides_Dropout_init | intros idr _].
    eapply decides_bind; [apply decides_init_layers | intros encoders [Hlen Hall]].
    eapply decides_bind; [apply decides_Embedding_init; exact I | intros gt _].
    eapply decides_bind; [apply decides_Embedding_init; exact I | intros gtvd [_ Hvd]].
    apply decides_ret. unfold constructed. simpl.
    repeat split; assumption.
  - unfold init_ok. simpl. rewrite !andb_true_r. reflexivity.
Qed.

Lemma constructed_bias_tables c self : constructed c self → bias_tables self = true.
Proof.
  intros (_ & _ & _ & _ & _ & _ & Hlsp & Hnsp & Hjac & Haa & _ & _ & Hvd & _).
  unfold bias_tables.
  rewrite Hlsp, (assigned_opt_table _ _ _ _ Hnsp), (assigned_opt_table _ _ _ _ Hjac),
    (assigned_opt_table _ _ _ _ Haa).
  rewrite bool_decide_eq_true_2 by exact Hvd. reflexivity.
Qed.

(** C2, as amended.  [Graphormer(...)] makes no divisibility check:
    whatever the state of the generator, construction returns exactly
    when [init_ok] holds, that is, when the input dropout rate is a
    probability and either no encoder layer is asked for or the two
    other rates are probabilities and [1 <= num_heads <= hidden_dim].
    Whether [num_heads] divides [hidden_dim] plays no part, and the
    object returned is as [constructed] describes. *)
Theorem construction_succeeds_iff_init_ok c st :
  is_ok (Graphormer_init c st).2 = init_ok c
  ∧ ∀ self, (Graphormer_init c st).2 = Ok self → constructed c self.
Proof. apply decides_Graphormer_init. Qed.

(** ** reset_parameters *)

Lemma wp_decides {A} (m : M A) (Q : A → Prop) st (P : state → A → Prop) :
  decides m true Q → (∀ st1 a, Q a → P st1 a) → wp m st P.
Proof.
  intros Hm HP. destruct (Hm st) as [H1 H2].
  destruct (m st) as [st1 [a | e]] eqn:E; simpl in *; [| discriminate].
  exists st1, a. split; [exact E | apply HP, H2; reflexivity].
Qed.

Lemma raises_after {A C} (m : M A) (f : A → M C) st e :
  wp m st (λ st1 a, (f a st1).2 = Raise e) → ((m ≫= f) st).2 = Raise e.
Proof.
  intros (st1 & a & Hm & Hf). unfold mbind, M_bind. rewrite Hm. exact Hf.
Qed.

Lemma decides_MultiHeadAttention_reset_parameters self :
  decides (MultiHeadAttention_reset_parameters self) true (λ _, True).
Proof.
  unfold MultiHeadAttention_reset_parameters.
  do 4 (eapply decides_bind_true;
        [apply decides_Linear_reset_parameters | intros ? _]).
  apply decides_ret. exact I.
Qed.

Lemma decides_FeedForwardNetwork_reset_parameters self :
  decides (FeedForwardNetwork_reset_parameters self) true (λ _, True).
Proof.
  unfold FeedForwardNetwork_reset_parameters.
  do 2 (eapply decides_bind_true;
        [apply decides_Linear_reset_parameters | intros ? _]).
  apply decides_ret. exact I.
Qed.

Lemma decides_EncoderLayer_reset_parameters self :
  decides (EncoderLayer_reset_parameters self) true (λ _, True).
Proof.
  unfold EncoderLayer_reset_parameters.
  eapply decides_bind_true;
    [apply decides_MultiHeadAttention_reset_parameters | intros att _].
  eapply decides_bind_true;
    [apply decides_FeedForwardNetwork_reset_parameters | intros f _].
  apply decides_ret. exact I.
Qed.

Lemma decides_reset_layers ls : decides (reset_layers ls) true (λ _, True).
Proof.
  induction ls as [| l ls IH]; simpl.
  - apply decides_ret. exact I.
  - eapply decides_bind_true;
      [apply decides_EncoderLayer_reset_parameters | intros l' _].
    eapply decides_bind_true; [exact IH | intros ls' _].
    apply decides_ret. exact I.
Qed.

Lemma decides_reset_attr name e :
  decides (reset_attr name (Some e)) true (λ _, True).
Proof.
  unfold reset_attr. simpl.
  eapply decides_bind_true; [apply decides_ret; exact I | intros e0 _].
  eapply decides_bind_true;
    [apply decides_Embedding_reset_parameters | intros e' _].
  apply decides_ret. exact I.
Qed.

Lemma decides_reset_if flag n d name o :
  assigned flag n d o = true →
  decides (reset_if flag name o) true (λ _, True).
Proof.
  intros Ha. unfold reset_if. destruct flag.
  - destruct o as [e |]; [apply decides_reset_attr | discriminate].
  - apply decides_ret. exact I.
Qed.

(** C9.  For every model object that [Graphormer(...)] returns,
    [reset_parameters] reaches the in-degree and out-degree tables
    whatever [use_degree] is: it returns when the model was built with
    [use_degree=True], and with [use_degree=False] it raises the
    attribute error of the table that was never assigned. *)
Theorem reset_parameters_needs_degree_tables c st st' self st1 :
  Graphormer_init c st = (st', Ok self) →
  (cfg_use_degree c = true →
   is_ok (Graphormer_reset_parameters self st1).2 = true)
  ∧ (cfg_use_degree c = false →
     (Graphormer_reset_parameters self st1).2
     = Raise (AttributeError "in_degree_encoder")).
Proof.
  intros Hinit.
  assert (Hc : constructed c self).
  { apply (decides_Graphormer_init c st). rewrite Hinit. reflexivity. }
  destruct Hc as (_ & _ & _ & _ & _ & Hdeg & _ & Hnsp & Hjac & Haa & Hin & Hout & _).
  rewrite Hdeg in Hin, Hout.
  split; intros Hflag; rewrite Hflag in Hin, Hout.
  - (* every attribute is there *)
    destruct (in_degree_encoder self) as [ie |] eqn:Ei; [| discriminate].
    destruct (out_degree_encoder self) as [oe |] eqn:Eo; [| discriminate].
    assert (Hd : decides (Graphormer_reset_parameters self) true (λ _, True)).
    { unfold Graphormer_reset_parameters. rewrite Ei, Eo.
      eapply decides_bind_true; [apply decides_reset_layers | intros ls _].
      eapply decides_bind_true; [apply decides_Linear_reset_parameters | intros atom _].
      eapply decides_bind_true;
        [apply decides_Embedding_reset_parameters | intros lsp _].
      eapply decides_bind_true; [eapply decides_reset_if, Hnsp | intros nsp _].
      eapply decides_bind_true; [eapply decides_reset_if, Hjac | intros jac _].
      eapply decides_bind_true; [eapply decides_reset_if, Haa | intros aa _].
      eapply decides_bind_true; [apply decides_reset_attr | intros ind _].
      eapply decides_bind_true; [apply decides_reset_attr | intros outd _].
      apply decides_ret. exact I. }
    apply Hd.
  - (* the in-degree table was never assigned *)
    destruct (in_degree_encoder self) as [ie |] eqn:Ei; [discriminate |].
    unfold Graphormer_reset_parameters. rewrite Ei.
    apply raises_after.
    eapply wp_decides; [apply decides_reset_layers | intros st2 ls _].
    apply raises_after.
    eapply wp_decides; [apply decides_Linear_reset_parameters | intros st3 atom _].
    apply raises_after.
    eapply wp_decides; [apply decides_Embedding_reset_parameters | intros st4 lsp _].
    apply raises_after.
    eapply wp_decides; [eapply decides_reset_if, Hnsp | intros st5 nsp _].
    apply raises_after.
    eapply wp_decides; [eapply decides_reset_if, Hjac | intros st6 jac _].
    apply raises_after.
    eapply wp_decides; [eapply decides_reset_if, Haa | intros st7 aa _].
    reflexivity.
Qed.

(** ** The degree vectors are read whatever the flag *)

Lemma bind_ok {A C} (m : M A) (f : A → M C) st st1 a :
  m st = (st1, Ok a) → (m ≫= f) st = f a st1.
Proof. intros H. unfold mbind, M_bind. rewrite H. reflexivity. Qed.

Lemma bind_raise {A C} (m : M A) (f : A → M C) st st1 e :
  m st = (st1, Raise e) → (m ≫= f) st = (st1, Raise e).
Proof. intros H. unfold mbind, M_bind. rewrite H. reflexivity. Qed.

Lemma getattr_some data name l st :
  data !! name = Some l → getattr data name st = (st, Ok l).
Proof. intros H. unfold getattr. rewrite H. reflexivity. Qed.

Lemma getattr_none data name st :
  data !! name = None → getattr data name st = (st, Raise (AttributeError name)).
Proof. intros H. unfold getattr. rewrite H. reflexivity. Qed.

(** Lines 205-206 of [forward] run before any flag is looked at: a
    batch without the attribute [in_degree] makes every model raise,
    the ones built with [use_degree=False] included. *)
Lemma forward_reads_in_degree self data perturb st lx le lb ll c :
  data !! "x" = Some lx →
  data !! "edge_index" = Some le →
  data !! "attn_bias" = Some lb →
  data !! "len_shortest_path" = Some ll →
  heap st !! ll = Some c →
  data !! "in_degree" = None →
  Graphormer_forward self data perturb st = (st, Raise (AttributeError "in_degree")).
Proof.
  intros Hx He Hb Hl Ht Hin.
  unfold Graphormer_forward. apply bind_raise.
  unfold Graphormer_forward_bias.
  rewrite (bind_ok _ _ _ _ _ (getattr_some _ _ _ st Hx)).
  rewrite (bind_ok _ _ _ _ _ (getattr_some _ _ _ st He)).
  rewrite (bind_ok _ _ _ _ _ (getattr_some _ _ _ st Hb)).
  erewrite bind_ok.
  2:{ rewrite (bind_ok _ _ _ _ _ (getattr_some _ _ _ st Hl)).
      unfold load, mbind, M_bind. rewrite Ht. reflexivity. }
  apply bind_raise. apply bind_raise. apply getattr_none, Hin.
Qed.

End Proofs.

Section Determinism.

Context {B : Backend}.

(** ** Two runs of the same call *)

Lemma stateless_ret {A} (a : A) : stateless (mret a).
Proof. exists (Ok a). intros s. reflexivity. Qed.

Lemma stateless_lift {A} (r : result A) : stateless (lift r).
Proof. exists r. intros s. reflexivity. Qed.

Lemma stateless_raise {A} e : stateless (raise e : M A).
Proof. exists (Raise e). intros s. reflexivity. Qed.

Lemma stateless_getattr data name : stateless (getattr data name).
Proof. unfold getattr. destruct (data !! name); [apply stateless_ret | apply stateless_raise]. Qed.

Lemma stateless_getattr_module {A} name (o : option A) :
  stateless (getattr_module name o).
Proof. destruct o; [apply stateless_ret | apply stateless_raise]. Qed.

Lemma stateless_Dropout_forward d (t : tensor F) :
  training d = false → stateless (Dropout_forward d t).
Proof. intros H. unfold Dropout_forward. rewrite H. apply stateless_ret. Qed.

Lemma stateless_bind {A C} (m : M A) (f : A → M C) :
  stateless m → (∀ a, stateless (f a)) → stateless (m ≫= f).
Proof.
  intros [r Hm] Hf. destruct r as [a | e].
  - destruct (Hf a) as [ra Ha]. exists ra. intros s.
    unfold mbind, M_bind. rewrite Hm. apply Ha.
  - exists (Raise e). intros s. unfold mbind, M_bind. rewrite Hm. reflexivity.
Qed.

(** A stateless computation gives the same result in any two states. *)
Lemma stateless_same {A} (m : M A) s1 s2 : stateless m → (m s1).2 = (m s2).2.
Proof. intros [r H]. rewrite !H. reflexivity. Qed.

Ltac stateless_step :=
  first
    [ apply stateless_ret | apply stateless_lift | apply stateless_raise
    | apply stateless_getattr | apply stateless_getattr_module
    | apply stateless_Dropout_forward; assumption
    | apply stateless_bind; [| intros ?]
    | match goal with
      | |- stateless (if ?c then _ else _) => destruct c
      | |- stateless (match ?o with _ => _ end) => destruct o
      end ].

Lemma stateless_MultiHeadAttention_forward self q k v attn_bias :
  training (att_dropout self) = false →
  stateless (MultiHeadAttention_forward self q k v attn_bias).
Proof. intros Hd. unfold MultiHeadAttention_forward. repeat stateless_step. Qed.

Lemma stateless_EncoderLayer_forward self t attn_bias :
  layer_eval self = true → stateless (EncoderLayer_forward self t attn_bias).
Proof.
  intros He. unfold layer_eval in He.
  apply andb_prop in He as [He H3]. apply andb_prop in He as [H1 H2].
  apply negb_true_iff in H1, H2, H3.
  unfold EncoderLayer_forward.
  repeat first [ apply stateless_MultiHeadAttention_forward; assumption
               | stateless_step ].
Qed.

Lemma stateless_run_layers ls output bias :
  forallb layer_eval ls = true → stateless (run_layers ls output bias).
Proof.
  revert output. induction ls as [| l ls IH]; intros output Hall; simpl in *.
  - apply stateless_ret.
  - apply andb_prop in Hall as [Hl Hls].
    apply stateless_bind; [apply stateless_EncoderLayer_forward, Hl |].
    intros t. apply IH, Hls.
Qed.

Lemma same_assoc {A C D} (m1 m2 : M A) (g1 g2 : A → M C) (f1 f2 : C → M D) s1 s2 :
  same_result ((m1 ≫= λ a, g1 a ≫= f1) s1) ((m2 ≫= λ a, g2 a ≫= f2) s2) →
  same_result (((m1 ≫= g1) ≫= f1) s1) (((m2 ≫= g2) ≫= f2) s2).
Proof.
  unfold same_result, mbind, M_bind.
  destruct (m1 s1) as [s1' [a1 | e1]], (m2 s2) as [s2' [a2 | e2]]; simpl;
    intros H; exact H.
Qed.

Lemma same_stateless {A C} (m : M A) (f1 f2 : A → M C) s1 s2 :
  stateless m →
  (∀ a, same_result (f1 a s1) (f2 a s2)) →
  same_result ((m ≫= f1) s1) ((m ≫= f2) s2).
Proof.
  intros [r Hm] Hf. unfold same_result, mbind, M_bind. rewrite !Hm.
  destruct r as [a | e]; [apply Hf | reflexivity].
Qed.

Lemma same_getattr {C} data name (f1 f2 : positive → M C) s1 s2 :
  (∀ l, data !! name = Some l → same_result (f1 l s1) (f2 l s2)) →
  same_result ((getattr data name ≫= f1) s1) ((getattr data name ≫= f2) s2).
Proof.
  intros Hf. unfold same_result, mbind, M_bind, getattr.
  destruct (data !! name) as [l |]; simpl; [apply Hf; reflexivity | reflexivity].
Qed.

Lemma same_load {C} l1 l2 c (f1 f2 : cell → M C) s1 s2 :
  heap s1 !! l1 = Some c → heap s2 !! l2 = Some c →
  same_result (f1 c s1) (f2 c s2) →
  same_result ((load l1 ≫= f1) s1) ((load l2 ≫= f2) s2).
Proof.
  intros H1 H2 Hf. unfold same_result, mbind, M_bind, load.
  rewrite H1, H2. exact Hf.
Qed.

Lemma same_load_F {C} l1 l2 c (f1 f2 : tensor F → M C) s1 s2 :
  heap s1 !! l1 = Some c → heap s2 !! l2 = Some c →
  (∀ t, same_result (f1 t s1) (f2 t s2)) →
  same_result ((load_F l1 ≫= f1) s1) ((load_F l2 ≫= f2) s2).
Proof.
  intros H1 H2 Hf. unfold load_F. apply same_assoc.
  apply same_load with c; [exact H1 | exact H2 |].
  apply same_stateless; [| exact Hf].
  destruct c; first [apply stateless_ret | apply stateless_raise].
Qed.

(** The two runs allocate at locations of their own. *)
Lemma same_alloc {C} c (f1 f2 : positive → M C) s1 s2 :
  (∀ l1 l2, heap s1 !! l1 = None → heap s2 !! l2 = None →
     same_result (f1 l1 (State (<[l1:=c]> (heap s1)) (rng s1)))
                 (f2 l2 (State (<[l2:=c]> (heap s2)) (rng s2)))) →
  same_result ((alloc c ≫= f1) s1) ((alloc c ≫= f2) s2).
Proof.
  intros Hf. unfold same_result, mbind, M_bind, alloc.
  apply Hf; apply not_elem_of_dom, is_fresh.
Qed.

Lemma same_store {C} l1 l2 c (f1 f2 : unit → M C) s1 s2 :
  same_result (f1 tt (State (<[l1:=c]> (heap s1)) (rng s1)))
              (f2 tt (State (<[l2:=c]> (heap s2)) (rng s2))) →
  same_result ((store l1 c ≫= f1) s1) ((store l2 c ≫= f2) s2).
Proof. intros Hf. exact Hf. Qed.

Lemma same_setitem_add {C} l1 l2 sels v cur (f1 f2 : unit → M C) s1 s2 :
  heap s1 !! l1 = Some (CellF cur) → heap s2 !! l2 = Some (CellF cur) →
  (∀ new, same_result (f1 tt (State (<[l1:=CellF new]> (heap s1)) (rng s1)))
                      (f2 tt (State (<[l2:=CellF new]> (heap s2)) (rng s2)))) →
  same_result ((setitem_add l1 sels v ≫= f1) s1) ((setitem_add l2 sels v ≫= f2) s2).
Proof.
  intros H1 H2 Hf. unfold setitem_add.
  apply same_assoc, same_load_F with (CellF cur); [exact H1 | exact H2 |].
  intros t. apply same_assoc, same_stateless; [apply stateless_lift |].
  intros rhs. apply same_assoc, same_load_F with (CellF cur); [exact H1 | exact H2 |].
  intros t'. apply same_assoc, same_stateless; [apply stateless_lift |].
  intros new. apply same_store, Hf.
Qed.

(** Reading an attribute of the batch in the two runs. *)
Lemma same_batch_lookup data s1 s2 s1' s2' name l :
  same_batch data s1 s2 → extends s1 s1' → extends s2 s2' →
  data !! name = Some l →
  ∃ c, heap s1' !! l = Some c ∧ heap s2' !! l = Some c.
Proof.
  intros Hb E1 E2 Hd. destruct (Hb name l Hd) as (c & H1 & H2).
  exists c. split; [apply E1, H1 | apply E2, H2].
Qed.

Lemma same_read {C} data name (f1 f2 : cell → M C) s1 s2 s1' s2' :
  same_batch data s1 s2 → extends s1 s1' → extends s2 s2' →
  (∀ c, same_result (f1 c s1') (f2 c s2')) →
  same_result (((l ← getattr data name; load l) ≫= f1) s1')
              (((l ← getattr data name; load l) ≫= f2) s2').
Proof.
  intros Hb E1 E2 Hf.
  apply same_assoc, same_getattr. intros l Hd.
  destruct (same_batch_lookup _ _ _ _ _ _ _ Hb E1 E2 Hd) as (c & H1 & H2).
  apply same_load with c; [exact H1 | exact H2 | apply Hf].
Qed.

Lemma same_read_clamp {C} data name lo hi (f1 f2 : tensor Z → M C) s1 s2 s1' s2' :
  same_batch data s1 s2 → extends s1 s1' → extends s2 s2' →
  (∀ t, same_result (f1 t s1') (f2 t s2')) →
  same_result
    (((l ← getattr data name; c ← load l; mret (clamp_long lo hi c)) ≫= f1) s1')
    (((l ← getattr data name; c ← load l; mret (clamp_long lo hi c)) ≫= f2) s2').
Proof.
  intros Hb E1 E2 Hf.
  apply same_assoc, same_getattr. intros l Hd.
  destruct (same_batch_lookup _ _ _ _ _ _ _ Hb E1 E2 Hd) as (c & H1 & H2).
  apply same_assoc, same_load with c; [exact H1 | exact H2 |].
  apply same_stateless; [apply stateless_ret |]. exact Hf.
Qed.

Lemma extends_self s : extends s (State (heap s) (rng s)).
Proof. intros l c H. exact H. Qed.

Lemma same_channel_Z {C} (flag : bool) data name mname (eo : option Embedding)
  (sp : tensor F) (f1 f2 : tensor F → M C) s1 s2 s1' s2' :
  same_batch data s1 s2 → extends s1 s1' → extends s2 s2' →
  (∀ t, same_result (f1 t s1') (f2 t s2')) →
  same_result
    (((if flag then
         num_shortest_path ← (l ← getattr data name; c ← load l;
                              mret (clamp_long 0 39 c));
         enc ← getattr_module mname eo;
         lift (encode enc num_shortest_path ≫= add sp)
       else mret sp) ≫= f1) s1')
    (((if flag then
         num_shortest_path ← (l ← getattr data name; c ← load l;
                              mret (clamp_long 0 39 c));
         enc ← getattr_module mname eo;
         lift (encode enc num_shortest_path ≫= add sp)
       else mret sp) ≫= f2) s2').
Proof.
  intros Hb E1 E2 Hf. destruct flag.
  - apply same_assoc.
    apply (same_read_clamp _ _ _ _ _ _ s1 s2); [exact Hb | exact E1 | exact E2 |].
    intros t. apply same_assoc, same_stateless; [apply stateless_getattr_module |].
    intros enc. apply same_stateless; [apply stateless_lift | exact Hf].
  - apply same_stateless; [apply stateless_ret | exact Hf].
Qed.

Lemma same_channel_score {C} (flag : bool) data name mname (eo : option Embedding) (k : Z)
  (sp : tensor F) (f1 f2 : tensor F → M C) s1 s2 s1' s2' :
  same_batch data s1 s2 → extends s1 s1' → extends s2 s2' →
  (∀ t, same_result (f1 t s1') (f2 t s2')) →
  same_result
    (((if flag then
         score ← (l ← getattr data name; load l);
         let score_enc := clamp_long 0 39 (mul_scalar score k) in
         enc ← getattr_module mname eo;
         lift (encode enc score_enc ≫= add sp)
       else mret sp) ≫= f1) s1')
    (((if flag then
         score ← (l ← getattr data name; load l);
         let score_enc := clamp_long 0 39 (mul_scalar score k) in
         enc ← getattr_module mname eo;
         lift (encode enc score_enc ≫= add sp)
       else mret sp) ≫= f2) s2').
Proof.
  intros Hb E1 E2 Hf. destruct flag.
  - apply same_assoc.
    apply (same_read _ _ _ _ s1 s2); [exact Hb | exact E1 | exact E2 |].
    intros t. cbv zeta.
    apply same_assoc, same_stateless; [apply stateless_getattr_module |].
    intros enc. apply same_stateless; [apply stateless_lift | exact Hf].
  - apply same_stateless; [apply stateless_ret | exact Hf].
Qed.

(** Lines 203-241 give the same result in any two states that hold the
    same batch. *)
Lemma forward_bias_same self data s1 s2 :
  same_batch data s1 s2 →
  same_result (Graphormer_forward_bias self data s1)
              (Graphormer_forward_bias self data s2).
Proof.
  intros Hb.
  pose proof (extends_refl s1) as E1. pose proof (extends_refl s2) as E2.
  unfold Graphormer_forward_bias.
  apply same_getattr. intros lx Dx.
  apply same_getattr. intros le De.
  apply same_getattr. intros lb Db.
  apply (same_read_clamp _ _ _ _ _ _ s1 s2); [exact Hb | exact E1 | exact E2 |].
  intros len_shortest_path.
  apply (same_read_clamp _ _ _ _ _ _ s1 s2); [exact Hb | exact E1 | exact E2 |].
  intros in_degree.
  apply (same_read_clamp _ _ _ _ _ _ s1 s2); [exact Hb | exact E1 | exact E2 |].
  intros out_degree.
  destruct (Hb _ _ Dx) as (cx & Hx1 & Hx2).
  apply same_load_F with cx; [exact Hx1 | exact Hx2 |]. intros xv.
  apply same_stateless; [apply stateless_lift |]. intros [n_graph n_node].
  destruct (Hb _ _ Db) as (cb & Hb1 & Hb2).
  apply same_load_F with cb; [exact Hb1 | exact Hb2 |]. intros b.
  apply same_alloc. intros c1 c2 Hc1 Hc2.
  apply same_load_F with (CellF b); [apply lookup_insert_eq .. |]. intros c.
  apply same_stateless; [apply stateless_lift |]. intros r.
  apply same_alloc. intros g1 g2 Hg1 Hg2. cbn [heap rng] in *.
  assert (G1 : heap s1 !! g1 = None).
  { destruct (decide (g1 = c1)) as [-> | Hne]; [exact Hc1 |].
    rewrite lookup_insert_ne in Hg1 by congruence. exact Hg1. }
  assert (G2 : heap s2 !! g2 = None).
  { destruct (decide (g2 = c2)) as [-> | Hne]; [exact Hc2 |].
    rewrite lookup_insert_ne in Hg2 by congruence. exact Hg2. }
  assert (X1 : extends s1 (State (<[g1:=CellF r]> (<[c1:=CellF b]> (heap s1))) (rng s1))).
  { do 2 (apply extends_insert; [| assumption]). apply extends_self. }
  assert (X2 : extends s2 (State (<[g2:=CellF r]> (<[c2:=CellF b]> (heap s2))) (rng s2))).
  { do 2 (apply extends_insert; [| assumption]). apply extends_self. }
  apply same_stateless; [apply stateless_lift |]. intros sp0.
  (* the optional channels *)
  apply (same_channel_Z _ _ _ _ _ _ _ _ s1 s2); [exact Hb | exact X1 | exact X2 |].
  intros sp1.
  apply (same_channel_score _ _ _ _ _ 30 _ _ _ s1 s2); [exact Hb | exact X1 | exact X2 |].
  intros sp2.
  apply (same_channel_score _ _ _ _ _ 10 _ _ _ s1 s2); [exact Hb | exact X1 | exact X2 |].
  intros sp3.
  (* the three assignments *)
  apply same_setitem_add with r; [apply lookup_insert_eq .. |]. intros n1.
  cbn [heap rng].
  apply same_stateless; [apply stateless_lift |]. intros t.
  apply same_setitem_add with n1; [apply lookup_insert_eq .. |]. intros n2.
  cbn [heap rng].
  apply same_setitem_add with n2; [apply lookup_insert_eq .. |]. intros n3.
  cbn [heap rng].
  apply same_load_F with (CellF n3); [apply lookup_insert_eq .. |]. intros cur.
  apply same_load_F with cb.
  { assert (Y1 : extends s1 (State (<[g1:=CellF n3]> (<[g1:=CellF n2]>
                   (<[g1:=CellF n1]> (<[g1:=CellF r]> (<[c1:=CellF b]> (heap s1))))))
                   (rng s1))).
    { do 3 (apply extends_insert; [| assumption]). exact X1. }
    apply Y1, Hb1. }
  { assert (Y2 : extends s2 (State (<[g2:=CellF n3]> (<[g2:=CellF n2]>
                   (<[g2:=CellF n1]> (<[g2:=CellF r]> (<[c2:=CellF b]> (heap s2))))))
                   (rng s2))).
    { do 3 (apply extends_insert; [| assumption]). exact X2. }
    apply Y2, Hb2. }
  intros b'.
  apply same_stateless; [apply stateless_lift |]. intros final.
  reflexivity.
Qed.

Lemma returns_ret {A} (a : A) (Q : A → Prop) : Q a → returns (mret a) Q.
Proof. intros H s a' [= <-]. exact H. Qed.

Lemma returns_bind {A C} (m : M A) (f : A → M C) (Q : C → Prop) :
  (∀ a, returns (f a) Q) → returns (m ≫= f) Q.
Proof.
  intros Hf s c. unfold mbind, M_bind.
  destruct (m s) as [s' [a | e]]; simpl; [apply Hf | discriminate].
Qed.

Lemma returns_getattr {C} data name (f : positive → M C) (Q : C → Prop) :
  (∀ l, data !! name = Some l → returns (f l) Q) →
  returns (getattr data name ≫= f) Q.
Proof.
  intros Hf s c. unfold mbind, M_bind, getattr.
  destruct (data !! name) as [l |]; simpl; [apply Hf; reflexivity | discriminate].
Qed.

(** The handle [x] that lines 203-241 leave is the attribute [x]. *)
Lemma forward_bias_returns_x self data :
  returns (Graphormer_forward_bias self data)
    (λ loc, data !! "x" = Some (loc_x loc)).
Proof.
  unfold Graphormer_forward_bias.
  apply returns_getattr. intros lx Dx.
  do 6 (apply returns_bind; intros ?).
  apply returns_bind. intros [n_graph n_node].
  do 16 (apply returns_bind; intros ?).
  apply returns_ret. exact Dx.
Qed.

Lemma same_bind {A C} (m : M A) (f1 f2 : A → M C) s1 s2 :
  same_result (m s1) (m s2) →
  (∀ a, (m s1).2 = Ok a →
        same_result (f1 a (m s1).1) (f2 a (m s2).1)) →
  same_result ((m ≫= f1) s1) ((m ≫= f2) s2).
Proof.
  unfold same_result, mbind, M_bind. intros Hm Hf.
  destruct (m s1) as [s1' [a1 | e1]], (m s2) as [s2' [a2 | e2]]; simpl in *;
    try discriminate.
  - injection Hm as <-. apply Hf. reflexivity.
  - injection Hm as <-. reflexivity.
Qed.

(** With dropout disabled, a forward call gives the same result in any
    two states that hold the same batch, whatever [perturb] is. *)
Lemma forward_same self data p1 p2 s1 s2 :
  eval_mode self = true →
  same_batch data s1 s2 →
  same_result (Graphormer_forward self data p1 s1)
              (Graphormer_forward self data p2 s2).
Proof.
  intros He Hb. unfold eval_mode in He. apply andb_prop in He as [Hin Hls].
  apply negb_true_iff in Hin.
  unfold Graphormer_forward.
  apply same_bind; [apply forward_bias_same, Hb |]. intros loc Hloc.
  pose proof (forward_bias_returns_x self data s1 loc Hloc) as Dx.
  destruct (Hb _ _ Dx) as (cx & Hx1 & Hx2).
  apply same_load_F with cx.
  { destruct (frames_Graphormer_forward_bias (dom (heap s1)) self data s1)
      as [Hf _]; [reflexivity |].
    rewrite Hf; [exact Hx1 | apply elem_of_dom; eexists; exact Hx1]. }
  { destruct (frames_Graphormer_forward_bias (dom (heap s2)) self data s2)
      as [Hf _]; [reflexivity |].
    rewrite Hf; [exact Hx2 | apply elem_of_dom; eexists; exact Hx2]. }
  intros xv.
  apply same_stateless; [apply stateless_lift |]. intros node_feature.
  apply same_stateless; [solve [repeat stateless_step] |]. intros node_feature'.
  apply same_stateless; [apply stateless_lift |]. intros graph_token_feature.
  apply same_stateless; [apply stateless_lift |]. intros graph_node_feature.
  apply same_stateless; [apply stateless_Dropout_forward, Hin |]. intros output.
  apply same_stateless; [apply stateless_run_layers, Hls |]. intros output'.
  apply same_stateless; [apply stateless_lift |]. intros output''.
  reflexivity.
Qed.

(** C10.  [Graphormer.forward] takes [perturb] and never reads it.
    From one and the same state, two calls that differ only in
    [perturb] have the same outcome altogether.  With dropout disabled,
    a call with any [perturb] made after a call with any other
    [perturb] on the same batch returns the same output (or raises the
    same exception) as the first, and so do calls from any two states
    that hold the same batch. *)
Theorem forward_ignores_perturb self data p1 p2 :
  (∀ s, Graphormer_forward self data p1 s = Graphormer_forward self data p2 s)
  ∧ (eval_mode self = true →
     (∀ s1 s2, same_batch data s1 s2 →
        (Graphormer_forward self data p1 s1).2
        = (Graphormer_forward self data p2 s2).2)
     ∧ (∀ s, same_batch data s s →
          (Graphormer_forward self data p2
             (Graphormer_forward self data p1 s).1).2
          = (Graphormer_forward self data p1 s).2)).
Proof.
  split; [intros s; reflexivity |].
  intros He. split.
  - intros s1 s2 Hb. apply (forward_same self data p1 p2 s1 s2 He Hb).
  - intros s Hb. symmetry.
    apply (forward_same self data p1 p2 s _ He).
    intros name l Hd. destruct (Hb name l Hd) as (c & Hc & _).
    exists c. split; [exact Hc |].
    destruct (frames_Graphormer_forward (dom (heap s)) self data p1 s)
      as [Hf _]; [reflexivity |].
    rewrite Hf; [exact Hc | apply elem_of_dom; eexists; exact Hc].
Qed.

End Determinism.

(** * The encoder stack, the input features and the life cycle of a model *)

Section Encoder.

Context {B : Backend}.
(** ** Shapes through the feed-forward block and an encoder layer *)

Lemma last_removelast {A} (l : list A) a :
  last l = Some a → removelast l ++ [a] = l.
Proof.
  intros H. destruct (decide (l = [])) as [-> | Hne]; [discriminate |].
  rewrite (app_removelast_last a Hne) at 2.
  f_equal. f_equal. rewrite last_lookup in H.
  destruct l as [| x l]; [done |].
  clear Hne. revert x H. induction l as [| y l IH]; intros x H.
  - simpl in *. congruence.
  - change (List.last (x :: y :: l) a) with (List.last (y :: l) a).
    apply IH. exact H.
Qed.

Lemma removelast_snoc {A} (l : list A) a : removelast (l ++ [a]) = l.
Proof. apply removelast_last. Qed.

Lemma last_dim_some s n : last s = Some n → last_dim s = Ok n.
Proof. unfold last_dim. intros ->. reflexivity. Qed.

(** [nn.Linear] maps the last dimension and keeps the others; an input
    of another width is rejected. *)
Lemma Linear_forward_last l (x : tensor F) :
  last (shape x) = Some (in_features l) →
  ∃ y, Linear_forward l x = Ok y
       ∧ shape y = removelast (shape x) ++ [out_features l].
Proof.
  intros H. unfold Linear_forward. rewrite (last_dim_some _ _ H). simpl.
  rewrite Nat.eqb_refl. eexists. split; reflexivity.
Qed.

Lemma Linear_forward_wrong_width l (x : tensor F) :
  last (shape x) ≠ Some (in_features l) →
  Linear_forward l x = Raise RuntimeError.
Proof.
  intros H. unfold Linear_forward, last_dim.
  destruct (last (shape x)) as [n |]; simpl; [| reflexivity].
  destruct (Nat.eqb_spec n (in_features l)) as [-> | _]; [congruence | reflexivity].
Qed.

Lemma FeedForwardNetwork_forward_spec self hidden (x : tensor F) :
  ffn_ok self hidden = true →
  (last (shape x) = Some hidden →
     ∃ y, FeedForwardNetwork_forward self x = Ok y ∧ shape y = shape x)
  ∧ (last (shape x) ≠ Some hidden →
     FeedForwardNetwork_forward self x = Raise RuntimeError).
Proof.
  intros Hok. unfold ffn_ok in Hok.
  apply andb_prop in Hok as [Hok H3]. apply andb_prop in Hok as [H1 H2].
  apply Nat.eqb_eq in H1, H2, H3.
  unfold FeedForwardNetwork_forward. split; intros Hx.
  - rewrite <- H1 in Hx.
    destruct (Linear_forward_last (layer1 self) x Hx) as (y1 & Hy1 & Sy1).
    rewrite Hy1. simpl.
    destruct (Linear_forward_last (layer2 self) (tmap gelu y1)) as (y2 & Hy2 & Sy2).
    { simpl. rewrite Sy1, last_snoc, H2. reflexivity. }
    exists y2. split; [exact Hy2 |].
    rewrite Sy2. simpl. rewrite Sy1, removelast_snoc, H3, <- H1.
    apply last_removelast. exact Hx.
  - rewrite Linear_forward_wrong_width by (rewrite H1; exact Hx). reflexivity.
Qed.

Lemma LayerNorm_forward_shape l (x : tensor F) b n :
  shape x = [b; n; normalized_shape l] →
  ∃ y, LayerNorm_forward l x = Ok y ∧ shape y = shape x.
Proof.
  intros Hs. unfold LayerNorm_forward. rewrite Hs. simpl.
  rewrite Nat.eqb_refl. eexists. split; reflexivity.
Qed.

Lemma FeedForwardNetwork_forward_shape self hidden (x : tensor F) b n :
  ffn_ok self hidden = true → shape x = [b; n; hidden] →
  ∃ y, FeedForwardNetwork_forward self x = Ok y ∧ shape y = [b; n; hidden].
Proof.
  intros Hok Hs.
  destruct (FeedForwardNetwork_forward_spec self hidden x Hok) as [H _].
  destruct H as (y & Hy & Sy); [rewrite Hs; reflexivity |].
  exists y. split; [exact Hy | rewrite Sy; exact Hs].
Qed.

Lemma EncoderLayer_forward_spec self hidden heads (x : tensor F) attn_bias st b n :
  encoder_layer_ok self hidden heads = true →
  0 < b →
  shape x = [b; n; hidden] →
  bias_fits attn_bias b heads n = true →
  wp (EncoderLayer_forward self x attn_bias) st (λ _ out, shape out = [b; n; hidden]).
Proof.
  intros Hok Hb Sx Hbias. unfold encoder_layer_ok in Hok.
  apply andb_prop in Hok as [Hok Hf]. apply andb_prop in Hok as [Hok Hn2].
  apply andb_prop in Hok as [Hok Hh]. apply andb_prop in Hok as [Hn1 Ha].
  apply Nat.eqb_eq in Hn1, Hn2, Hh. subst heads.
  unfold EncoderLayer_forward.
  destruct (LayerNorm_forward_shape (self_attention_norm self) x b n) as (y1 & Hy1 & Sy1);
    [rewrite Hn1; exact Sx |].
  rewrite Sx in Sy1.
  apply wp_bind, wp_lift with y1; [exact Hy1 |].
  apply wp_bind.
  destruct (MultiHeadAttention_forward_spec (self_attention self) hidden y1 y1 y1
              attn_bias st b n Ha Hb Sy1 Sy1 Sy1 Hbias) as (st1 & y2 & Hy2 & Sy2).
  exists st1, y2. split; [exact Hy2 |].
  apply wp_bind, wp_Dropout_forward. intros st2 y3 Sy3. rewrite Sy2 in Sy3.
  destruct (add_same_shape x y3 _ Sx Sy3) as (x1 & Hx1 & Sx1 & _).
  apply wp_bind, wp_lift with x1; [exact Hx1 |].
  destruct (LayerNorm_forward_shape (ffn_norm self) x1 b n) as (y4 & Hy4 & Sy4);
    [rewrite Hn2; exact Sx1 |].
  rewrite Sx1 in Sy4.
  apply wp_bind, wp_lift with y4; [exact Hy4 |].
  destruct (FeedForwardNetwork_forward_shape (ffn self) hidden y4 b n Hf Sy4)
    as (y5 & Hy5 & Sy5).
  apply wp_bind, wp_lift with y5; [exact Hy5 |].
  apply wp_bind, wp_Dropout_forward. intros st3 y6 Sy6. rewrite Sy5 in Sy6.
  destruct (add_same_shape x1 y6 _ Sx1 Sy6) as (x2 & Hx2 & Sx2 & _).
  apply wp_bind, wp_lift with x2; [exact Hx2 |].
  apply wp_ret. exact Sx2.
Qed.

Lemma run_layers_spec ls hidden heads (x bias : tensor F) st b n :
  forallb (λ l, encoder_layer_ok l hidden heads) ls = true →
  0 < b →
  shape x = [b; n; hidden] →
  shape bias = [b; heads; n; n] →
  wp (run_layers ls x bias) st (λ _ out, shape out = [b; n; hidden]).
Proof.
  intros Hok Hb. revert x st.
  induction ls as [| l ls IH]; intros x st Sx Sb; simpl.
  - apply wp_ret. exact Sx.
  - simpl in Hok. apply andb_prop in Hok as [Hl Hls].
    apply wp_bind.
    destruct (EncoderLayer_forward_spec l hidden heads x (Some bias) st b n Hl Hb Sx)
      as (st1 & y & Hy & Sy); [apply bool_decide_eq_true_2, Sb |].
    exists st1, y. split; [exact Hy |].
    apply IH; assumption.
Qed.

Lemma encoder_stack_spec self (x bias : tensor F) st G n :
  stack_ok self = true →
  0 < G ∨ layers self = [] →
  shape x = [G; n; hidden_dim self] →
  shape bias = [G; num_heads self; n; n] →
  wp (encoder_stack self x bias) st (λ _ out, shape out = [G; n; hidden_dim self]).
Proof.
  intros Hok HG Sx Sb. unfold stack_ok in Hok.
  apply andb_prop in Hok as [Hls Hln]. apply Nat.eqb_eq in Hln.
  unfold encoder_stack.
  apply wp_bind, wp_Dropout_forward. intros st1 y Sy. rewrite Sx in Sy.
  apply wp_bind.
  assert (Hrun : wp (run_layers (layers self) y bias) st1
                   (λ _ out, shape out = [G; n; hidden_dim self])).
  { destruct HG as [HG | Hnil].
    - apply run_layers_spec with (num_heads self); assumption.
    - rewrite Hnil. apply wp_ret. exact Sy. }
  destruct Hrun as (st2 & z & Hz & Sz).
  exists st2, z. split; [exact Hz |].
  destruct (LayerNorm_forward_shape (final_ln self) z G n) as (o & Ho & So);
    [rewrite Hln; exact Sz |].
  apply wp_bind, wp_lift with o; [exact Ho |].
  apply wp_ret. rewrite So. exact Sz.
Qed.

(** ** Lines 244-254: node features and the graph token *)

Lemma load_F_some l t st :
  heap st !! l = Some (CellF t) → load_F l st = (st, Ok t).
Proof. intros H. unfold load_F, load, mbind, M_bind. rewrite H. reflexivity. Qed.

Lemma load_some l c st : heap st !! l = Some c → load l st = (st, Ok c).
Proof. intros H. unfold load. rewrite H. reflexivity. Qed.

Lemma read_clamp_some data name lo hi c st :
  has_attr data st name c →
  (l ← getattr data name; c ← load l; mret (clamp_long lo hi c)) st
  = (st, Ok (clamp_long lo hi c)).
Proof.
  intros (l & Hd & Hl).
  rewrite (bind_ok _ _ _ _ _ (getattr_some _ _ _ st Hd)).
  rewrite (bind_ok _ _ _ _ _ (load_some _ _ st Hl)). reflexivity.
Qed.

Lemma bind_lift_ok {A C} (r : result A) (f : A → M C) a st :
  r = Ok a → (lift r ≫= f) st = f a st.
Proof. intros ->. reflexivity. Qed.

Lemma bind_lift_raise {A C} (r : result A) (f : A → M C) e st :
  r = Raise e → (lift r ≫= f) st = (st, Raise e).
Proof. intros ->. reflexivity. Qed.

(** What lines 203-212 bind: the handle of [data.x] and the number of
    graphs. *)
Lemma forward_bias_locals self data st b st1 loc :
  holds data st b →
  Graphormer_forward_bias self data st = (st1, Ok loc) →
  data !! "x" = Some (loc_x loc)
  ∧ ∃ n, size2 (b_x b) = Ok (loc_n_graph loc, n).
Proof.
  intros Hh Hrun. split.
  { apply (forward_bias_returns_x self data st). rewrite Hrun. reflexivity. }
  destruct Hh as ((lx & Dx & Hx) & [le De] & (lb & Db & Hb) & Hlsp & Hin & Hout & _).
  revert Hrun. unfold Graphormer_forward_bias.
  rewrite (bind_ok _ _ _ _ _ (getattr_some _ _ _ st Dx)).
  rewrite (bind_ok _ _ _ _ _ (getattr_some _ _ _ st De)).
  rewrite (bind_ok _ _ _ _ _ (getattr_some _ _ _ st Db)).
  rewrite (bind_ok _ _ _ _ _ (read_clamp_some _ _ _ _ _ st Hlsp)).
  rewrite (bind_ok _ _ _ _ _ (read_clamp_some _ _ _ _ _ st Hin)).
  rewrite (bind_ok _ _ _ _ _ (read_clamp_some _ _ _ _ _ st Hout)).
  rewrite (bind_ok _ _ _ _ _ (load_F_some _ _ st Hx)).
  destruct (size2 (b_x b)) as [[g n] | e] eqn:E.
  - rewrite (bind_lift_ok _ _ _ _ eq_refl). intros Hrun.
    exists n. f_equal. f_equal.
    symmetry. revert Hrun.
    match goal with
    | |- ?m st = _ → _ =>
        assert (Hret : returns m (λ loc, loc_n_graph loc = g))
    end.
    { do 16 (apply returns_bind; intros ?). apply returns_ret. reflexivity. }
    intros Hrun. apply (Hret st). rewrite Hrun. reflexivity.
  - rewrite (bind_lift_raise _ _ _ _ eq_refl). discriminate.
Qed.

Lemma Linear_forward_entries l (x : tensor F) G N i o :
  linear_dims l i o = true → shape x = [G; N; i] →
  ∃ y, Linear_forward l x = Ok y
       ∧ shape y = [G; N; o]
       ∧ ∀ g n c, entry y [g; n; c]
           = fadd (dot (map (λ k, entry x [g; n; k]) (seq 0 (in_features l)))
                       (map (λ k, entry (lin_weight l) [c; k]) (seq 0 (in_features l))))
                  (entry (lin_bias l) [c]).
Proof.
  intros Hl Hs. apply andb_prop in Hl as [Hi Ho].
  apply Nat.eqb_eq in Hi, Ho.
  unfold Linear_forward. rewrite Hs. simpl.
  rewrite Hi, Nat.eqb_refl, Ho. eexists. split; [reflexivity |].
  split; reflexivity.
Qed.

Lemma degree_lookup_spec e (t : cell) G N H :
  table_ok 64 H e = true → index_tensor t [G; N] = true →
  ∃ r, Embedding_forward e (clamp_long 0 63 t) = Ok r
       ∧ shape r = [G; N; H]
       ∧ ∀ g i c, entry r [g; i; c]
           = entry (emb_weight e) [Z.to_nat (entry (clamp_long 0 63 t) [g; i]); c].
Proof.
  intros He Hs. apply andb_prop in He as [Hn Hd]. apply Nat.eqb_eq in Hn, Hd.
  rewrite Embedding_forward_ok.
  - eexists. split; [reflexivity |]. simpl.
    apply index_tensor_inv in Hs as [Hs _].
    rewrite shape_clamp_long, Hs, Hd. split; reflexivity.
  - rewrite Hn. apply clamp_long_rows with [G; N]; [lia | lia | exact Hs].
Qed.

Lemma token_spec (w : tensor F) G H :
  shape w = [1; H] →
  ∃ t, (unsqueeze 0 w ≫= repeat_tensor [G; 1; 1]) = Ok t
       ∧ shape t = [G; 1; H]
       ∧ ∀ g c, c < H → entry t [g; 0; c] = entry w [0; c].
Proof.
  intros Hs. unfold unsqueeze, repeat_tensor. rewrite Hs. simpl.
  eexists. split; [reflexivity |]. simpl.
  split.
  - rewrite Nat.add_0_r, Nat.mul_1_r. reflexivity.
  - intros g c Hc. rewrite (Nat.mod_small c H) by exact Hc. reflexivity.
Qed.

Lemma cat_spec (t u : tensor F) G N H :
  shape t = [G; 1; H] → shape u = [G; N; H] →
  ∃ r, cat 1 t u = Ok r
       ∧ shape r = [G; S N; H]
       ∧ (∀ g c, entry r [g; 0; c] = entry t [g; 0; c])
       ∧ (∀ g i c, entry r [g; S i; c] = entry u [g; i; c]).
Proof.
  intros Ht Hu. unfold cat. rewrite Ht, Hu. simpl.
  rewrite bool_decide_eq_true_2 by reflexivity. simpl.
  eexists. split; [reflexivity |]. simpl.
  split; [reflexivity |]. split; [reflexivity |].
  intros g i c. rewrite Nat.sub_0_r. reflexivity.
Qed.

Lemma bind_wp {A C} (m : M A) (f : A → M C) st (P : state → A → Prop) :
  wp m st P → ∃ st1 a, P st1 a ∧ (m ≫= f) st = f a st1.
Proof.
  intros (st1 & a & Hm & HP). exists st1, a.
  split; [exact HP | apply bind_ok, Hm].
Qed.

(** The node features after the optional degree encoding. *)
Lemma degree_features_spec self b (nf0 : tensor F) G N st
  (Q : state → tensor F → Prop) :
  opt_table (use_degree self) 64 (hidden_dim self) (in_degree_encoder self) = true →
  opt_table (use_degree self) 64 (hidden_dim self) (out_degree_encoder self) = true →
  (if use_degree self
   then index_tensor (b_in_degree b) [G; N]
        && index_tensor (b_out_degree b) [G; N]
   else true) = true →
  shape nf0 = [G; N; hidden_dim self] →
  (∀ g i c, g < G → i < N → c < hidden_dim self →
     entry nf0 [g; i; c] = atom_feature self b g i c) →
  (∀ nf1, shape nf1 = [G; N; hidden_dim self] →
     (∀ g i c, g < G → i < N → c < hidden_dim self →
        entry nf1 [g; i; c] = node_feature self b g i c) →
     Q st nf1) →
  wp (if use_degree self then
        ie ← getattr_module "in_degree_encoder" (in_degree_encoder self);
        nf ← lift (Embedding_forward ie (clamp_long 0 63 (b_in_degree b)) ≫= add nf0);
        oe ← getattr_module "out_degree_encoder" (out_degree_encoder self);
        lift (Embedding_forward oe (clamp_long 0 63 (b_out_degree b)) ≫= add nf)
      else mret nf0) st Q.
Proof.
  intros Tin Tout Hs S0 E0 HQ. unfold node_feature in HQ.
  destruct (use_degree self).
  - simpl in Tin, Tout.
    destruct (in_degree_encoder self) as [ie |]; [| discriminate].
    destruct (out_degree_encoder self) as [oe |]; [| discriminate].
    apply andb_prop in Hs as [Sin Sout].
    apply wp_bind, wp_getattr_module with ie; [reflexivity |].
    destruct (degree_lookup_spec ie _ G N _ Tin Sin) as (r1 & Hr1 & Sr1 & Er1).
    destruct (add_same_shape nf0 r1 _ S0 Sr1) as (n1 & Hn1 & Sn1 & En1).
    apply wp_bind, wp_lift with n1; [rewrite Hr1; exact Hn1 |].
    apply wp_bind, wp_getattr_module with oe; [reflexivity |].
    destruct (degree_lookup_spec oe _ G N _ Tout Sout) as (r2 & Hr2 & Sr2 & Er2).
    destruct (add_same_shape n1 r2 _ Sn1 Sr2) as (n2 & Hn2 & Sn2 & En2).
    apply wp_lift with n2; [rewrite Hr2; exact Hn2 |].
    apply HQ; [exact Sn2 |].
    intros g i c Hg Hi Hc.
    assert (Hb : in_bounds [g; i; c] [G; N; hidden_dim self])
      by (repeat constructor; assumption).
    rewrite (En2 _ Hb), (En1 _ Hb), Er1, Er2, E0 by assumption. reflexivity.
  - apply wp_ret, HQ; assumption.
Qed.

(** Lines 203-254 on a well-formed batch: [forward] hands the encoder
    stack the graph token followed by the node features, together with
    the attention bias. *)
Lemma forward_features_spec self data perturb st b G N nf :
  bias_tables self = true → features_ok self nf = true →
  batch_shapes self b G N = true → feature_shapes self b G N nf = true →
  holds data st b →
  ∃ st1 loc gnf,
    Graphormer_forward_bias self data st = (st1, Ok loc)
    ∧ rng st1 = rng st
    ∧ shape (loc_graph_attn_bias loc) = [G; num_heads self; S N; S N]
    ∧ shape gnf = [G; S N; hidden_dim self]
    ∧ (∀ g i c, g < G → i < S N → c < hidden_dim self →
         entry gnf [g; i; c] = graph_node_feature self b g i c)
    ∧ Graphormer_forward self data perturb st
      = encoder_stack self gnf (loc_graph_attn_bias loc) st1.
Proof.
  intros Ht Hf Hs Hfs Hh.
  destruct (forward_bias_spec self data st b G N Ht Hs Hh)
    as (st1 & loc & Hrun & Hext & Hrng & Lin & Lout & Sbias & _).
  destruct (forward_bias_locals self data st b st1 loc Hh Hrun) as (Lx & n & Ln).
  unfold features_ok in Hf.
  apply andb_prop in Hf as [Hf Tgt]. apply andb_prop in Hf as [Hf Tout].
  apply andb_prop in Hf as [Tatom Tin]. apply bool_decide_eq_true in Tgt.
  unfold feature_shapes in Hfs. apply andb_prop in Hfs as [Sx Sdeg].
  apply bool_decide_eq_true in Sx.
  unfold size2 in Ln. rewrite Sx in Ln. injection Ln as LG <-.
  destruct Hh as ((lx & Dx & Hx) & _).
  rewrite Dx in Lx. injection Lx as Lx.
  unfold Graphormer_forward.
  rewrite (bind_ok _ _ _ _ _ Hrun). rewrite <- LG.
  assert (Hx1 : heap st1 !! loc_x loc = Some (CellF (b_x b)))
    by (apply Hext; rewrite <- Lx; exact Hx).
  rewrite (bind_ok _ _ _ _ _ (load_F_some _ _ st1 Hx1)).
  destruct (Linear_forward_entries (atom_encoder self) (b_x b) G N nf _ Tatom Sx)
    as (nf0 & Hnf0 & Snf0 & Enf0).
  rewrite (bind_lift_ok _ _ _ _ Hnf0).
  rewrite Lin, Lout. cbv beta.
  match goal with
  | |- context [(?m ≫= ?f) st1] =>
      destruct (bind_wp m f st1
                  (λ st' nf1, st' = st1 ∧ shape nf1 = [G; N; hidden_dim self]
                     ∧ ∀ g i c, g < G → i < N → c < hidden_dim self →
                         entry nf1 [g; i; c] = node_feature self b g i c))
        as (st2 & nf1 & (-> & Snf1 & Enf1) & ->)
  end.
  { apply degree_features_spec with G N; try assumption.
    - intros g i c _ _ _. apply Enf0.
    - intros nf1 S1 E1. split; [reflexivity |]. split; assumption. }
  destruct (token_spec (emb_weight (graph_token self)) G _ Tgt)
    as (tok & Htok & Stok & Etok).
  rewrite (bind_lift_ok _ _ _ _ Htok).
  destruct (cat_spec tok nf1 _ _ _ Stok Snf1) as (gnf & Hgnf & Sgnf & Eg0 & EgS).
  rewrite (bind_lift_ok _ _ _ _ Hgnf).
  exists st1, loc, gnf.
  split; [exact Hrun |]. split; [exact Hrng |].
  split; [exact Sbias |]. split; [exact Sgnf |].
  split; [| reflexivity].
  intros g i c Hg Hi Hc. destruct i as [| i]; simpl.
  - rewrite Eg0. apply Etok, Hc.
  - rewrite EgS. apply Enf1; [exact Hg | lia | exact Hc].
Qed.

(** ** An empty batch *)

Lemma raises_bind {A C} (m : M A) (f : A → M C) st e :
  (m st).2 = Raise e → ((m ≫= f) st).2 = Raise e.
Proof.
  intros H. unfold mbind, M_bind. destruct (m st) as [st1 [a | e']]; simpl in *.
  - discriminate.
  - injection H as ->. reflexivity.
Qed.

Lemma view_heads_of_nothing (t : tensor F) n w h d :
  shape t = [0; n; w] →
  view [Some 0; None; Some h; Some d] t = Raise RuntimeError.
Proof. intros Hs. unfold view, infer_size. rewrite Hs. reflexivity. Qed.

(** With no batch element the size that [view(batch_size, -1, ...)]
    leaves open cannot be inferred. *)
Lemma MultiHeadAttention_forward_empty self hidden (q k v : tensor F) attn_bias st n :
  mha_ok self hidden = true →
  shape q = [0; n; hidden] →
  MultiHeadAttention_forward self q k v attn_bias st = (st, Raise RuntimeError).
Proof.
  intros Hok Sq. unfold mha_ok in Hok.
  apply andb_prop in Hok as [Hok _]. apply andb_prop in Hok as [Hok _].
  apply andb_prop in Hok as [Hok _]. apply andb_prop in Hok as [_ Lq].
  unfold MultiHeadAttention_forward.
  rewrite (bind_lift_ok _ _ 0 st) by (unfold size_at; rewrite Sq; reflexivity).
  apply bind_lift_raise.
  destruct (Linear_forward_shape _ q 0 n _ _ Lq Sq) as (q1 & Hq1 & Sq1).
  rewrite Hq1. simpl. eapply view_heads_of_nothing. exact Sq1.
Qed.

Lemma EncoderLayer_forward_empty self hidden heads (x : tensor F) attn_bias st n :
  encoder_layer_ok self hidden heads = true →
  shape x = [0; n; hidden] →
  EncoderLayer_forward self x attn_bias st = (st, Raise RuntimeError).
Proof.
  intros Hok Sx. unfold encoder_layer_ok in Hok.
  apply andb_prop in Hok as [Hok _]. apply andb_prop in Hok as [Hok _].
  apply andb_prop in Hok as [Hok _]. apply andb_prop in Hok as [Hn1 Ha].
  apply Nat.eqb_eq in Hn1.
  unfold EncoderLayer_forward.
  destruct (LayerNorm_forward_shape (self_attention_norm self) x 0 n) as (y1 & Hy1 & Sy1);
    [rewrite Hn1; exact Sx |].
  rewrite Sx in Sy1.
  rewrite (bind_lift_ok _ _ _ _ Hy1).
  apply bind_raise.
  apply MultiHeadAttention_forward_empty with hidden n; assumption.
Qed.

Lemma encoder_stack_empty self (x bias : tensor F) st n :
  stack_ok self = true →
  layers self ≠ [] →
  shape x = [0; n; hidden_dim self] →
  (encoder_stack self x bias st).2 = Raise RuntimeError.
Proof.
  intros Hok Hne Sx. unfold stack_ok in Hok.
  apply andb_prop in Hok as [Hls _].
  destruct (layers self) as [| l ls] eqn:E; [congruence |].
  simpl in Hls. apply andb_prop in Hls as [Hl _].
  unfold encoder_stack. rewrite E.
  apply raises_after, wp_Dropout_forward. intros st1 y Sy. rewrite Sx in Sy.
  apply raises_bind. simpl. apply raises_bind.
  rewrite (EncoderLayer_forward_empty l _ _ y (Some bias) st1 n Hl Sy). reflexivity.
Qed.

(** ** What construction and reset leave *)

Lemma returns_post_bind {A C} (m : M A) (f : A → M C) (P : A → Prop) (Q : C → Prop) :
  returns m P → (∀ a, P a → returns (f a) Q) → returns (m ≫= f) Q.
Proof.
  intros Hm Hf s c. unfold mbind, M_bind.
  destruct (m s) as [s' [a | e]] eqn:E; simpl; [| discriminate].
  apply Hf. apply (Hm s). rewrite E. reflexivity.
Qed.

Lemma returns_decides {A} (m : M A) b (Q : A → Prop) : decides m b Q → returns m Q.
Proof. intros H s a. apply (H s). Qed.

Lemma returns_lift {A} (r : result A) : returns (lift r) (λ a, r = Ok a).
Proof. intros s a H. exact H. Qed.

Lemma returns_weaken {A} (m : M A) (P Q : A → Prop) :
  returns m P → (∀ a, P a → Q a) → returns m Q.
Proof. intros H HQ s a Ha. apply HQ, (H s), Ha. Qed.

Lemma returns_Linear_reset_parameters l :
  returns (Linear_reset_parameters l)
    (λ l', in_features l' = in_features l ∧ out_features l' = out_features l).
Proof.
  unfold Linear_reset_parameters.
  do 2 (apply returns_bind; intros ?). apply returns_ret. split; reflexivity.
Qed.

Lemma returns_Embedding_reset_parameters e :
  returns (Embedding_reset_parameters e)
    (λ e', num_embeddings e' = num_embeddings e
           ∧ embedding_dim e' = embedding_dim e
           ∧ padding_idx e' = padding_idx e
           ∧ shape (emb_weight e') = [num_embeddings e; embedding_dim e]
           ∧ (padding_idx e = Some 0 → zero_row e')).
Proof.
  unfold Embedding_reset_parameters.
  eapply returns_post_bind; [eapply returns_decides, decides_sample | intros w Hw].
  apply returns_ret. simpl.
  repeat split; try reflexivity.
  - destruct (padding_idx e); simpl; exact Hw.
  - simpl. assumption.
  - simpl. intros c. rewrite H. reflexivity.
Qed.

Lemma returns_Embedding_init n d p :
  returns (Embedding_init n d p)
    (λ e, table_ok n d e = true ∧ shape (emb_weight e) = [n; d]
          ∧ (p = Some 0 → zero_row e)).
Proof.
  unfold Embedding_init. apply returns_bind. intros _.
  eapply returns_weaken; [apply returns_Embedding_reset_parameters |].
  simpl. intros e (Hn & Hd & _ & Hs & Hz).
  unfold table_ok. rewrite Hn, Hd, !Nat.eqb_refl. auto.
Qed.

Lemma returns_init_if flag n d :
  returns (init_if flag n d) (λ o, assigned flag n d o = true ∧ opt_zero_row o).
Proof.
  unfold init_if. destruct flag.
  - eapply returns_post_bind; [apply returns_Embedding_init | intros e (He & _ & Hz)].
    apply returns_ret. simpl. split; [exact He | apply Hz; reflexivity].
  - apply returns_ret. split; [reflexivity | exact I].
Qed.

Lemma linear_dims_intro l i o :
  in_features l = i → out_features l = o → linear_dims l i o = true.
Proof. intros <- <-. unfold linear_dims. rewrite !Nat.eqb_refl. reflexivity. Qed.

Lemma linear_dims_elim l i o :
  linear_dims l i o = true → in_features l = i ∧ out_features l = o.
Proof.
  intros H. apply andb_prop in H as [H1 H2].
  apply Nat.eqb_eq in H1, H2. auto.
Qed.

Lemma returns_Linear_init i o :
  returns (Linear_init i o) (λ l, in_features l = i ∧ out_features l = o).
Proof.
  unfold Linear_init.
  eapply returns_weaken; [apply returns_Linear_reset_parameters |].
  simpl. intros l H. exact H.
Qed.

(** [att_size] is the floor of the quotient, and the projections are
    [num_heads * att_size] wide. *)
Lemma returns_MultiHeadAttention_init hidden rate heads :
  returns (MultiHeadAttention_init hidden rate heads)
    (λ m, mha_ok m hidden = true
          ∧ mha_num_heads m = heads
          ∧ att_size m = hidden / heads
          ∧ training (att_dropout m) = true).
Proof.
  unfold MultiHeadAttention_init.
  eapply returns_post_bind; [apply returns_lift | intros att Hatt].
  unfold floordiv in Hatt.
  destruct (Nat.eqb_spec heads 0) as [| Hh]; [discriminate |]. injection Hatt as <-.
  eapply returns_post_bind; [apply returns_lift | intros sc Hsc].
  unfold pow_minus_half in Hsc.
  destruct (Nat.eqb_spec (hidden / heads) 0) as [| Ha]; [discriminate |].
  eapply returns_post_bind; [apply returns_Linear_init | intros lq [Hq1 Hq2]].
  eapply returns_post_bind; [apply returns_Linear_init | intros lk [Hk1 Hk2]].
  eapply returns_post_bind; [apply returns_Linear_init | intros lv [Hv1 Hv2]].
  eapply returns_post_bind; [apply returns_lift | intros dr Hdr].
  eapply returns_post_bind; [apply returns_Linear_init | intros out [Ho1 Ho2]].
  apply returns_ret. unfold mha_ok.
  cbn [mha_num_heads att_size linear_q linear_k linear_v output_layer att_dropout].
  rewrite !linear_dims_intro by assumption.
  rewrite (proj2 (Nat.ltb_lt 0 heads)) by lia.
  rewrite (proj2 (Nat.ltb_lt 0 (hidden / heads))) by lia.
  repeat split.
  unfold Dropout_init in Hdr. destruct (_ && _); [| discriminate].
  injection Hdr as <-. reflexivity.
Qed.

Lemma returns_FeedForwardNetwork_init hidden ffn_size rate :
  returns (FeedForwardNetwork_init hidden ffn_size rate) (λ f, ffn_ok f hidden = true).
Proof.
  unfold FeedForwardNetwork_init.
  eapply returns_post_bind; [apply returns_Linear_init | intros l1 [H1 H2]].
  eapply returns_post_bind; [apply returns_Linear_init | intros l2 [H3 H4]].
  apply returns_ret. unfold ffn_ok. simpl.
  rewrite H1, H2, H3, H4, !Nat.eqb_refl. reflexivity.
Qed.

Lemma returns_EncoderLayer_init hidden ffn_size rate att_rate heads :
  returns (EncoderLayer_init hidden ffn_size rate att_rate heads)
    (λ l, encoder_layer_ok l hidden heads = true).
Proof.
  unfold EncoderLayer_init.
  eapply returns_post_bind;
    [apply returns_MultiHeadAttention_init | intros att (Ha & Hh & _)].
  apply returns_bind. intros d1.
  eapply returns_post_bind; [apply returns_FeedForwardNetwork_init | intros f Hf].
  apply returns_bind. intros d2.
  apply returns_ret. unfold encoder_layer_ok. simpl.
  rewrite Ha, Hh, Hf, !Nat.eqb_refl. reflexivity.
Qed.

Lemma returns_init_layers n c :
  returns (init_layers n c)
    (λ ls, forallb (λ l, encoder_layer_ok l (cfg_hidden_dim c) (cfg_num_heads c)) ls
           = true).
Proof.
  induction n as [| n IH]; simpl.
  - apply returns_ret. reflexivity.
  - eapply returns_post_bind; [apply returns_EncoderLayer_init | intros l Hl].
    eapply returns_post_bind; [exact IH | intros ls Hls].
    apply returns_ret. simpl. rewrite Hl, Hls. reflexivity.
Qed.

Lemma returns_Graphormer_init c :
  returns (Graphormer_init c)
    (λ self, forward_ready self (num_node_feat c) = true ∧ padding_rows_zero self).
Proof.
  intros s self Hrun.
  assert (Hc : constructed c self) by (apply (decides_Graphormer_init c s), Hrun).
  pose proof (constructed_bias_tables c self Hc) as Hb.
  destruct Hc as (Hh & Hd & _ & _ & _ & _ & _ & _ & _ & _ & Hin & Hout & _).
  revert s self Hrun Hb Hh Hd Hin Hout.
  change (returns (Graphormer_init c)
            (λ self, bias_tables self = true → num_heads self = cfg_num_heads c →
                     hidden_dim self = cfg_hidden_dim c →
                     assigned (use_degree self) 64 (hidden_dim self)
                       (in_degree_encoder self) = true →
                     assigned (use_degree self) 64 (hidden_dim self)
                       (out_degree_encoder self) = true →
                     forward_ready self (num_node_feat c) = true
                     ∧ padding_rows_zero self)).
  unfold Graphormer_init.
  eapply returns_post_bind; [apply returns_Linear_init | intros atom [Ha1 Ha2]].
  eapply returns_post_bind; [apply returns_Embedding_init | intros lsp (_ & _ & Zlsp)].
  eapply returns_post_bind; [apply returns_init_if | intros nsp [_ Znsp]].
  eapply returns_post_bind; [apply returns_init_if | intros jac [_ Zjac]].
  eapply returns_post_bind; [apply returns_init_if | intros aa [_ Zaa]].
  eapply returns_post_bind; [apply returns_init_if | intros ind [_ Zind]].
  eapply returns_post_bind; [apply returns_init_if | intros outd [_ Zoutd]].
  apply returns_bind. intros idr.
  eapply returns_post_bind; [apply returns_init_layers | intros encoders Hls].
  eapply returns_post_bind; [apply returns_Embedding_init | intros gt (_ & Sgt & _)].
  apply returns_bind. intros gtvd.
  apply returns_ret. simpl. intros Hb _ _ Hin Hout.
  split.
  - unfold forward_ready, features_ok, stack_ok. simpl.
    rewrite Hb, (linear_dims_intro _ _ _ Ha1 Ha2),
      (assigned_opt_table _ _ _ _ Hin), (assigned_opt_table _ _ _ _ Hout).
    rewrite bool_decide_eq_true_2 by exact Sgt.
    rewrite Hls, Nat.eqb_refl. reflexivity.
  - unfold padding_rows_zero. simpl.
    repeat split; try assumption; apply Zlsp; reflexivity.
Qed.

Lemma returns_MultiHeadAttention_reset_parameters self :
  returns (MultiHeadAttention_reset_parameters self)
    (λ m, (∀ hidden, mha_ok m hidden = mha_ok self hidden)
          ∧ mha_num_heads m = mha_num_heads self
          ∧ att_dropout m = att_dropout self).
Proof.
  unfold MultiHeadAttention_reset_parameters.
  eapply returns_post_bind;
    [apply returns_Linear_reset_parameters | intros lq [Hq1 Hq2]].
  eapply returns_post_bind;
    [apply returns_Linear_reset_parameters | intros lk [Hk1 Hk2]].
  eapply returns_post_bind;
    [apply returns_Linear_reset_parameters | intros lv [Hv1 Hv2]].
  eapply returns_post_bind;
    [apply returns_Linear_reset_parameters | intros out [Ho1 Ho2]].
  apply returns_ret. split; [| split; reflexivity].
  intros hidden. unfold mha_ok, linear_dims. simpl.
  rewrite Hq1, Hq2, Hk1, Hk2, Hv1, Hv2, Ho1, Ho2. reflexivity.
Qed.

Lemma returns_FeedForwardNetwork_reset_parameters self :
  returns (FeedForwardNetwork_reset_parameters self)
    (λ f, ∀ hidden, ffn_ok f hidden = ffn_ok self hidden).
Proof.
  unfold FeedForwardNetwork_reset_parameters.
  eapply returns_post_bind;
    [apply returns_Linear_reset_parameters | intros l1 [H1 H2]].
  eapply returns_post_bind;
    [apply returns_Linear_reset_parameters | intros l2 [H3 H4]].
  apply returns_ret. intros hidden. unfold ffn_ok. simpl.
  rewrite H1, H2, H3, H4. reflexivity.
Qed.

Lemma returns_EncoderLayer_reset_parameters self :
  returns (EncoderLayer_reset_parameters self)
    (λ l, (∀ hidden heads,
             encoder_layer_ok l hidden heads = encoder_layer_ok self hidden heads)
          ∧ layer_eval l = layer_eval self).
Proof.
  unfold EncoderLayer_reset_parameters.
  eapply returns_post_bind;
    [apply returns_MultiHeadAttention_reset_parameters | intros att (Ha & Hh & Hd)].
  eapply returns_post_bind;
    [apply returns_FeedForwardNetwork_reset_parameters | intros f Hf].
  apply returns_ret. split.
  - intros hidden heads. unfold encoder_layer_ok. simpl.
    rewrite Ha, Hh, Hf. reflexivity.
  - unfold layer_eval. simpl. rewrite Hd. reflexivity.
Qed.

Lemma returns_reset_layers ls :
  returns (reset_layers ls)
    (λ ls', length ls' = length ls
            ∧ (∀ hidden heads,
                 forallb (λ l, encoder_layer_ok l hidden heads) ls'
                 = forallb (λ l, encoder_layer_ok l hidden heads) ls)
            ∧ forallb layer_eval ls' = forallb layer_eval ls).
Proof.
  induction ls as [| l ls IH]; simpl.
  - apply returns_ret. repeat split.
  - eapply returns_post_bind;
      [apply returns_EncoderLayer_reset_parameters | intros l' [Hl He]].
    eapply returns_post_bind; [exact IH | intros ls' (Hn & Hls & Hes)].
    apply returns_ret. simpl. rewrite Hn, He, Hes.
    split; [reflexivity |]. split; [| reflexivity].
    intros hidden heads. rewrite Hl, Hls. reflexivity.
Qed.

Lemma returns_table_reset e :
  returns (Embedding_reset_parameters e) (table_reset e).
Proof.
  eapply returns_weaken; [apply returns_Embedding_reset_parameters |].
  intros e' (Hn & Hd & _ & _ & Hz).
  split; [exact Hn |]. split; [exact Hd |].
  intros [Hp _]. apply Hz, Hp.
Qed.

Lemma returns_reset_attr name o :
  returns (reset_attr name o) (opt_table_reset o).
Proof.
  unfold reset_attr. destruct o as [e |]; simpl.
  - eapply returns_post_bind;
      [apply (returns_ret e (λ a, a = e)); reflexivity | intros e0 ->].
    eapply returns_post_bind; [apply returns_table_reset | intros e' H].
    apply returns_ret. exact H.
  - intros s o' H. discriminate.
Qed.

Lemma opt_table_reset_refl o : opt_table_reset o o.
Proof.
  destruct o as [e |]; simpl; [| exact I].
  split; [reflexivity |]. split; [reflexivity | trivial].
Qed.

Lemma returns_reset_if flag name o :
  returns (reset_if flag name o) (opt_table_reset o).
Proof.
  unfold reset_if. destruct flag; [apply returns_reset_attr |].
  apply returns_ret, opt_table_reset_refl.
Qed.

Lemma table_ok_reset n d e e' :
  table_reset e e' → table_ok n d e' = table_ok n d e.
Proof. intros (Hn & Hd & _). unfold table_ok. rewrite Hn, Hd. reflexivity. Qed.

Lemma opt_table_reset_eq flag n d o o' :
  opt_table_reset o o' → opt_table flag n d o' = opt_table flag n d o.
Proof.
  unfold opt_table. destruct flag; [| reflexivity].
  destruct o as [e |], o' as [e' |]; simpl; try contradiction; [| reflexivity].
  apply table_ok_reset.
Qed.

Lemma opt_zero_row_reset o o' :
  opt_table_reset o o' → opt_zero_row o → opt_zero_row o'.
Proof.
  destruct o as [e |], o' as [e' |]; simpl; try contradiction; [| trivial].
  intros (_ & _ & H). exact H.
Qed.

(** What [reset_parameters] leaves of a model: its sizes, flags and
    dropout modules, the graph token and its virtual distance. *)
Lemma returns_Graphormer_reset_parameters self :
  returns (Graphormer_reset_parameters self)
    (λ self', (∀ nf, forward_ready self' nf = forward_ready self nf)
              ∧ (padding_rows_zero self → padding_rows_zero self')
              ∧ graph_token self' = graph_token self
              ∧ graph_token_virtual_distance self'
                = graph_token_virtual_distance self
              ∧ eval_mode self' = eval_mode self
              ∧ length (layers self') = length (layers self)).
Proof.
  unfold Graphormer_reset_parameters.
  eapply returns_post_bind; [apply returns_reset_layers | intros ls (Hn & Hls & Hev)].
  eapply returns_post_bind;
    [apply returns_Linear_reset_parameters | intros atom [Ha1 Ha2]].
  eapply returns_post_bind; [apply returns_table_reset | intros lsp Hlsp].
  eapply returns_post_bind; [apply returns_reset_if | intros nsp Hnsp].
  eapply returns_post_bind; [apply returns_reset_if | intros jac Hjac].
  eapply returns_post_bind; [apply returns_reset_if | intros aa Haa].
  eapply returns_post_bind; [apply returns_reset_attr | intros ind Hind].
  eapply returns_post_bind; [apply returns_reset_attr | intros outd Houtd].
  apply returns_ret.
  split; [| split; [| split; [reflexivity | split; [reflexivity | split]]]].
  - intros nf.
    unfold forward_ready, bias_tables, features_ok, stack_ok, linear_dims. simpl.
    rewrite (table_ok_reset _ _ _ _ Hlsp), (opt_table_reset_eq _ _ _ _ _ Hnsp),
      (opt_table_reset_eq _ _ _ _ _ Hjac), (opt_table_reset_eq _ _ _ _ _ Haa),
      (opt_table_reset_eq _ _ _ _ _ Hind), (opt_table_reset_eq _ _ _ _ _ Houtd).
    rewrite Ha1, Ha2, Hls. reflexivity.
  - unfold padding_rows_zero. simpl.
    intros (Z1 & Z2 & Z3 & Z4 & Z5 & Z6).
    destruct Hlsp as (_ & _ & Hlsp).
    split; [apply Hlsp, Z1 |].
    repeat split; eapply opt_zero_row_reset; eassumption.
  - unfold eval_mode. simpl. rewrite Hev. reflexivity.
  - simpl. exact Hn.
Qed.

(** ** How MultiHeadAttention.__init__ ends *)

Lemma MultiHeadAttention_init_raises hidden rate heads st :
  ((heads =? 0) || (hidden <? heads) = true →
   (MultiHeadAttention_init hidden rate heads st).2 = Raise ZeroDivisionError)
  ∧ ((heads =? 0) || (hidden <? heads) = false → rate_ok rate = false →
     (MultiHeadAttention_init hidden rate heads st).2 = Raise ValueError).
Proof.
  unfold MultiHeadAttention_init. split.
  - intros H. destruct (Nat.eqb_spec heads 0) as [-> | Hne]; [reflexivity |].
    simpl in H. apply Nat.ltb_lt in H.
    unfold floordiv. rewrite (proj2 (Nat.eqb_neq _ _) Hne).
    rewrite (bind_lift_ok _ _ _ _ eq_refl).
    unfold pow_minus_half. rewrite Nat.div_small by exact H. reflexivity.
  - intros H Hr. apply orb_false_elim in H as [Hne Hle].
    apply Nat.eqb_neq in Hne. apply Nat.ltb_ge in Hle.
    unfold floordiv. rewrite (proj2 (Nat.eqb_neq _ _) Hne).
    rewrite (bind_lift_ok _ _ _ _ eq_refl).
    assert (Hatt : 0 < hidden / heads) by (apply Nat.div_str_pos; lia).
    unfold pow_minus_half. rewrite (proj2 (Nat.eqb_neq _ _)) by lia.
    rewrite (bind_lift_ok _ _ _ _ eq_refl).
    apply raises_after.
    eapply wp_decides; [apply decides_Linear_init | intros st1 lq _].
    apply raises_after.
    eapply wp_decides; [apply decides_Linear_init | intros st2 lk _].
    apply raises_after.
    eapply wp_decides; [apply decides_Linear_init | intros st3 lv _].
    unfold Dropout_init. unfold rate_ok in Hr. rewrite Hr. reflexivity.
Qed.

Lemma MultiHeadAttention_init_outcome hidden rate heads st :
  match (MultiHeadAttention_init hidden rate heads st).2 with
  | Ok m => 1 ≤ heads ≤ hidden ∧ rate_ok rate = true
            ∧ mha_num_heads m = heads
            ∧ att_size m = hidden / heads
            ∧ heads * att_size m ≤ hidden
            ∧ mha_ok m hidden = true
  | Raise e => if (heads =? 0) || (hidden <? heads)
               then e = ZeroDivisionError
               else e = ValueError ∧ rate_ok rate = false
  end.
Proof.
  destruct (decides_MultiHeadAttention_init hidden rate heads st) as [Hok _].
  pose proof (returns_MultiHeadAttention_init hidden rate heads st) as Hret.
  destruct (MultiHeadAttention_init_raises hidden rate heads st) as [Hz Hv].
  destruct (MultiHeadAttention_init hidden rate heads st).2 as [m | e] eqn:E.
  - cbn [is_ok] in Hok. symmetry in Hok.
    apply andb_prop in Hok as [Hok Hr]. apply andb_prop in Hok as [H1 H2].
    apply Nat.leb_le in H1, H2.
    destruct (Hret m eq_refl) as (Hm & Hh & Ha & _).
    repeat split; try assumption.
    rewrite Ha. apply Nat.Div0.mul_div_le.
  - destruct ((heads =? 0) || (hidden <? heads)) eqn:C.
    + specialize (Hz eq_refl). congruence.
    + apply orb_false_elim in C as [C1 C2].
      apply Nat.eqb_neq in C1. apply Nat.ltb_ge in C2.
      cbn [is_ok] in Hok.
      rewrite (proj2 (Nat.leb_le 1 heads)) in Hok by lia.
      rewrite (proj2 (Nat.leb_le heads hidden)) in Hok by lia.
      cbn [andb] in Hok. symmetry in Hok.
      split; [| exact Hok].
      specialize (Hv eq_refl Hok). congruence.
Qed.

(** ** Attributes of the batch that [forward] reads *)

Lemma getattr_insert_ne (data : gmap string positive) k l name :
  k ≠ name → getattr (<[k:=l]> data) name = getattr data name.
Proof. intros H. unfold getattr. rewrite lookup_insert_ne by exact H. reflexivity. Qed.

Lemma getattr_insert (data : gmap string positive) k l :
  getattr (<[k:=l]> data) k = mret l.
Proof. unfold getattr. rewrite lookup_insert_eq. reflexivity. Qed.

Lemma bind_congr {A C} (m1 m2 : M A) (f : A → M C) st :
  m1 st = m2 st → (m1 ≫= f) st = (m2 ≫= f) st.
Proof. intros H. unfold mbind, M_bind. rewrite H. reflexivity. Qed.

(** X11.  [forward] looks the attribute [edge_index] of the batch up
    and never uses it: whichever object the attribute names, a tensor
    or not, the state and the result of the call are the same. *)
Theorem edge_index_is_unused self data perturb l l' st :
  data !! "edge_index" = Some l →
  Graphormer_forward self (<["edge_index":=l']> data) perturb st
  = Graphormer_forward self data perturb st.
Proof.
  intros Hl. unfold Graphormer_forward. apply bind_congr.
  unfold Graphormer_forward_bias.
  rewrite (getattr_insert_ne data "edge_index" l' "x"),
    (getattr_insert_ne data "edge_index" l' "attn_bias"),
    (getattr_insert_ne data "edge_index" l' "len_shortest_path"),
    (getattr_insert_ne data "edge_index" l' "in_degree"),
    (getattr_insert_ne data "edge_index" l' "out_degree"),
    (getattr_insert_ne data "edge_index" l' "num_shortest_path"),
    (getattr_insert_ne data "edge_index" l' "undir_jac"),
    (getattr_insert_ne data "edge_index" l' "undir_aa") by discriminate.
  destruct (data !! "x") as [lx |] eqn:Dx.
  - rewrite !(bind_ok _ _ _ _ _ (getattr_some _ _ _ st Dx)). cbv beta.
    rewrite (bind_ok _ _ _ _ _
               (getattr_some (<["edge_index":=l']> data) _ _ st (lookup_insert_eq _ _ _))).
    rewrite (bind_ok _ _ _ _ _ (getattr_some _ _ _ st Hl)).
    reflexivity.
  - rewrite !(bind_raise _ _ _ _ _ (getattr_none _ _ st Dx)). reflexivity.
Qed.

(** X12.  Node features with fewer than two dimensions make [forward]
    raise [ValueError] when it unpacks [x.size()[:2]], before any
    tensor is built. *)
Theorem forward_needs_two_dimensional_x self data perturb st b :
  holds data st b → length (shape (b_x b)) < 2 →
  Graphormer_forward self data perturb st = (st, Raise ValueError).
Proof.
  intros Hh Hlen.
  destruct Hh as ((lx & Dx & Hx) & [le De] & (lb & Db & Hb) & Hlsp & Hin & Hout & _).
  unfold Graphormer_forward. apply bind_raise.
  unfold Graphormer_forward_bias.
  rewrite (bind_ok _ _ _ _ _ (getattr_some _ _ _ st Dx)).
  rewrite (bind_ok _ _ _ _ _ (getattr_some _ _ _ st De)).
  rewrite (bind_ok _ _ _ _ _ (getattr_some _ _ _ st Db)).
  rewrite (bind_ok _ _ _ _ _ (read_clamp_some _ _ _ _ _ st Hlsp)).
  rewrite (bind_ok _ _ _ _ _ (read_clamp_some _ _ _ _ _ st Hin)).
  rewrite (bind_ok _ _ _ _ _ (read_clamp_some _ _ _ _ _ st Hout)).
  rewrite (bind_ok _ _ _ _ _ (load_F_some _ _ st Hx)).
  apply bind_lift_raise. unfold size2.
  destruct (shape (b_x b)) as [| g [| n s]]; simpl in Hlen; [reflexivity .. | lia].
Qed.

(** ** Symmetric inputs *)

Lemma clamp_long_symmetric lo hi c N :
  cell_symmetric c N → symmetric (clamp_long lo hi c) N.
Proof.
  intros H g i j Hi Hj.
  destruct c as [t | t]; simpl in *; rewrite (H g i j Hi Hj); reflexivity.
Qed.

Lemma mul_scalar_symmetric c k N :
  cell_symmetric c N → cell_symmetric (mul_scalar c k) N.
Proof.
  destruct c as [t | t]; intros H g i j Hi Hj; simpl;
    rewrite (H g i j Hi Hj); reflexivity.
Qed.

Lemma structural_symmetric self b N g h i j :
  symmetric_batch b N → i < N → j < N →
  structural self b g h i j = structural self b g h j i.
Proof.
  intros (_ & Hlsp & Hnsp & Hjac & Haa) Hi Hj.
  unfold structural, after_jac, after_num_spd, channel_term, spd_term, spd_index,
    num_spd_index, jac_index, aa_index, bucket_weight.
  rewrite (clamp_long_symmetric 0 39 _ N Hlsp g i j Hi Hj).
  destruct (b_num_shortest_path b) as [t1 |], (b_undir_jac b) as [t2 |],
    (b_undir_aa b) as [t3 |]; simpl in Hnsp, Hjac, Haa; simpl fmap; cbv beta iota;
    rewrite ?(clamp_long_symmetric 0 39 _ N Hnsp g i j Hi Hj),
      ?(clamp_long_symmetric 0 39 _ N (mul_scalar_symmetric _ 30 N Hjac) g i j Hi Hj),
      ?(clamp_long_symmetric 0 39 _ N (mul_scalar_symmetric _ 10 N Haa) g i j Hi Hj);
    reflexivity.
Qed.

Lemma added_term_symmetric self b N g h i j :
  symmetric_batch b N → i < S N → j < S N →
  added_term self b g h i j = added_term self b g h j i.
Proof.
  intros Hs Hi Hj. unfold added_term.
  destruct i as [| i], j as [| j]; try reflexivity.
  apply structural_symmetric with N; [exact Hs | lia | lia].
Qed.

(** ** How MultiHeadAttention.forward ends *)

Lemma ends_bind {A C} (m : M A) (f : A → M C) st (P : result C → Prop) :
  wp m st (λ st1 a, ends (f a) st1 P) → ends (m ≫= f) st P.
Proof.
  intros (st1 & a & Hm & Hf). unfold ends, mbind, M_bind. rewrite Hm. exact Hf.
Qed.

Lemma ends_lift_raise {A C} (r : result A) (f : A → M C) e st (P : result C → Prop) :
  r = Raise e → P (Raise e) → ends (lift r ≫= f) st P.
Proof. intros -> H. exact H. Qed.

Lemma ends_ret {A} (a : A) st (P : result A → Prop) : P (Ok a) → ends (mret a) st P.
Proof. intros H. exact H. Qed.

Lemma ends_raise {A} e st (P : result A → Prop) :
  P (Raise e) → ends (raise e : M A) st P.
Proof. intros H. exact H. Qed.

Lemma matmul_mismatch (t u : tensor F) a b m k k' n :
  k ≠ k' → shape t = [a; b; m; k] → shape u = [a; b; k'; n] →
  matmul t u = Raise RuntimeError.
Proof.
  intros Hk Ht Hu. unfold matmul. rewrite Ht, Hu. simpl.
  rewrite !broadcast_dim_refl. simpl.
  rewrite (proj2 (Nat.eqb_neq _ _) Hk). reflexivity.
Qed.

(** From the three projections split into heads to the result: the
    keys and the values must be equally many, and the assertion
    compares the shape of the result with the shape of the query. *)
Lemma MultiHeadAttention_forward_outcome self hidden (q k v : tensor F) attn_bias st
  b n m m' (q2 k2 v2 : tensor F) :
  let h := mha_num_heads self in
  let d := att_size self in
  mha_ok self hidden = true →
  0 < b →
  size_at q 0 = Ok b →
  (Linear_forward (linear_q self) q ≫= view [Some b; None; Some h; Some d]) = Ok q2 →
  (Linear_forward (linear_k self) k ≫= view [Some b; None; Some h; Some d]) = Ok k2 →
  (Linear_forward (linear_v self) v ≫= view [Some b; None; Some h; Some d]) = Ok v2 →
  shape q2 = [b; n; h; d] → shape k2 = [b; m; h; d] → shape v2 = [b; m'; h; d] →
  match attn_bias with Some t => shape t = [b; h; n; m] | None => True end →
  ends (MultiHeadAttention_forward self q k v attn_bias) st
    (λ r, match r with
          | Ok out => m = m' ∧ shape out = [b; n; hidden] ∧ shape q = [b; n; hidden]
          | Raise e => if m =? m'
                       then e = AssertionError ∧ shape q ≠ [b; n; hidden]
                       else e = RuntimeError
          end).
Proof.
  intros h d Hok Hb Hsz Hq2 Hk2 Hv2 Sq2 Sk2 Sv2 Hbias.
  unfold mha_ok in Hok. fold h in Hok. fold d in Hok.
  apply andb_prop in Hok as [Hok Lo]. apply andb_prop in Hok as [Hok _].
  apply andb_prop in Hok as [Hok _]. apply andb_prop in Hok as [Hok _].
  apply andb_prop in Hok as [Hh Hd].
  apply Nat.ltb_lt in Hh, Hd.
  unfold MultiHeadAttention_forward. fold h. fold d.
  apply ends_bind, wp_lift with b; [exact Hsz |].
  apply ends_bind, wp_lift with q2; [exact Hq2 |].
  apply ends_bind, wp_lift with k2; [exact Hk2 |].
  apply ends_bind, wp_lift with v2; [exact Hv2 |].
  destruct (transpose_1_2_shape q2 _ _ _ _ Sq2) as (q3 & Hq3 & Sq3).
  apply ends_bind, wp_lift with q3; [exact Hq3 |].
  destruct (transpose_1_2_shape v2 _ _ _ _ Sv2) as (v3 & Hv3 & Sv3).
  apply ends_bind, wp_lift with v3; [exact Hv3 |].
  destruct (transpose_1_2_shape k2 _ _ _ _ Sk2) as (k3 & Hk3 & Sk3).
  destruct (transpose_2_3_shape k3 _ _ _ _ Sk3) as (k4 & Hk4 & Sk4).
  apply ends_bind, wp_lift with k4; [rewrite Hk3; exact Hk4 |].
  destruct (matmul_shape (tmap (λ a, fmul a (scale self)) q3) k4 b h n d m Sq3 Sk4)
    as (x1 & Hx1 & Sx1).
  apply ends_bind, wp_lift with x1; [exact Hx1 |].
  apply ends_bind.
  assert (Hadd : wp (match attn_bias with
                     | Some bias => lift (add x1 bias)
                     | None => mret x1
                     end) st (λ st1 y, st1 = st ∧ shape y = [b; h; n; m])).
  { destruct attn_bias as [bias |].
    - destruct (add_same_shape x1 bias _ Sx1 Hbias) as (y & Hy & Sy & _).
      apply wp_lift with y; [exact Hy | split; [reflexivity | exact Sy]].
    - apply wp_ret. split; [reflexivity | exact Sx1]. }
  destruct Hadd as (st1 & x2 & Hrun & -> & Sx2).
  exists st, x2. split; [exact Hrun |].
  destruct (softmax_shape x2 _ _ _ _ Sx2) as (x3 & Hx3 & Sx3).
  apply ends_bind, wp_lift with x3; [exact Hx3 |].
  apply ends_bind, wp_Dropout_forward. intros st1 x4 Sx4. rewrite Sx3 in Sx4.
  destruct (Nat.eqb_spec m m') as [<- | Hne].
  - destruct (matmul_shape x4 v3 b h n m d Sx4 Sv3) as (x5 & Hx5 & Sx5).
    apply ends_bind, wp_lift with x5; [exact Hx5 |].
    destruct (transpose_1_2_shape x5 _ _ _ _ Sx5) as (x6 & Hx6 & Sx6).
    apply ends_bind, wp_lift with x6; [exact Hx6 |].
    destruct (view_merge_heads x6 b n h d Hb Hh Hd Sx6) as (x7 & Hx7 & Sx7).
    apply ends_bind, wp_lift with x7; [exact Hx7 |].
    destruct (Linear_forward_shape _ x7 b n _ _ Lo Sx7) as (x8 & Hx8 & Sx8).
    apply ends_bind, wp_lift with x8; [exact Hx8 |].
    rewrite Sx8. case_bool_decide as Hshape.
    + apply ends_ret. split; [reflexivity |]. split; [exact Sx8 | congruence].
    + apply ends_raise. split; [reflexivity | congruence].
  - apply ends_lift_raise with RuntimeError; [| reflexivity].
    apply matmul_mismatch with b h n m m' d; assumption.
Qed.

Lemma view_split_heads_flat (t : tensor F) b h d :
  0 < b → 0 < h → 0 < d → shape t = [b; h * d] →
  ∃ y, view [Some b; None; Some h; Some d] t = Ok y ∧ shape y = [b; 1; h; d].
Proof.
  intros Hb Hh Hd Hs. unfold view, infer_size. rewrite Hs.
  cbn [omap id filter list_filter length decide_rel numel foldr mbind option_bind].
  simpl.
  rewrite !Nat.mul_1_r.
  assert (Hk : 0 < b * (h * d)) by nia.
  rewrite Nat.Div0.mod_same, Nat.div_same by lia.
  destruct (b * (h * d)) as [| k] eqn:E; [lia |].
  simpl. eexists. split; reflexivity.
Qed.

(** ** Clamping into buckets *)

Lemma clampZ_cases lo hi z :
  (lo ≤ hi)%Z →
  clampZ lo hi z = if (z <? lo)%Z then lo else if (hi <? z)%Z then hi else z.
Proof.
  intros H. unfold clampZ.
  destruct (Z.ltb_spec z lo), (Z.ltb_spec hi z); lia.
Qed.

Lemma clampZ_saturate hi z : (0 ≤ hi)%Z → clampZ 0 hi z = saturate hi z.
Proof. intros H. unfold saturate. apply clampZ_cases, H. Qed.

Lemma saturate_range hi z : (0 ≤ hi)%Z → (0 ≤ saturate hi z ≤ hi)%Z.
Proof. intros H. rewrite <- clampZ_saturate by exact H. apply clampZ_range, H. Qed.

Lemma saturate_in_range hi z : (0 ≤ z ≤ hi)%Z → saturate hi z = z.
Proof.
  intros H. rewrite <- clampZ_saturate by lia. apply clampZ_in_range, H.
Qed.

(** What clamping and conversion make of a float. *)
Lemma long_clamp_val_floor lo hi v :
  (0 ≤ lo ≤ hi)%Z → (hi < 2 ^ 63)%Z →
  long_val (clamp_val lo hi v)
  = match v with
    | FNaN => int64_min
    | FInf negative => if negative then lo else hi
    | FFin p => clampZ lo hi (Qfloor p)
    end.
Proof.
  intros [H0 H1] H2.
  assert (Hq : (inject_Z lo <= inject_Z hi)%Q) by (rewrite <- Zle_Qle; exact H1).
  destruct v as [| [|] | q]; simpl clamp_val.
  - reflexivity.
  - rewrite (long_val_trunc lo hi); [| exact H0 | exact H2 | apply clampQ_range, H1].
    rewrite trunc_clamp_floor by lia. rewrite Qfloor_Z.
    apply clampZ_in_range. lia.
  - rewrite (long_val_trunc lo hi);
      [apply truncQ_inject_Z | exact H0 | exact H2 |].
    split; [exact Hq | apply Qle_refl].
  - rewrite (long_val_trunc lo hi); [| exact H0 | exact H2 | apply clampQ_range, H1].
    apply trunc_clamp_floor. lia.
Qed.

Lemma clamp_long_bucket hi c ix z :
  (0 ≤ hi < 2 ^ 63)%Z → bucket_at hi c ix = Some z →
  entry (clamp_long 0 hi c) ix = z.
Proof.
  intros H Hb. destruct c as [t | t]; simpl in *.
  - rewrite long_clamp_val_floor by lia.
    destruct (fvalue (entry t ix)) as [| [|] | q]; simpl in Hb;
      [discriminate | | |]; injection Hb as <-; try reflexivity.
    apply clampZ_saturate. lia.
  - injection Hb as <-. apply clampZ_saturate. lia.
Qed.

Lemma score_bucket_at_mul hi k c ix :
  score_bucket_at hi k c ix = bucket_at hi (mul_scalar c k) ix.
Proof. destruct c; reflexivity. Qed.

Lemma bucket_at_range hi c ix z :
  (0 ≤ hi)%Z → bucket_at hi c ix = Some z → (0 ≤ z ≤ hi)%Z.
Proof.
  intros H Hb. destruct c as [t | t]; simpl in Hb.
  - destruct (fvalue (entry t ix)) as [| [|] | q]; simpl in Hb;
      [discriminate | | |]; injection Hb as <-; try lia.
    apply saturate_range, H.
  - injection Hb as <-. apply saturate_range, H.
Qed.

Lemma bucket_at_numeric hi c ix :
  numeric_at c ix = true ↔ is_Some (bucket_at hi c ix).
Proof.
  destruct c as [t | t]; simpl.
  - destruct (fvalue (entry t ix)) as [| [|] | q]; simpl; split;
      first [discriminate | reflexivity | eexists; reflexivity
            | intros [z Hz]; discriminate Hz].
  - split; [eexists; reflexivity | reflexivity].
Qed.

(** A tensor with the smallest int64 at an index of its shape is
    rejected by every table. *)
Lemma lookup_of_int64_min e (t : tensor Z) ix :
  in_bounds ix (shape t) → entry t ix = int64_min →
  Embedding_forward e t = Raise IndexError.
Proof.
  intros Hb He. unfold Embedding_forward.
  destruct (forallb _ _) eqn:E; [| reflexivity].
  rewrite forallb_forall in E. specialize (E ix (in_indices _ _ Hb)).
  rewrite He in E. unfold index_ok in E. discriminate E.
Qed.

Lemma lookup_after_clamp e hi c s :
  (0 ≤ hi < Z.of_nat (num_embeddings e))%Z → (hi < 2 ^ 63)%Z →
  index_tensor c s = true →
  is_ok (Embedding_forward e (clamp_long 0 hi c)) = true.
Proof.
  intros H H' Hc. rewrite Embedding_forward_ok; [reflexivity |].
  apply clamp_long_rows with s; assumption.
Qed.

Lemma lookup_of_nan e hi c ix :
  (0 ≤ hi < 2 ^ 63)%Z → in_bounds ix (cell_shape c) → bucket_at hi c ix = None →
  Embedding_forward e (clamp_long 0 hi c) = Raise IndexError.
Proof.
  intros H Hb Hn. apply lookup_of_int64_min with ix.
  - rewrite shape_clamp_long. exact Hb.
  - destruct c as [t | t]; simpl in *; [| discriminate Hn].
    rewrite long_clamp_val_floor by lia.
    destruct (fvalue (entry t ix)) as [| [|] | q]; simpl in Hn;
      [reflexivity | discriminate Hn ..].
Qed.


(** ** The degree vectors of a model without degree encoding *)

Lemma related_bind {A C} (R : C → C → Prop) (m : M A) (f1 f2 : A → M C) st :
  (∀ a st', m st = (st', Ok a) → related R (f1 a st') (f2 a st')) →
  related R ((m ≫= f1) st) ((m ≫= f2) st).
Proof.
  intros H. unfold mbind, M_bind.
  destruct (m st) as [st' [a | e]]; [apply H; reflexivity | split; reflexivity].
Qed.

Lemma related_ret {A} (R : A → A → Prop) (a b : A) st :
  R a b → related R ((mret a : M A) st) ((mret b : M A) st).
Proof. intros H. split; [reflexivity | exact H]. Qed.

Lemma bind_related {A C} (R : A → A → Prop) (m1 m2 : M A) (K : A → M C) st :
  related R (m1 st) (m2 st) →
  (∀ a b s, R a b → K a s = K b s) →
  (m1 ≫= K) st = (m2 ≫= K) st.
Proof.
  intros [Hs Hr] HK. unfold mbind, M_bind.
  destruct (m1 st) as [s1 [a1 | e1]], (m2 st) as [s2 [a2 | e2]];
    simpl in *; subst; try contradiction; [apply HK, Hr | reflexivity].
Qed.

Lemma getattr_inv data name st st' l :
  getattr data name st = (st', Ok l) → st' = st ∧ data !! name = Some l.
Proof.
  unfold getattr. destruct (data !! name) as [l0 |]; intros [= <- <-]; auto.
Qed.

Lemma read_clamp_inv data name lo hi st st' t :
  (l ← getattr data name; c ← load l; mret (clamp_long lo hi c)) st = (st', Ok t) →
  st' = st.
Proof.
  unfold getattr, load, mbind, M_bind, mret, M_ret, raise.
  destruct (data !! name) as [l |]; [| discriminate].
  destruct (heap st !! l) as [c |]; intros [= <-]; reflexivity.
Qed.

Lemma read_clamp_at l lo hi c st :
  heap st !! l = Some c →
  (l ← mret l; c ← load l; mret (clamp_long lo hi c)) st
  = (st, Ok (clamp_long lo hi c)).
Proof.
  intros H.
  rewrite (bind_ok (mret l) _ st st l eq_refl).
  rewrite (bind_ok _ _ _ _ _ (load_some _ _ st H)). reflexivity.
Qed.

Lemma forward_bias_but_degrees self data st l2 l2' t1 t1' t2 t2' :
  has_attr data st "in_degree" t1 →
  has_attr data st "out_degree" t1' →
  heap st !! l2 = Some t2 → heap st !! l2' = Some t2' →
  related same_but_degrees
    (Graphormer_forward_bias self (<["in_degree":=l2]> (<["out_degree":=l2']> data)) st)
    (Graphormer_forward_bias self data st).
Proof.
  intros Hin Hout H2 H2'.
  unfold Graphormer_forward_bias.
  set (data1 := <["out_degree":=l2']> data).
  rewrite (getattr_insert_ne data1 "in_degree" l2 "x"),
    (getattr_insert_ne data1 "in_degree" l2 "edge_index"),
    (getattr_insert_ne data1 "in_degree" l2 "attn_bias"),
    (getattr_insert_ne data1 "in_degree" l2 "len_shortest_path"),
    (getattr_insert_ne data1 "in_degree" l2 "out_degree"),
    (getattr_insert_ne data1 "in_degree" l2 "num_shortest_path"),
    (getattr_insert_ne data1 "in_degree" l2 "undir_jac"),
    (getattr_insert_ne data1 "in_degree" l2 "undir_aa") by discriminate.
  rewrite (getattr_insert data1 "in_degree" l2).
  subst data1.
  rewrite (getattr_insert_ne data "out_degree" l2' "x"),
    (getattr_insert_ne data "out_degree" l2' "edge_index"),
    (getattr_insert_ne data "out_degree" l2' "attn_bias"),
    (getattr_insert_ne data "out_degree" l2' "len_shortest_path"),
    (getattr_insert_ne data "out_degree" l2' "num_shortest_path"),
    (getattr_insert_ne data "out_degree" l2' "undir_jac"),
    (getattr_insert_ne data "out_degree" l2' "undir_aa") by discriminate.
  rewrite (getattr_insert data "out_degree" l2').
  apply related_bind. intros lx s1 H. apply getattr_inv in H as [-> _].
  apply related_bind. intros le s1 H. apply getattr_inv in H as [-> _].
  apply related_bind. intros lb s1 H. apply getattr_inv in H as [-> _].
  apply related_bind. intros lsp s1 H. apply read_clamp_inv in H as ->.
  rewrite (bind_ok _ _ _ _ _ (read_clamp_at l2 0 63 t2 st H2)).
  rewrite (bind_ok _ _ _ _ _ (read_clamp_some data "in_degree" 0 63 t1 st Hin)).
  cbv beta.
  rewrite (bind_ok _ _ _ _ _ (read_clamp_at l2' 0 63 t2' st H2')).
  rewrite (bind_ok _ _ _ _ _ (read_clamp_some data "out_degree" 0 63 t1' st Hout)).
  cbv beta.
  apply related_bind. intros xv s1 _.
  apply related_bind. intros [n_graph n_node] s2 _.
  repeat (apply related_bind; intros ? ? _).
  apply related_ret. repeat split.
Qed.

(** X17.  For a model without degree encoding the degree vectors have
    to be there, but what they hold is never looked at: replacing
    [data.in_degree] and [data.out_degree] by any other tensors,
    integer or float, changes neither the state nor the result of
    [forward]. *)
Theorem degrees_unused_without_degree_encoding self data perturb st
  l2 l2' t1 t1' t2 t2' :
  use_degree self = false →
  has_attr data st "in_degree" t1 →
  has_attr data st "out_degree" t1' →
  heap st !! l2 = Some t2 → heap st !! l2' = Some t2' →
  Graphormer_forward self (<["in_degree":=l2]> (<["out_degree":=l2']> data)) perturb st
  = Graphormer_forward self data perturb st.
Proof.
  intros Hdeg Hin Hout H2 H2'.
  unfold Graphormer_forward. rewrite Hdeg.
  apply bind_related with same_but_degrees.
  - apply forward_bias_but_degrees with t1 t1' t2 t2'; assumption.
  - intros [x1 g1 i1 o1 b1] [x2 g2 i2 o2 b2] s (Hx & Hg & Hb).
    simpl in *. subst. reflexivity.
Qed.

(** ** A baseline bias of the wrong size *)

Lemma broadcast_dim_none n m :
  n ≠ m → n ≠ 1 → m ≠ 1 → broadcast_dim n m = None.
Proof.
  intros H1 H2 H3. unfold broadcast_dim.
  rewrite (proj2 (Nat.eqb_neq _ _) H1), (proj2 (Nat.eqb_neq _ _) H2),
    (proj2 (Nat.eqb_neq _ _) H3). reflexivity.
Qed.

(** The block [1:, 1:] of a bias with [M] rows is not [N] wide: either
    the sum cannot be formed, or it cannot be written back. *)
Lemma block_update_mismatch (cur v : tensor F) G H M N :
  shape cur = [G; H; M; M] → shape v = [G; H; N; N] →
  N ≠ 1 → M - 1 ≠ N →
  (getitem [All; All; From 1; From 1] cur ≫= λ s, add s v) = Raise RuntimeError
  ∨ ∃ rhs, (getitem [All; All; From 1; From 1] cur ≫= λ s, add s v) = Ok rhs
           ∧ setitem [All; All; From 1; From 1] cur rhs = Raise RuntimeError.
Proof.
  intros Sc Sv HN HM.
  unfold getitem. rewrite Sc. simpl.
  unfold add, broadcast2. simpl. rewrite Sv.
  unfold broadcast_shapes. simpl.
  destruct (Nat.eq_dec (M - 1) 1) as [E | E].
  - right. rewrite E, !broadcast_dim_1_l, !broadcast_dim_refl. simpl.
    eexists. split; [reflexivity |].
    unfold setitem. rewrite Sc. simpl. rewrite E.
    unfold expandable, broadcast_shapes. simpl.
    rewrite !broadcast_dim_1_r, !broadcast_dim_refl. simpl.
    rewrite bool_decide_eq_false_2; [reflexivity |].
    intros [= H1]. congruence.
  - left. rewrite (broadcast_dim_none _ _ HM E HN). reflexivity.
Qed.

Lemma ends_setitem_add_fails l sels v cur st (P : result unit → Prop) :
  heap st !! l = Some (CellF cur) →
  ((getitem sels cur ≫= λ s, add s v) = Raise RuntimeError
   ∨ ∃ rhs, (getitem sels cur ≫= λ s, add s v) = Ok rhs
            ∧ setitem sels cur rhs = Raise RuntimeError) →
  P (Raise RuntimeError) →
  ends (setitem_add l sels v) st P.
Proof.
  intros Hl Hfail HP. unfold setitem_add.
  apply ends_bind, wp_load_F with cur; [exact Hl |].
  destruct Hfail as [Hr | (rhs & Hr & Hw)].
  - apply ends_lift_raise with RuntimeError; assumption.
  - apply ends_bind, wp_lift with rhs; [exact Hr |].
    apply ends_bind, wp_load_F with cur; [exact Hl |].
    apply ends_lift_raise with RuntimeError; assumption.
Qed.

(** An empty block [1:, 1:] takes an empty structural sum. *)
Lemma block_update_empty (cur v : tensor F) G H :
  shape cur = [G; H; 0; 0] → shape v = [G; H; 0; 0] →
  ∃ rhs new, (getitem [All; All; From 1; From 1] cur ≫= λ s, add s v) = Ok rhs
             ∧ setitem [All; All; From 1; From 1] cur rhs = Ok new
             ∧ shape new = [G; H; 0; 0].
Proof.
  intros Sc Sv.
  unfold getitem. rewrite Sc. simpl.
  unfold add, broadcast2. simpl. rewrite Sv.
  unfold broadcast_shapes. simpl. rewrite !broadcast_dim_refl. simpl.
  eexists. eexists. split; [reflexivity |].
  unfold setitem. rewrite Sc. simpl.
  unfold expandable, broadcast_shapes. simpl. rewrite !broadcast_dim_refl. simpl.
  rewrite bool_decide_eq_true_2 by reflexivity.
  split; reflexivity.
Qed.

(** The first column of a bias without columns cannot be read. *)
Lemma column_update_empty l (v cur : tensor F) G H st :
  heap st !! l = Some (CellF cur) → shape cur = [G; H; 0; 0] →
  setitem_add l [All; All; From 1; At 0] v st = (st, Raise IndexError).
Proof.
  intros Hl Sc. unfold setitem_add.
  rewrite (bind_ok _ _ _ _ _ (load_F_some _ _ st Hl)).
  apply bind_lift_raise. unfold getitem. rewrite Sc. reflexivity.
Qed.

Lemma forward_bias_wrong_baseline self data st b G N M :
  bias_tables self = true →
  structural_shapes self b G N = true →
  shape (b_attn_bias b) = [G; M; M] →
  holds data st b →
  N ≠ 1 → M ≠ S N →
  (Graphormer_forward_bias self data st).2
  = Raise (if (M =? 0) && (N =? 0) then IndexError else RuntimeError).
Proof.
  intros Ht Hs Sb Hh HN HM.
  unfold bias_tables in Ht.
  apply andb_prop in Ht as [Ht Hvd]. apply andb_prop in Ht as [Ht Taa].
  apply andb_prop in Ht as [Ht Tjac]. apply andb_prop in Ht as [Tlsp Tnsp].
  apply bool_decide_eq_true in Hvd.
  unfold structural_shapes in Hs.
  apply andb_prop in Hs as [Hs Saa]. apply andb_prop in Hs as [Hs Sjac].
  apply andb_prop in Hs as [Hs Snsp]. apply andb_prop in Hs as [Sx Slsp].
  apply Nat.leb_le in Sx.
  destruct Hh as ((lx & Dx & Hx) & [le De] & (lb & Db & Hb) & Hlsp & Hin & Hout
                  & Hnsp & Hjac & Haa).
  set (H := num_heads self) in *.
  change (ends (Graphormer_forward_bias self data) st
            (λ r, r = Raise (if (M =? 0) && (N =? 0) then IndexError
                             else RuntimeError))).
  unfold Graphormer_forward_bias.
  apply ends_bind, wp_getattr with lx; [exact Dx |].
  apply ends_bind, wp_getattr with le; [exact De |].
  apply ends_bind, wp_getattr with lb; [exact Db |].
  apply ends_bind, wp_read_clamp with (b_len_shortest_path b); [exact Hlsp |].
  apply ends_bind, wp_read_clamp with (b_in_degree b); [exact Hin |].
  apply ends_bind, wp_read_clamp with (b_out_degree b); [exact Hout |].
  apply ends_bind, wp_load_F with (b_x b); [exact Hx |].
  destruct (shape (b_x b)) as [| g0 [| n0 rest]] eqn:Ex; simpl in Sx; try lia.
  apply ends_bind, wp_lift with (g0, n0); [unfold size2; rewrite Ex; reflexivity |].
  apply ends_bind, wp_load_F with (b_attn_bias b); [exact Hb |].
  apply ends_bind, wp_alloc. intros lc Hlc.
  apply ends_bind, wp_load_F with (b_attn_bias b); [apply lookup_insert_eq |].
  destruct (repeat_heads_spec (b_attn_bias b) G H M Sb) as (r & Hr & Hrs & Hre).
  apply ends_bind, wp_lift with r; [exact Hr |].
  apply ends_bind, wp_alloc. intros lg Hlg. simpl in Hlg.
  assert (Hlg0 : heap st !! lg = None).
  { destruct (decide (lg = lc)) as [-> | Hne]; [exact Hlc |].
    rewrite lookup_insert_ne in Hlg by congruence. exact Hlg. }
  assert (E1 : extends st (State (<[lg:=CellF r]>
                                    (<[lc:=CellF (b_attn_bias b)]> (heap st)))
                                 (rng st))).
  { do 2 (apply extends_insert; [| assumption]).
    destruct st. apply extends_refl. }
  destruct (encode_spec (len_shortest_path_encoder self) (spd_index b) G N)
    as (sp0 & Hsp0 & Ss0 & Es0).
  { apply andb_prop in Tlsp as [Hn _]. apply Nat.eqb_eq in Hn. rewrite Hn.
    apply clamp_long_rows with [G; N; N]; [lia | lia | exact Slsp]. }
  { unfold spd_index. rewrite shape_clamp_long.
    apply index_tensor_inv in Slsp as [Slsp _]. exact Slsp. }
  apply andb_prop in Tlsp as [_ Hd]. apply Nat.eqb_eq in Hd. rewrite Hd in Ss0.
  apply ends_bind, wp_lift with sp0; [exact Hsp0 |].
  apply ends_bind.
  apply wp_channel_Z with (G := G) (H := H) (N := N) (o := b_num_shortest_path b);
    [exact Tnsp | exact Snsp | exact (has_opt_extends _ _ _ _ _ E1 Hnsp)
    | exact Ss0 |].
  intros sp1 Ss1 _.
  apply ends_bind.
  apply (wp_channel_score _ _ _ _ 30 (b_undir_jac b)) with (G := G) (H := H) (N := N);
    [exact Tjac | exact Sjac | exact (has_opt_extends _ _ _ _ _ E1 Hjac)
    | exact Ss1 |].
  intros sp2 Ss2 _.
  apply ends_bind.
  apply (wp_channel_score _ _ _ _ 10 (b_undir_aa b)) with (G := G) (H := H) (N := N);
    [exact Taa | exact Saa | exact (has_opt_extends _ _ _ _ _ E1 Haa)
    | exact Ss2 |].
  intros sp3 Ss3 _.
  destruct ((M =? 0) && (N =? 0)) eqn:E0.
  - (* no node and no row: the block is empty, the column is missing *)
    apply andb_prop in E0 as [EM EN]. apply Nat.eqb_eq in EM, EN. subst M N.
    destruct (block_update_empty r sp3 G H Hrs Ss3) as (rhs1 & n1 & R1 & W1 & S1).
    apply ends_bind, wp_setitem_add with r rhs1 n1;
      [apply lookup_insert_eq | exact R1 | exact W1 |].
    destruct (view_heads_spec _ H Hvd) as (t & Vt & St & Et).
    apply ends_bind, wp_lift with t; [exact Vt |].
    unfold ends. apply raises_bind.
    rewrite (column_update_empty lg t n1 G H); [reflexivity | | exact S1].
    apply lookup_insert_eq.
  - (* the block is not as wide as the structural sum *)
    assert (HM' : M - 1 ≠ N).
    { apply andb_false_iff in E0 as [E0 | E0]; apply Nat.eqb_neq in E0; lia. }
    unfold ends. apply raises_bind.
    apply (ends_setitem_add_fails lg _ sp3 r _ (λ r, r = Raise RuntimeError)).
    + apply lookup_insert_eq.
    + apply block_update_mismatch with G H M N; assumption.
    + reflexivity.
Qed.

Lemma stateless_encoder_stack self (x bias : tensor F) :
  eval_mode self = true → stateless (encoder_stack self x bias).
Proof.
  intros He. unfold eval_mode in He. apply andb_prop in He as [Hd Hl].
  apply negb_true_iff in Hd.
  unfold encoder_stack.
  apply stateless_bind; [apply stateless_Dropout_forward, Hd | intros y].
  apply stateless_bind; [apply stateless_run_layers, Hl | intros z].
  apply stateless_bind; [apply stateless_lift | intros o].
  apply stateless_ret.
Qed.

Lemma forward_ready_elim self nf :
  forward_ready self nf = true →
  bias_tables self = true ∧ features_ok self nf = true ∧ stack_ok self = true.
Proof.
  intros H. apply andb_prop in H as [H H3]. apply andb_prop in H as [H1 H2]. auto.
Qed.

(** ** From the batch to the output *)

(** X1.  A feed-forward block of width [hidden] maps a tensor whose
    last dimension is [hidden] to a tensor of the same shape, whatever
    its rank and its inner width; any other input, a scalar included,
    is rejected by the first linear layer. *)
Theorem feed_forward_keeps_shape self hidden (x : tensor F) :
  ffn_ok self hidden = true →
  (last (shape x) = Some hidden →
     ∃ y, FeedForwardNetwork_forward self x = Ok y ∧ shape y = shape x)
  ∧ (last (shape x) ≠ Some hidden →
     FeedForwardNetwork_forward self x = Raise RuntimeError).
Proof. apply FeedForwardNetwork_forward_spec. Qed.

(** X2.  An encoder layer of width [hidden] returns a tensor of the
    shape of its input [b, n, hidden] when the batch is not empty, in
    training mode as in evaluation mode; on an empty batch it raises,
    leaving the state as it was. *)
Theorem encoder_layer_keeps_shape self hidden heads (x : tensor F) attn_bias st b n :
  encoder_layer_ok self hidden heads = true →
  shape x = [b; n; hidden] →
  bias_fits attn_bias b heads n = true →
  (0 < b → ∃ st' out, EncoderLayer_forward self x attn_bias st = (st', Ok out)
                      ∧ shape out = shape x)
  ∧ (b = 0 → EncoderLayer_forward self x attn_bias st = (st, Raise RuntimeError)).
Proof.
  intros Hok Sx Hb. split.
  - intros Hpos.
    destruct (EncoderLayer_forward_spec self hidden heads x attn_bias st b n
                Hok Hpos Sx Hb) as (st' & out & Hrun & Sout).
    exists st', out. split; [exact Hrun | rewrite Sout, Sx; reflexivity].
  - intros ->. apply EncoderLayer_forward_empty with hidden heads n; assumption.
Qed.

(** X3.  On a well-formed batch, [forward] hands the encoder stack a
    sequence of [N+1] positions per graph: position 0 holds the graph
    token, the same for every graph, and position [i+1] holds the
    encoding of node [i], to which the embeddings of its clamped in-
    and out-degree are added, in this order, when degrees are encoded.
    What [forward] returns is what input dropout, the layers and the
    final normalisation make of that sequence and of the attention
    bias. *)
Theorem forward_input_sequence self data perturb st b G N nf :
  bias_tables self = true → features_ok self nf = true →
  batch_shapes self b G N = true → feature_shapes self b G N nf = true →
  holds data st b →
  ∃ st1 loc gnf,
    Graphormer_forward_bias self data st = (st1, Ok loc)
    ∧ shape gnf = [G; S N; hidden_dim self]
    ∧ (∀ g i c, g < G → i < S N → c < hidden_dim self →
         entry gnf [g; i; c] = graph_node_feature self b g i c)
    ∧ Graphormer_forward self data perturb st
      = encoder_stack self gnf (loc_graph_attn_bias loc) st1.
Proof.
  intros Ht Hf Hs Hfs Hh.
  destruct (forward_features_spec self data perturb st b G N nf Ht Hf Hs Hfs Hh)
    as (st1 & loc & gnf & Hrun & _ & _ & Sg & Eg & Hfwd).
  exists st1, loc, gnf. auto.
Qed.

(** X4.  For a model with the sizes construction gives it and a
    well-formed batch of [G] graphs of [N] nodes, [forward] returns a
    tensor of shape [G, N+1, hidden_dim], provided the batch is not
    empty or the model has no layer.  In evaluation mode the call
    leaves the random generator as it was. *)
Theorem forward_output_shape self data perturb st b G N nf :
  forward_ready self nf = true →
  batch_shapes self b G N = true → feature_shapes self b G N nf = true →
  holds data st b →
  0 < G ∨ layers self = [] →
  ∃ st' out,
    Graphormer_forward self data perturb st = (st', Ok out)
    ∧ shape out = [G; S N; hidden_dim self]
    ∧ (eval_mode self = true → rng st' = rng st).
Proof.
  intros Hr Hs Hfs Hh HG.
  apply forward_ready_elim in Hr as (Ht & Hf & Hk).
  destruct (forward_features_spec self data perturb st b G N nf Ht Hf Hs Hfs Hh)
    as (st1 & loc & gnf & Hrun & Hrng & Sb & Sg & _ & Hfwd).
  destruct (encoder_stack_spec self gnf (loc_graph_attn_bias loc) st1 G (S N)
              Hk HG Sg Sb) as (st' & out & Hout & Sout).
  exists st', out. rewrite Hfwd.
  split; [exact Hout |]. split; [exact Sout |].
  intros He.
  destruct (stateless_encoder_stack self gnf (loc_graph_attn_bias loc) He) as [r Hst].
  rewrite Hst in Hout. injection Hout as <- _. exact Hrng.
Qed.

(** X5.  On a batch of no graph at all, a model with at least one
    layer raises: the attention module of the first layer cannot infer
    the size it leaves open in [view]. *)
Theorem forward_on_empty_batch_raises self data perturb st b N nf :
  forward_ready self nf = true →
  batch_shapes self b 0 N = true → feature_shapes self b 0 N nf = true →
  holds data st b →
  layers self ≠ [] →
  (Graphormer_forward self data perturb st).2 = Raise RuntimeError.
Proof.
  intros Hr Hs Hfs Hh Hne.
  apply forward_ready_elim in Hr as (Ht & Hf & Hk).
  destruct (forward_features_spec self data perturb st b 0 N nf Ht Hf Hs Hfs Hh)
    as (st1 & loc & gnf & _ & _ & _ & Sg & _ & Hfwd).
  rewrite Hfwd. apply encoder_stack_empty with (S N); assumption.
Qed.

(** X6.  Every model object that [Graphormer(...)] returns has the
    sizes [forward] relies on: the atom encoder maps [num_node_feat]
    to [hidden_dim], the graph token is [1, hidden_dim], the degree
    tables are there when [use_degree] is set, every layer has width
    [hidden_dim] and [num_heads] heads, and so has the final
    normalisation. *)
Theorem construction_makes_forward_ready c st st' self :
  Graphormer_init c st = (st', Ok self) →
  forward_ready self (num_node_feat c) = true.
Proof.
  intros Hinit. apply (returns_Graphormer_init c st self). rewrite Hinit. reflexivity.
Qed.

(** X7.  When [reset_parameters] returns, the model has the sizes it
    had: it is ready for [forward] exactly if it was, with as many
    layers and the same dropout modes. *)
Theorem reset_parameters_keeps_architecture self st st' self' :
  Graphormer_reset_parameters self st = (st', Ok self') →
  (∀ nf, forward_ready self' nf = forward_ready self nf)
  ∧ length (layers self') = length (layers self)
  ∧ eval_mode self' = eval_mode self
  ∧ num_heads self' = num_heads self
  ∧ hidden_dim self' = hidden_dim self.
Proof.
  intros Hrun.
  assert (H : returns (Graphormer_reset_parameters self)
                (λ self', num_heads self' = num_heads self
                          ∧ hidden_dim self' = hidden_dim self)).
  { unfold Graphormer_reset_parameters.
    do 8 (apply returns_bind; intros ?). apply returns_ret. split; reflexivity. }
  destruct (H st self') as [H1 H2]; [rewrite Hrun; reflexivity |].
  destruct (returns_Graphormer_reset_parameters self st self')
    as (Hr & _ & _ & _ & He & Hn); [rewrite Hrun; reflexivity |].
  auto.
Qed.

(** X8.  [reset_parameters] never touches the graph token nor its
    virtual distance: both embeddings keep the weights they had. *)
Theorem reset_parameters_skips_graph_token self st st' self' :
  Graphormer_reset_parameters self st = (st', Ok self') →
  graph_token self' = graph_token self
  ∧ graph_token_virtual_distance self' = graph_token_virtual_distance self.
Proof.
  intros Hrun.
  destruct (returns_Graphormer_reset_parameters self st self')
    as (_ & _ & H1 & H2 & _); [rewrite Hrun; reflexivity |].
  auto.
Qed.

(** X9.  After construction, and again after every [reset_parameters]
    that returns, row 0 of the shortest-path table, of every optional
    structural table and of the two degree tables is zero: bucket 0
    carries no weight. *)
Theorem padding_rows_are_zero c st st1 self :
  Graphormer_init c st = (st1, Ok self) →
  padding_rows_zero self
  ∧ ∀ st2 st3 self', Graphormer_reset_parameters self st2 = (st3, Ok self') →
      padding_rows_zero self'.
Proof.
  intros Hinit.
  assert (Hz : padding_rows_zero self).
  { apply (returns_Graphormer_init c st self). rewrite Hinit. reflexivity. }
  split; [exact Hz |].
  intros st2 st3 self' Hrun.
  destruct (returns_Graphormer_reset_parameters self st2 self')
    as (_ & H & _); [rewrite Hrun; reflexivity |].
  apply H, Hz.
Qed.

(** X10.  How [MultiHeadAttention(hidden_size, rate, num_heads)] ends.
    With no head, or more heads than [hidden_size], it raises
    [ZeroDivisionError] (the division, or the negative power of an
    [att_size] of 0); otherwise it raises [ValueError] exactly when the
    rate is no probability; otherwise it returns a module with
    [att_size = hidden_size // num_heads], whose projections are
    [num_heads * att_size] wide, which is at most [hidden_size]. *)
Theorem attention_construction_outcome hidden rate heads st :
  match (MultiHeadAttention_init hidden rate heads st).2 with
  | Ok m => 1 ≤ heads ≤ hidden ∧ rate_ok rate = true
            ∧ mha_num_heads m = heads
            ∧ att_size m = hidden / heads
            ∧ heads * att_size m ≤ hidden
            ∧ mha_ok m hidden = true
  | Raise e => if (heads =? 0) || (hidden <? heads)
               then e = ZeroDivisionError
               else e = ValueError ∧ rate_ok rate = false
  end.
Proof. apply MultiHeadAttention_init_outcome. Qed.

(** X13.  When the baseline bias and the structural matrices of the
    batch are symmetric, so is the attention bias: the graph token is
    as far from every node as every node is from it. *)
Theorem symmetric_inputs_give_symmetric_bias self data st b G N :
  bias_tables self = true →
  batch_shapes self b G N = true →
  holds data st b →
  symmetric_batch b N →
  ∃ st' loc,
    Graphormer_forward_bias self data st = (st', Ok loc)
    ∧ ∀ g h i j, g < G → h < num_heads self → i < S N → j < S N →
        entry (loc_graph_attn_bias loc) [g; h; i; j]
        = entry (loc_graph_attn_bias loc) [g; h; j; i].
Proof.
  intros Ht Hs Hh Hsym.
  destruct (forward_bias_spec self data st b G N Ht Hs Hh)
    as (st' & loc & Hrun & _ & _ & _ & _ & _ & He).
  exists st', loc. split; [exact Hrun |].
  intros g h i j Hg Hh' Hi Hj.
  rewrite !He by assumption.
  rewrite (added_term_symmetric self b N g h i j Hsym Hi Hj).
  destruct Hsym as (Hb & _). unfold baseline.
  rewrite (Hb g i j Hi Hj). reflexivity.
Qed.

(** X14.  Attention over another sequence: with keys and values of
    [m] positions each, and a bias of shape [b, h, n, m] if any, the
    result has the shape of the query; with keys and values of
    different lengths the product with the values raises. *)
Theorem attention_over_another_sequence self hidden (q k v : tensor F) attn_bias st
  b n m m' :
  mha_ok self hidden = true →
  0 < b →
  shape q = [b; n; hidden] → shape k = [b; m; hidden] → shape v = [b; m'; hidden] →
  match attn_bias with
  | Some t => shape t = [b; mha_num_heads self; n; m]
  | None => True
  end →
  (m = m' → ∃ st' out,
     MultiHeadAttention_forward self q k v attn_bias st = (st', Ok out)
     ∧ shape out = shape q)
  ∧ (m ≠ m' →
     (MultiHeadAttention_forward self q k v attn_bias st).2 = Raise RuntimeError).
Proof.
  intros Hok Hb Sq Sk Sv Hbias.
  pose proof Hok as Hok'. unfold mha_ok in Hok'.
  apply andb_prop in Hok' as [Hok' _]. apply andb_prop in Hok' as [Hok' Lv].
  apply andb_prop in Hok' as [Hok' Lk]. apply andb_prop in Hok' as [Hok' Lq].
  apply andb_prop in Hok' as [Hh Hd]. apply Nat.ltb_lt in Hh, Hd.
  destruct (Linear_forward_shape _ q b n _ _ Lq Sq) as (q1 & Hq1 & Sq1).
  destruct (view_split_heads q1 b n _ _ Hb Hh Hd Sq1) as (q2 & Hq2 & Sq2).
  destruct (Linear_forward_shape _ k b m _ _ Lk Sk) as (k1 & Hk1 & Sk1).
  destruct (view_split_heads k1 b m _ _ Hb Hh Hd Sk1) as (k2 & Hk2 & Sk2).
  destruct (Linear_forward_shape _ v b m' _ _ Lv Sv) as (v1 & Hv1 & Sv1).
  destruct (view_split_heads v1 b m' _ _ Hb Hh Hd Sv1) as (v2 & Hv2 & Sv2).
  pose proof (MultiHeadAttention_forward_outcome self hidden q k v attn_bias st
                b n m m' q2 k2 v2 Hok Hb) as Hend.
  unfold ends in Hend. cbv zeta in Hend.
  specialize (Hend ltac:(unfold size_at; rewrite Sq; reflexivity)
                   ltac:(rewrite Hq1; exact Hq2) ltac:(rewrite Hk1; exact Hk2)
                   ltac:(rewrite Hv1; exact Hv2) Sq2 Sk2 Sv2 Hbias).
  destruct (MultiHeadAttention_forward self q k v attn_bias st) as [st' [out | e]];
    simpl in *.
  - destruct Hend as (Hm & So & _). split.
    + intros _. exists st', out. split; [reflexivity | rewrite So, Sq; reflexivity].
    + intros Hne. contradiction.
  - destruct (Nat.eqb_spec m m') as [Hm | Hm].
    + destruct Hend as [_ Hq]. contradiction.
    + split; [intros E; contradiction | intros _; rewrite Hend; reflexivity].
Qed.

(** X15.  The assertion at the end of [MultiHeadAttention.forward] is
    what rejects inputs without a sequence dimension: for query, key
    and value of shape [b, hidden] every step succeeds, the result has
    shape [b, 1, hidden], and the call raises [AssertionError]. *)
Theorem attention_rejects_flat_query self hidden (q k v : tensor F) st b :
  mha_ok self hidden = true →
  0 < b →
  shape q = [b; hidden] → shape k = [b; hidden] → shape v = [b; hidden] →
  (MultiHeadAttention_forward self q k v None st).2 = Raise AssertionError.
Proof.
  intros Hok Hb Sq Sk Sv.
  pose proof Hok as Hok'. unfold mha_ok in Hok'.
  apply andb_prop in Hok' as [Hok' _]. apply andb_prop in Hok' as [Hok' Lv].
  apply andb_prop in Hok' as [Hok' Lk]. apply andb_prop in Hok' as [Hok' Lq].
  apply andb_prop in Hok' as [Hh Hd]. apply Nat.ltb_lt in Hh, Hd.
  apply linear_dims_elim in Lq as [Lq1 Lq2], Lk as [Lk1 Lk2], Lv as [Lv1 Lv2].
  destruct (Linear_forward_last (linear_q self) q) as (q1 & Hq1 & Sq1);
    [rewrite Sq, Lq1; reflexivity |].
  destruct (Linear_forward_last (linear_k self) k) as (k1 & Hk1 & Sk1);
    [rewrite Sk, Lk1; reflexivity |].
  destruct (Linear_forward_last (linear_v self) v) as (v1 & Hv1 & Sv1);
    [rewrite Sv, Lv1; reflexivity |].
  rewrite Sq, Lq2 in Sq1. rewrite Sk, Lk2 in Sk1. rewrite Sv, Lv2 in Sv1.
  simpl in Sq1, Sk1, Sv1.
  destruct (view_split_heads_flat q1 b _ _ Hb Hh Hd Sq1) as (q2 & Hq2 & Sq2).
  destruct (view_split_heads_flat k1 b _ _ Hb Hh Hd Sk1) as (k2 & Hk2 & Sk2).
  destruct (view_split_heads_flat v1 b _ _ Hb Hh Hd Sv1) as (v2 & Hv2 & Sv2).
  pose proof (MultiHeadAttention_forward_outcome self hidden q k v None st
                b 1 1 1 q2 k2 v2 Hok Hb) as Hend.
  unfold ends in Hend. cbv zeta in Hend.
  specialize (Hend ltac:(unfold size_at; rewrite Sq; reflexivity)
                   ltac:(rewrite Hq1; exact Hq2) ltac:(rewrite Hk1; exact Hk2)
                   ltac:(rewrite Hv1; exact Hv2) Sq2 Sk2 Sv2 I).
  destruct (MultiHeadAttention_forward self q k v None st) as [st' [out | e]];
    simpl in *.
  - destruct Hend as (_ & _ & Hq). rewrite Sq in Hq. discriminate.
  - destruct Hend as [-> _]. reflexivity.
Qed.


(** X18.  The baseline bias must have the row and the column of the
    graph token.  With [M] rows and columns, [M] other than [N + 1] for
    the number [N] of nodes, and [N] other than 1, [forward] raises:
    [RuntimeError] at the first in-place addition, whose block
    [1:, 1:] does not fit the structural sum; except that for no row
    and no node the block is empty like the sum, and the next addition
    raises [IndexError] on column 0. *)
Theorem baseline_bias_needs_token_row_and_column self data perturb st b G N M :
  bias_tables self = true →
  structural_shapes self b G N = true →
  shape (b_attn_bias b) = [G; M; M] →
  holds data st b →
  N ≠ 1 → M ≠ S N →
  (Graphormer_forward self data perturb st).2
  = Raise (if (M =? 0) && (N =? 0) then IndexError else RuntimeError).
Proof.
  intros Ht Hs Sb Hh HN HM. unfold Graphormer_forward. apply raises_bind.
  apply forward_bias_wrong_baseline with b G; assumption.
Qed.

(** ** Why construction fails *)

Lemma raises_only_bind {A C} (m : M A) (f : A → M C) (Q : A → Prop) (P : exn → Prop) :
  returns m Q → raises_only m P → (∀ a, Q a → raises_only (f a) P) →
  raises_only (m ≫= f) P.
Proof.
  intros Hq Hm Hf st e. unfold mbind, M_bind.
  destruct (m st) as [st1 [a | e1]] eqn:E; simpl.
  - apply Hf. apply (Hq st). rewrite E. reflexivity.
  - intros [= <-]. apply (Hm st). rewrite E. reflexivity.
Qed.

Lemma raises_only_never {A} (m : M A) (Q : A → Prop) (P : exn → Prop) :
  decides m true Q → raises_only m P.
Proof.
  intros H st e He. destruct (H st) as [Hok _]. rewrite He in Hok. discriminate.
Qed.

Lemma raises_only_ret {A} (a : A) (P : exn → Prop) : raises_only (mret a : M A) P.
Proof. intros st e H. discriminate. Qed.

Lemma raises_only_weaken {A} (m : M A) (P P' : exn → Prop) :
  raises_only m P → (∀ e, P e → P' e) → raises_only m P'.
Proof. intros H HP st e He. apply HP, (H st), He. Qed.

Lemma raises_only_Dropout_init rate :
  raises_only (lift (Dropout_init rate)) (λ e, e = ValueError ∧ rate_ok rate = false).
Proof.
  intros st e. unfold lift, Dropout_init, rate_ok. simpl.
  destruct (_ && _); [discriminate | intros [= <-]; auto].
Qed.

Lemma returns_Dropout_init rate :
  returns (lift (Dropout_init rate)) (λ _, rate_ok rate = true).
Proof.
  intros st d. unfold lift, Dropout_init, rate_ok. simpl.
  destruct (_ && _); [reflexivity | discriminate].
Qed.

Lemma raises_only_EncoderLayer_init hidden ffn_size rate att_rate heads :
  raises_only (EncoderLayer_init hidden ffn_size rate att_rate heads)
    (layer_failure hidden heads rate att_rate).
Proof.
  unfold EncoderLayer_init, layer_failure.
  apply raises_only_bind with (λ _, heads_misfit hidden heads = false).
  - intros st m Hm.
    pose proof (MultiHeadAttention_init_outcome hidden att_rate heads st) as H.
    rewrite Hm in H. destruct H as ([H1 H2] & _).
    unfold heads_misfit. apply orb_false_intro; [apply Nat.eqb_neq | apply Nat.ltb_ge]; lia.
  - intros st e He.
    pose proof (MultiHeadAttention_init_outcome hidden att_rate heads st) as H.
    rewrite He in H. fold (heads_misfit hidden heads) in H.
    destruct (heads_misfit hidden heads); [exact H |].
    destruct H as [-> Hr]. auto.
  - intros att ->.
    apply raises_only_bind with (λ _, True); [intros ? ? _; exact I | |].
    { eapply raises_only_weaken; [apply raises_only_Dropout_init |].
      intros e [-> Hr]. auto. }
    intros d1 _.
    apply raises_only_bind with (λ _, True); [intros ? ? _; exact I | |].
    { eapply raises_only_never, decides_FeedForwardNetwork_init. }
    intros f _.
    apply raises_only_bind with (λ _, True); [intros ? ? _; exact I | |].
    { eapply raises_only_weaken; [apply raises_only_Dropout_init |].
      intros e [-> Hr]. auto. }
    intros d2 _. apply raises_only_ret.
Qed.

Lemma raises_only_init_layers n c :
  raises_only (init_layers n c)
    (λ e, n ≠ 0 ∧ layer_failure (cfg_hidden_dim c) (cfg_num_heads c)
                    (dropout_rate c) (attention_dropout_rate c) e).
Proof.
  induction n as [| n IH]; simpl.
  - apply raises_only_ret.
  - apply raises_only_bind with (λ _, True); [intros ? ? _; exact I | |].
    { eapply raises_only_weaken; [apply raises_only_EncoderLayer_init |].
      intros e He. split; [lia | exact He]. }
    intros l _.
    apply raises_only_bind with (λ _, True); [intros ? ? _; exact I | |].
    { eapply raises_only_weaken; [exact IH |]. intros e [_ He]. split; [lia | exact He]. }
    intros ls _. apply raises_only_ret.
Qed.

Lemma raises_only_init_if flag n d (P : exn → Prop) :
  0 < n → raises_only (init_if flag n d) P.
Proof. intros Hn. eapply raises_only_never, decides_init_if, Hn. Qed.

Lemma raises_only_Graphormer_init c :
  raises_only (Graphormer_init c)
    (λ e, if rate_ok (intput_dropout_rate c)
          then n_layers c ≠ 0
               ∧ layer_failure (cfg_hidden_dim c) (cfg_num_heads c)
                   (dropout_rate c) (attention_dropout_rate c) e
          else e = ValueError).
Proof.
  unfold Graphormer_init.
  apply raises_only_bind with (λ _, True); [intros ? ? _; exact I | |].
  { eapply raises_only_never, decides_Linear_init. }
  intros atom _.
  apply raises_only_bind with (λ _, True); [intros ? ? _; exact I | |].
  { eapply raises_only_never, decides_Embedding_init. simpl. lia. }
  intros lsp _.
  do 5 (apply raises_only_bind with (λ _, True);
        [intros ? ? _; exact I | apply raises_only_init_if; lia | intros ? _]).
  apply raises_only_bind with (λ _, rate_ok (intput_dropout_rate c) = true).
  - apply returns_Dropout_init.
  - eapply raises_only_weaken; [apply raises_only_Dropout_init |].
    intros e [-> Hr]. rewrite Hr. reflexivity.
  - intros idr ->.
    apply raises_only_bind with (λ _, True); [intros ? ? _; exact I | |].
    { apply raises_only_init_layers. }
    intros encoders _.
    apply raises_only_bind with (λ _, True); [intros ? ? _; exact I | |].
    { eapply raises_only_never, decides_Embedding_init. exact I. }
    intros gt _.
    apply raises_only_bind with (λ _, True); [intros ? ? _; exact I | |].
    { eapply raises_only_never, decides_Embedding_init. exact I. }
    intros gtvd _. apply raises_only_ret.
Qed.

(** X19.  Why [Graphormer(...)] fails when it does.  An input dropout
    rate that is no probability raises [ValueError] before any layer
    is built.  Otherwise the failure comes from the first encoder
    layer: [ZeroDivisionError] when there is no head or there are more
    heads than hidden dimensions, and else [ValueError] for an
    attention or layer dropout rate that is no probability. *)
Theorem construction_failure_kind c st e :
  (Graphormer_init c st).2 = Raise e →
  if rate_ok (intput_dropout_rate c)
  then n_layers c ≠ 0
       ∧ layer_failure (cfg_hidden_dim c) (cfg_num_heads c)
           (dropout_rate c) (attention_dropout_rate c) e
  else e = ValueError.
Proof. intros H. apply (raises_only_Graphormer_init c st e H). Qed.

(** ** The attention formula, step by step *)

Lemma div_mod_add q r b : r < b → (q * b + r) / b = q ∧ (q * b + r) mod b = r.
Proof.
  intros H. split.
  - symmetry. apply Nat.div_unique with r; [exact H | lia].
  - symmetry. apply Nat.mod_unique with q; [exact H | lia].
Qed.

(** Splitting the last dimension into heads: channel [c] of head [h]
    is channel [h * d + c]. *)
Lemma view_split_heads_entries (t : tensor F) b n h d :
  0 < b → 0 < h → 0 < d → shape t = [b; n; h * d] →
  ∃ y, view [Some b; None; Some h; Some d] t = Ok y
       ∧ shape y = [b; n; h; d]
       ∧ ∀ g i hh c, g < b → i < n → hh < h → c < d →
           entry y [g; i; hh; c] = entry t [g; i; hh * d + c].
Proof.
  intros Hb Hh Hd Hs.
  destruct (view_split_heads t b n h d Hb Hh Hd Hs) as (y & Hy & Sy).
  exists y. split; [exact Hy |]. split; [exact Sy |].
  intros g i hh c Hg Hi Hhh Hc.
  unfold view in Hy. destruct (infer_size _ _) as [s |]; [| discriminate].
  simpl in Hy. injection Hy as <-. simpl in Sy. subst s. simpl.
  rewrite Hs. simpl. rewrite !Nat.mul_1_r, !Nat.add_0_r.
  assert (Hr : hh * d + c < h * d) by nia.
  assert (Hir : i * (h * d) + (hh * d + c) < n * (h * d)) by nia.
  destruct (div_mod_add g (i * (h * d) + (hh * d + c)) (n * (h * d)) Hir) as [E1 E2].
  rewrite E1, E2.
  destruct (div_mod_add i (hh * d + c) (h * d) Hr) as [E3 E4].
  rewrite E3, E4.
  match goal with
  | |- context [(Nat.divmod ?x 0 0 0).1] => change (Nat.divmod x 0 0 0).1 with (x / 1)
  end.
  rewrite Nat.div_1_r. reflexivity.
Qed.

(** Laying the heads side by side again. *)
Lemma view_merge_heads_entries (t : tensor F) b n h d :
  0 < b → 0 < h → 0 < d → shape t = [b; n; h; d] →
  ∃ y, view [Some b; None; Some (h * d)] t = Ok y
       ∧ shape y = [b; n; h * d]
       ∧ ∀ g i c, g < b → i < n → c < h * d →
           entry y [g; i; c] = entry t [g; i; c / d; c mod d].
Proof.
  intros Hb Hh Hd Hs.
  destruct (view_merge_heads t b n h d Hb Hh Hd Hs) as (y & Hy & Sy).
  exists y. split; [exact Hy |]. split; [exact Sy |].
  intros g i c Hg Hi Hc.
  unfold view in Hy. destruct (infer_size _ _) as [s |]; [| discriminate].
  simpl in Hy. injection Hy as <-. simpl in Sy. subst s. simpl.
  rewrite Hs. simpl. rewrite !Nat.mul_1_r, !Nat.add_0_r.
  assert (Hir : i * (h * d) + c < n * (h * d)) by nia.
  destruct (div_mod_add g (i * (h * d) + c) (n * (h * d)) Hir) as [E1 E2].
  rewrite E1, E2.
  destruct (div_mod_add i c (h * d) Hc) as [E3 E4].
  rewrite E3, E4.
  match goal with
  | |- context [(Nat.divmod ?x 0 0 0).1] => change (Nat.divmod x 0 0 0).1 with (x / 1)
  end.
  rewrite Nat.div_1_r. reflexivity.
Qed.

Lemma transpose_1_2_entries (t : tensor F) a b c d :
  shape t = [a; b; c; d] →
  ∃ y, transpose 1 2 t = Ok y ∧ shape y = [a; c; b; d]
       ∧ ∀ g i j k, entry y [g; i; j; k] = entry t [g; j; i; k].
Proof.
  intros Hs. unfold transpose, permute. rewrite Hs. simpl.
  eexists. split; [reflexivity |]. split; reflexivity.
Qed.

Lemma transpose_2_3_entries (t : tensor F) a b c d :
  shape t = [a; b; c; d] →
  ∃ y, transpose 2 3 t = Ok y ∧ shape y = [a; b; d; c]
       ∧ ∀ g i j k, entry y [g; i; j; k] = entry t [g; i; k; j].
Proof.
  intros Hs. unfold transpose, permute. rewrite Hs. simpl.
  eexists. split; [reflexivity |]. split; reflexivity.
Qed.

Lemma matmul_entries (t u : tensor F) a b m k n :
  shape t = [a; b; m; k] → shape u = [a; b; k; n] →
  ∃ y, matmul t u = Ok y ∧ shape y = [a; b; m; n]
       ∧ ∀ g h i j, g < a → h < b →
           entry y [g; h; i; j]
           = dot (map (λ c, entry t [g; h; i; c]) (seq 0 k))
                 (map (λ c, entry u [g; h; c; j]) (seq 0 k)).
Proof.
  intros Ht Hu. unfold matmul. rewrite Ht, Hu. simpl.
  rewrite !broadcast_dim_refl. simpl. rewrite Nat.eqb_refl.
  eexists. split; [reflexivity |]. split; [reflexivity |].
  intros g h i j Hg Hh. simpl.
  rewrite (expand_dim_lt a g Hg), (expand_dim_lt b h Hh). reflexivity.
Qed.

Lemma softmax_entries (t : tensor F) a b c d :
  shape t = [a; b; c; d] →
  ∃ y, softmax 3 t = Ok y ∧ shape y = [a; b; c; d]
       ∧ ∀ g h i j,
           entry y [g; h; i; j]
           = nth j (softmax_vec (map (λ k, entry t [g; h; i; k]) (seq 0 d))) fzero.
Proof.
  intros Hs. unfold softmax. rewrite Hs. simpl.
  eexists. split; [reflexivity |]. split; reflexivity.
Qed.

Lemma projection_entries l (x : tensor F) G N i o :
  linear_dims l i o = true → shape x = [G; N; i] →
  ∃ y, Linear_forward l x = Ok y ∧ shape y = [G; N; o]
       ∧ ∀ g n c, entry y [g; n; c] = projection l x g n c.
Proof. apply Linear_forward_entries. Qed.

Lemma dot_ext {A} (f f' g g' : A → F) (l : list A) :
  (∀ a, In a l → f a = f' a) → (∀ a, In a l → g a = g' a) →
  dot (map f l) (map g l) = dot (map f' l) (map g' l).
Proof.
  intros Hf Hg. rewrite (map_ext_in f f' l Hf), (map_ext_in g g' l Hg). reflexivity.
Qed.

(** X20.  With dropout disabled, [MultiHeadAttention.forward] leaves
    the state as it is and returns the attention formula: for every
    head, the softmax over the keys of the scaled product of the
    query and key channels of that head plus the bias, applied to the
    value channels of the head; the heads are laid side by side, head
    [h] on channels [h * att_size] and following, and projected by
    [output_layer]. *)
Theorem attention_computes_scaled_dot_product self hidden (q k v : tensor F) attn_bias st
  b n m :
  mha_ok self hidden = true →
  training (att_dropout self) = false →
  0 < b →
  shape q = [b; n; hidden] → shape k = [b; m; hidden] → shape v = [b; m; hidden] →
  match attn_bias with
  | Some t => shape t = [b; mha_num_heads self; n; m]
  | None => True
  end →
  ∃ out,
    MultiHeadAttention_forward self q k v attn_bias st = (st, Ok out)
    ∧ shape out = [b; n; hidden]
    ∧ ∀ g i o, g < b → i < n → o < hidden →
        entry out [g; i; o] = attention_output self q k v attn_bias m g i o.
Proof.
  intros Hok Htr Hb Sq Sk Sv Hbias.
  unfold mha_ok in Hok.
  apply andb_prop in Hok as [Hok Lo]. apply andb_prop in Hok as [Hok Lv].
  apply andb_prop in Hok as [Hok Lk]. apply andb_prop in Hok as [Hok Lq].
  apply andb_prop in Hok as [Hh Hd].
  apply Nat.ltb_lt in Hh, Hd.
  set (h := mha_num_heads self) in *. set (d := att_size self) in *.
  (* the three projections, split into heads and transposed *)
  destruct (projection_entries _ q b n _ _ Lq Sq) as (q1 & Hq1 & Sq1 & Eq1).
  destruct (view_split_heads_entries q1 b n h d Hb Hh Hd Sq1) as (q2 & Hq2 & Sq2 & Eq2).
  destruct (projection_entries _ k b m _ _ Lk Sk) as (k1 & Hk1 & Sk1 & Ek1).
  destruct (view_split_heads_entries k1 b m h d Hb Hh Hd Sk1) as (k2 & Hk2 & Sk2 & Ek2).
  destruct (projection_entries _ v b m _ _ Lv Sv) as (v1 & Hv1 & Sv1 & Ev1).
  destruct (view_split_heads_entries v1 b m h d Hb Hh Hd Sv1) as (v2 & Hv2 & Sv2 & Ev2).
  destruct (transpose_1_2_entries q2 _ _ _ _ Sq2) as (q3 & Hq3 & Sq3 & Eq3).
  destruct (transpose_1_2_entries v2 _ _ _ _ Sv2) as (v3 & Hv3 & Sv3 & Ev3).
  destruct (transpose_1_2_entries k2 _ _ _ _ Sk2) as (k3 & Hk3 & Sk3 & Ek3).
  destruct (transpose_2_3_entries k3 _ _ _ _ Sk3) as (k4 & Hk4 & Sk4 & Ek4).
  set (qs := tmap (λ a, fmul a (scale self)) q3).
  assert (EQ : ∀ g hh i c, g < b → i < n → hh < h → c < d →
            entry qs [g; hh; i; c]
            = fmul (projection (linear_q self) q g i (hh * d + c)) (scale self)).
  { intros g hh i c Hg Hi Hhh Hc. unfold qs. simpl.
    rewrite Eq3, Eq2, Eq1 by assumption. reflexivity. }
  assert (EK : ∀ g hh c j, g < b → j < m → hh < h → c < d →
            entry k4 [g; hh; c; j] = projection (linear_k self) k g j (hh * d + c)).
  { intros g hh c j Hg Hj Hhh Hc. rewrite Ek4, Ek3, Ek2, Ek1 by assumption. reflexivity. }
  assert (EV : ∀ g hh j c, g < b → j < m → hh < h → c < d →
            entry v3 [g; hh; j; c] = projection (linear_v self) v g j (hh * d + c)).
  { intros g hh j c Hg Hj Hhh Hc. rewrite Ev3, Ev2, Ev1 by assumption. reflexivity. }
  (* scores, bias, softmax *)
  destruct (matmul_entries qs k4 b h n d m Sq3 Sk4) as (x1 & Hx1 & Sx1 & Ex1).
  assert (Hx2 : ∃ x2, match attn_bias with
                      | Some bias => add x1 bias
                      | None => Ok x1
                      end = Ok x2
                ∧ shape x2 = [b; h; n; m]
                ∧ ∀ g hh i j, g < b → hh < h → i < n → j < m →
                    entry x2 [g; hh; i; j] = attention_score self q k attn_bias g hh i j).
  { assert (E1 : ∀ g hh i j, g < b → hh < h → i < n → j < m →
              entry x1 [g; hh; i; j]
              = dot (map (λ c, fmul (projection (linear_q self) q g i (hh * d + c))
                                    (scale self)) (seq 0 d))
                    (map (λ c, projection (linear_k self) k g j (hh * d + c)) (seq 0 d))).
    { intros g hh i j Hg Hhh Hi Hj. rewrite Ex1 by assumption.
      apply dot_ext; intros c Hc; apply in_seq in Hc.
      - apply EQ; [assumption .. | lia].
      - apply EK; [assumption .. | lia]. }
    destruct attn_bias as [bias |].
    - destruct (add_same_shape x1 bias _ Sx1 Hbias) as (x2 & Hx2 & Sx2 & Ex2).
      exists x2. split; [exact Hx2 |]. split; [exact Sx2 |].
      intros g hh i j Hg Hhh Hi Hj.
      rewrite Ex2 by (apply in_bounds_4; assumption).
      rewrite E1 by assumption. reflexivity.
    - exists x1. split; [reflexivity |]. split; [exact Sx1 |].
      intros g hh i j Hg Hhh Hi Hj. rewrite E1 by assumption. reflexivity. }
  destruct Hx2 as (x2 & Hx2 & Sx2 & Ex2).
  destruct (softmax_entries x2 _ _ _ _ Sx2) as (x3 & Hx3 & Sx3 & Ex3).
  assert (EW : ∀ g hh i j, g < b → hh < h → i < n →
            entry x3 [g; hh; i; j] = attention_weight self q k attn_bias m g hh i j).
  { intros g hh i j Hg Hhh Hi. rewrite Ex3. unfold attention_weight.
    f_equal. f_equal. apply map_ext_in. intros j' Hj'. apply in_seq in Hj'.
    apply Ex2; [assumption .. | lia]. }
  (* weighted values, heads merged, output projection *)
  destruct (matmul_entries x3 v3 b h n m d Sx3 Sv3) as (x5 & Hx5 & Sx5 & Ex5).
  destruct (transpose_1_2_entries x5 _ _ _ _ Sx5) as (x6 & Hx6 & Sx6 & Ex6).
  destruct (view_merge_heads_entries x6 b n h d Hb Hh Hd Sx6) as (x7 & Hx7 & Sx7 & Ex7).
  destruct (projection_entries _ x7 b n _ _ Lo Sx7) as (x8 & Hx8 & Sx8 & Ex8).
  exists x8. split; [| split; [exact Sx8 |]].
  - unfold MultiHeadAttention_forward. fold h. fold d.
    rewrite (bind_lift_ok _ _ b st) by (unfold size_at; rewrite Sq; reflexivity).
    rewrite (bind_lift_ok _ _ q2 st) by (rewrite Hq1; exact Hq2).
    rewrite (bind_lift_ok _ _ k2 st) by (rewrite Hk1; exact Hk2).
    rewrite (bind_lift_ok _ _ v2 st) by (rewrite Hv1; exact Hv2).
    rewrite (bind_lift_ok _ _ q3 st Hq3).
    rewrite (bind_lift_ok _ _ v3 st Hv3).
    rewrite (bind_lift_ok _ _ k4 st) by (rewrite Hk3; exact Hk4).
    fold qs. rewrite (bind_lift_ok _ _ x1 st Hx1).
    erewrite (bind_ok _ _ st st x2).
    2:{ destruct attn_bias as [bias |]; [rewrite Hx2 |]; [reflexivity |].
        injection Hx2 as <-. reflexivity. }
    rewrite (bind_lift_ok _ _ x3 st Hx3).
    unfold Dropout_forward. rewrite Htr.
    rewrite (bind_ok (mret x3) _ st st x3 eq_refl).
    rewrite (bind_lift_ok _ _ x5 st Hx5).
    rewrite (bind_lift_ok _ _ x6 st Hx6).
    rewrite (bind_lift_ok _ _ x7 st Hx7).
    rewrite (bind_lift_ok _ _ x8 st Hx8).
    rewrite bool_decide_eq_true_2 by (rewrite Sx8, Sq; reflexivity).
    reflexivity.
  - intros g i o Hg Hi Ho. rewrite Ex8. unfold attention_output, projection.
    apply linear_dims_elim in Lo as [Lo1 Lo2].
    f_equal. apply dot_ext; [| reflexivity].
    intros c Hc. apply in_seq in Hc. fold h in Lo1. fold d in Lo1. rewrite Lo1 in Hc.
    assert (Hcd : c / d < h).
    { apply Nat.Div0.div_lt_upper_bound. lia. }
    assert (Hcm : c mod d < d) by (apply Nat.mod_upper_bound; lia).
    rewrite Ex7 by (try assumption; lia).
    rewrite Ex6, Ex5 by assumption.
    unfold attention_head. fold d.
    apply dot_ext; intros j Hj; apply in_seq in Hj.
    + apply EW; assumption.
    + apply EV; [assumption | lia | assumption ..].
Qed.

End Encoder.

(** * The theorems on the examples *)

Lemma ZExample_holds_batch : holds ZExample.data ZExample.st ZExample.batch.
Proof.
  repeat split; try (eexists; split; reflexivity).
Defined.

(** C1 on the example: its hypotheses hold there. *)
Lemma bias_carries_baseline_twice_example :
  ∃ st' loc,
    Graphormer_forward_bias ZExample.model ZExample.data ZExample.st = (st', Ok loc)
    ∧ shape (loc_graph_attn_bias loc) = [1; 2; 3; 3]
    ∧ ∀ g h i j, g < 1 → h < 2 → i < 3 → j < 3 →
        entry (loc_graph_attn_bias loc) [g; h; i; j]
        = (baseline ZExample.batch g i j
           + added_term ZExample.model ZExample.batch g h i j
           + baseline ZExample.batch g i j)%Z.
Proof.
  apply (bias_carries_baseline_twice ZExample.model ZExample.data ZExample.st
           ZExample.batch 1 2);
    [reflexivity | reflexivity | exact ZExample_holds_batch].
Defined.

(** C3 on the example. *)
Lemma token_row_and_column_bias_example :
  ∃ st' loc,
    Graphormer_forward_bias ZExample.model ZExample.data ZExample.st = (st', Ok loc)
    ∧ ∀ g h i j, g < 1 → h < 2 → i < 3 → j < 3 →
        entry (loc_graph_attn_bias loc) [g; h; i; j]
        = if (i =? 0) || (j =? 0)
          then (baseline ZExample.batch g i j + virtual_distance ZExample.model h
                + baseline ZExample.batch g i j)%Z
          else (baseline ZExample.batch g i j
                + structural ZExample.model ZExample.batch g h (i - 1) (j - 1)
                + baseline ZExample.batch g i j)%Z.
Proof.
  apply (token_row_and_column_bias ZExample.model ZExample.data ZExample.st
           ZExample.batch 1 2);
    [reflexivity | reflexivity | exact ZExample_holds_batch].
Defined.

Lemma ScoreExample_holds jac :
  holds ScoreExample.data (ScoreExample.state_of (ScoreExample.batch_with jac))
    (ScoreExample.batch_with jac).
Proof.
  repeat split; try (eexists; split; reflexivity).
Defined.



(** C8 on the example: the baseline bias after a forward call. *)
Lemma forward_leaves_inputs_unchanged_example :
  heap (Graphormer_forward ZExample.model ZExample.data None ZExample.st).1
    !! 3%positive
  = Some (CellF (b_attn_bias ZExample.batch)).
Proof.
  apply (forward_leaves_inputs_unchanged ZExample.model ZExample.data None
           ZExample.st 3%positive).
  reflexivity.
Defined.

(** C7 as amended, on the example: over the integers adding zero
    changes nothing. *)
Lemma disabled_channel_equals_zero_weights_example :
  ∃ st1 loc1 st2 loc2,
    Graphormer_forward_bias (disable NumSpd ZExample.model) ZExample.data ZExample.st
    = (st1, Ok loc1)
    ∧ Graphormer_forward_bias
        (enable NumSpd (channel_zero_table NumSpd ZExample.model) ZExample.model)
        ZExample.data ZExample.st
      = (st2, Ok loc2)
    ∧ tensor_eq (loc_graph_attn_bias loc1) (loc_graph_attn_bias loc2).
Proof.
  apply (disabled_channel_equals_zero_weights NumSpd ZExample.model ZExample.data
           ZExample.st ZExample.batch 1 2);
    [reflexivity | reflexivity | exact ZExample_holds_batch |].
  intros g h i j _ _ _ _. apply Z.add_0_r.
Defined.

(** C7 as stated fails on floats.  With a shortest-path weight and a
    baseline bias of negative zero, the node-to-node entry of the bias
    is negative zero when the shortest-path count channel is off, and
    positive zero when it is on over an all-zero table: the two tensors
    differ in that entry (in the sign bit). *)
Lemma zero_weights_change_the_sign_of_zero :
  bias_entry (disable NumSpd FloatExample.model) FloatExample.data FloatExample.st
    [0; 0; 1; 1] = Ok (-0)%float
  ∧ bias_entry
      (enable NumSpd (channel_zero_table NumSpd FloatExample.model) FloatExample.model)
      FloatExample.data FloatExample.st [0; 0; 1; 1] = Ok 0%float
  ∧ PrimFloat.Leibniz.eqb (-0)%float 0%float = false.
Proof. vm_compute. repeat split. Qed.

(** ** Construction and reset on examples *)

(** C2 as stated fails: a hidden dimension of 10 is not divisible by 3
    heads, and construction returns a model (with [att_size] 3). *)
Lemma indivisible_hidden_dim_constructs :
  10 mod 3 = 1
  ∧ is_ok (Graphormer_init (B := ZBackend) (ex_config 10 3 false) ex_state).2 = true
  ∧ (att_size ∘ self_attention <$>
       layers (get_ok ZExample.model
                 (Graphormer_init (B := ZBackend) (ex_config 10 3 false) ex_state).2))
    = [3].
Proof. vm_compute. repeat split. Qed.

Lemma built_without_degree_init :
  Graphormer_init (B := ZBackend) (ex_config 4 2 false) ex_state
  = ((Graphormer_init (B := ZBackend) (ex_config 4 2 false) ex_state).1,
     Ok built_without_degree).
Proof. vm_compute. reflexivity. Qed.

(** C9 on the example: reset on a model built with [use_degree=False]. *)
Lemma reset_parameters_needs_degree_tables_example :
  (Graphormer_reset_parameters built_without_degree ex_state).2
  = Raise (AttributeError "in_degree_encoder").
Proof.
  apply (reset_parameters_needs_degree_tables (ex_config 4 2 false) ex_state _
           built_without_degree ex_state built_without_degree_init).
  reflexivity.
Defined.

(** C6 fails for the degree channel.  The model is built with
    [use_degree=False]; the batch has every attribute but the degree
    vectors, and the forward call raises on [data.in_degree]. *)
Lemma forward_without_degree_vectors_raises :
  use_degree built_without_degree = false
  ∧ Graphormer_forward built_without_degree
      (delete "in_degree" (delete "out_degree" ZExample.data)) None ZExample.st
    = (ZExample.st, Raise (AttributeError "in_degree")).
Proof.
  split; [reflexivity |].
  apply (forward_reads_in_degree (B := ZBackend) _ _ _ _ 1%positive 2%positive
           3%positive 4%positive (b_len_shortest_path ZExample.batch));
    reflexivity.
Qed.

(** ** Attention on examples *)

(** C5 as amended, on a batch of one sequence of three positions. *)
Lemma attention_output_has_query_shape_example :
  ∃ st' out,
    MultiHeadAttention_forward ex_attention (ex_query 1 3 4) (ex_query 1 3 4)
      (ex_query 1 3 4) None ex_state = (st', Ok out)
    ∧ shape out = [1; 3; 4].
Proof.
  apply (attention_output_has_query_shape ex_attention 4 (ex_query 1 3 4)
           (ex_query 1 3 4) (ex_query 1 3 4) None ex_state 1 3);
    first [reflexivity | lia].
Defined.

(** C5 as stated fails on an empty batch: the query has shape
    [0, 3, 4], and [view(batch_size, -1, ...)] cannot infer the length
    of a sequence from no element. *)
Lemma attention_on_empty_batch_raises :
  mha_ok ex_attention 4 = true
  ∧ (MultiHeadAttention_forward ex_attention (ex_query 0 3 4) (ex_query 0 3 4)
       (ex_query 0 3 4) None ex_state).2 = Raise RuntimeError.
Proof. vm_compute. split; reflexivity. Qed.

(** C10 on the example: dropout is disabled in the model, and a second
    call with another [perturb] follows the first. *)
Lemma forward_ignores_perturb_example :
  (Graphormer_forward ZExample.model ZExample.data (Some 3%positive)
     (Graphormer_forward ZExample.model ZExample.data None ZExample.st).1).2
  = (Graphormer_forward ZExample.model ZExample.data None ZExample.st).2.
Proof.
  destruct (forward_ignores_perturb ZExample.model ZExample.data None
              (Some 3%positive)) as [_ H].
  destruct (H eq_refl) as [_ H2]. apply H2.
  intros name l Hd. unfold ZExample.data in Hd.
  repeat (rewrite lookup_insert in Hd; case_decide;
          [injection Hd as <-; eexists; split; reflexivity |]).
  rewrite lookup_empty in Hd. discriminate.
Defined.

(** ** The encoder stack and the life cycle on examples *)

Lemma ZCases_holds x a l :
  holds ZCases.data (ZCases.state_of (ZCases.batch_of x a l)) (ZCases.batch_of x a l).
Proof.
  repeat split; try (eexists; split; reflexivity).
Qed.

Lemma built_with_degree_init :
  Graphormer_init (B := ZBackend) (ex_config 4 2 true) ex_state
  = ((Graphormer_init (B := ZBackend) (ex_config 4 2 true) ex_state).1,
     Ok built_with_degree).
Proof. vm_compute. reflexivity. Qed.

Lemma built_with_degree_reset :
  Graphormer_reset_parameters built_with_degree ex_state
  = ((Graphormer_reset_parameters built_with_degree ex_state).1,
     Ok (get_ok built_with_degree
           (Graphormer_reset_parameters built_with_degree ex_state).2)).
Proof. vm_compute. reflexivity. Qed.

(** X1 on the example: four features fit, five do not. *)
Lemma feed_forward_keeps_shape_example :
  (∃ y, FeedForwardNetwork_forward ex_ffn (ex_query 1 3 4) = Ok y
        ∧ shape y = [1; 3; 4])
  ∧ FeedForwardNetwork_forward ex_ffn (ex_query 1 3 5) = Raise RuntimeError.
Proof.
  split.
  - apply (feed_forward_keeps_shape ex_ffn 4 (ex_query 1 3 4)); reflexivity.
  - apply (feed_forward_keeps_shape ex_ffn 4 (ex_query 1 3 5)); [reflexivity |].
    discriminate.
Defined.

(** X2 on the example. *)
Lemma encoder_layer_keeps_shape_example :
  (∃ st' out, EncoderLayer_forward ex_layer (ex_query 1 3 4) None ex_state
              = (st', Ok out) ∧ shape out = [1; 3; 4])
  ∧ EncoderLayer_forward ex_layer (ex_query 0 3 4) None ex_state
    = (ex_state, Raise RuntimeError).
Proof.
  split.
  - apply (encoder_layer_keeps_shape ex_layer 4 2 (ex_query 1 3 4) None ex_state 1 3);
      [reflexivity .. | lia].
  - apply (encoder_layer_keeps_shape ex_layer 4 2 (ex_query 0 3 4) None ex_state 0 3);
      reflexivity.
Defined.

(** X3 on the example: a model with degree encoding. *)
Lemma forward_input_sequence_example :
  ∃ st1 loc gnf,
    Graphormer_forward_bias built_with_degree ZExample.data ZExample.st = (st1, Ok loc)
    ∧ shape gnf = [1; 3; 4]
    ∧ (∀ g i c, g < 1 → i < 3 → c < 4 →
         entry gnf [g; i; c] = graph_node_feature built_with_degree ZExample.batch g i c)
    ∧ Graphormer_forward built_with_degree ZExample.data None ZExample.st
      = encoder_stack built_with_degree gnf (loc_graph_attn_bias loc) st1.
Proof.
  apply (forward_input_sequence built_with_degree ZExample.data None ZExample.st
           ZExample.batch 1 2 3);
    [vm_compute; reflexivity .. | exact ZExample_holds_batch].
Defined.

(** X4 on the example: one layer, one graph of two nodes. *)
Lemma forward_output_shape_example :
  ∃ st' out,
    Graphormer_forward built_without_degree ZExample.data None ZExample.st
    = (st', Ok out)
    ∧ shape out = [1; 3; 4]
    ∧ (eval_mode built_without_degree = true → rng st' = rng ZExample.st).
Proof.
  apply (forward_output_shape built_without_degree ZExample.data None ZExample.st
           ZExample.batch 1 2 3);
    [vm_compute; reflexivity .. | exact ZExample_holds_batch | left; lia].
Defined.

(** X5 on the example. *)
Lemma forward_on_empty_batch_raises_example :
  (Graphormer_forward built_without_degree ZCases.data None
     (ZCases.state_of ZCases.empty)).2 = Raise RuntimeError.
Proof.
  apply (forward_on_empty_batch_raises built_without_degree ZCases.data None
           (ZCases.state_of ZCases.empty) ZCases.empty 2 3);
    [vm_compute; reflexivity .. | apply ZCases_holds | vm_compute; discriminate].
Defined.

(** X6 on the example. *)
Lemma construction_makes_forward_ready_example :
  forward_ready built_without_degree 3 = true.
Proof.
  apply (construction_makes_forward_ready (ex_config 4 2 false) ex_state _ _
           built_without_degree_init).
Defined.

(** X7 on the example. *)
Lemma reset_parameters_keeps_architecture_example :
  length (layers (get_ok built_with_degree
                    (Graphormer_reset_parameters built_with_degree ex_state).2))
  = length (layers built_with_degree).
Proof.
  apply (reset_parameters_keeps_architecture _ _ _ _ built_with_degree_reset).
Defined.

(** X8 on the example. *)
Lemma reset_parameters_skips_graph_token_example :
  graph_token (get_ok built_with_degree
                 (Graphormer_reset_parameters built_with_degree ex_state).2)
  = graph_token built_with_degree.
Proof.
  apply (reset_parameters_skips_graph_token _ _ _ _ built_with_degree_reset).
Defined.

(** X9 on the example. *)
Lemma padding_rows_are_zero_example : padding_rows_zero built_with_degree.
Proof.
  apply (padding_rows_are_zero (ex_config 4 2 true) ex_state _ _
           built_with_degree_init).
Defined.

(** X11 on the example: the attribute names something that is no
    tensor. *)
Lemma edge_index_is_unused_example :
  Graphormer_forward ZExample.model (<["edge_index":=99%positive]> ZExample.data)
    None ZExample.st
  = Graphormer_forward ZExample.model ZExample.data None ZExample.st.
Proof.
  apply (edge_index_is_unused ZExample.model ZExample.data None 2%positive
           99%positive ZExample.st).
  reflexivity.
Defined.

(** X12 on the example. *)
Lemma forward_needs_two_dimensional_x_example :
  Graphormer_forward ZExample.model ZCases.data None (ZCases.state_of ZCases.flat)
  = (ZCases.state_of ZCases.flat, Raise ValueError).
Proof.
  apply (forward_needs_two_dimensional_x ZExample.model ZCases.data None
           (ZCases.state_of ZCases.flat) ZCases.flat);
    [apply ZCases_holds | simpl; lia].
Defined.

(** X13 on the example. *)
Lemma symmetric_inputs_give_symmetric_bias_example :
  ∃ st' loc,
    Graphormer_forward_bias built_without_degree ZCases.data
      (ZCases.state_of ZCases.undirected) = (st', Ok loc)
    ∧ ∀ g h i j, g < 1 → h < 2 → i < 3 → j < 3 →
        entry (loc_graph_attn_bias loc) [g; h; i; j]
        = entry (loc_graph_attn_bias loc) [g; h; j; i].
Proof.
  apply (symmetric_inputs_give_symmetric_bias built_without_degree ZCases.data
           (ZCases.state_of ZCases.undirected) ZCases.undirected 1 2);
    [vm_compute; reflexivity .. | apply ZCases_holds |].
  repeat split; try exact I; intros g i j _ _; cbv [ZCases.undirected ZCases.batch_of
    b_attn_bias b_len_shortest_path entry coord nth]; lia.
Defined.

(** X14 on the example: three queries over five keys and values. *)
Lemma attention_over_another_sequence_example :
  ∃ st' out,
    MultiHeadAttention_forward ex_attention (ex_query 1 3 4) (ex_query 1 5 4)
      (ex_query 1 5 4) None ex_state = (st', Ok out)
    ∧ shape out = [1; 3; 4].
Proof.
  apply (attention_over_another_sequence ex_attention 4 (ex_query 1 3 4)
           (ex_query 1 5 4) (ex_query 1 5 4) None ex_state 1 3 5 5);
    [reflexivity | lia | reflexivity .. | exact I | reflexivity].
Defined.

(** X15 on the example. *)
Lemma attention_rejects_flat_query_example :
  (MultiHeadAttention_forward ex_attention (full [2; 4] 1%Z) (full [2; 4] 1%Z)
     (full [2; 4] 1%Z) None ex_state).2 = Raise AssertionError.
Proof.
  apply (attention_rejects_flat_query ex_attention 4 (full [2; 4] 1%Z)
           (full [2; 4] 1%Z) (full [2; 4] 1%Z) ex_state 2);
    [reflexivity | lia | reflexivity ..].
Defined.

(** X17 on the example: the degree vectors replaced by the matrix of
    path lengths and the matrix of path counts. *)
Lemma degrees_unused_without_degree_encoding_example :
  Graphormer_forward built_without_degree
    (<["in_degree":=4%positive]> (<["out_degree":=7%positive]> ZExample.data))
    None ZExample.st
  = Graphormer_forward built_without_degree ZExample.data None ZExample.st.
Proof.
  apply (degrees_unused_without_degree_encoding built_without_degree ZExample.data
           None ZExample.st 4%positive 7%positive
           (b_in_degree ZExample.batch) (b_out_degree ZExample.batch)
           (b_len_shortest_path ZExample.batch) (CellZ (full [1; 2; 2] 3%Z)));
    [vm_compute; reflexivity
    | eexists; split; reflexivity | eexists; split; reflexivity
    | reflexivity | reflexivity].
Defined.


(** X18 on the examples: a 2-by-2 baseline for two nodes, and a
    baseline without a row for no node. *)
Lemma baseline_bias_needs_token_row_and_column_example :
  (Graphormer_forward built_without_degree ZCases.data None
     (ZCases.state_of ZCases.narrow)).2 = Raise RuntimeError
  ∧ (Graphormer_forward built_without_degree ZCases.data None
       (ZCases.state_of ZCases.nodeless)).2 = Raise IndexError.
Proof.
  split.
  - apply (baseline_bias_needs_token_row_and_column built_without_degree ZCases.data
             None (ZCases.state_of ZCases.narrow) ZCases.narrow 1 2 2);
      [vm_compute; reflexivity | vm_compute; reflexivity | reflexivity
      | apply ZCases_holds | lia | lia].
  - apply (baseline_bias_needs_token_row_and_column built_without_degree ZCases.data
             None (ZCases.state_of ZCases.nodeless) ZCases.nodeless 1 0 0);
      [vm_compute; reflexivity | vm_compute; reflexivity | reflexivity
      | apply ZCases_holds | lia | lia].
Defined.

(** X19 on the example: three heads for two hidden dimensions. *)
Lemma construction_failure_kind_example :
  n_layers (ex_config 2 3 false) ≠ 0
  ∧ layer_failure 2 3 0.1 0.1 ZeroDivisionError.
Proof.
  apply (construction_failure_kind (ex_config 2 3 false) ex_state ZeroDivisionError).
  vm_compute. reflexivity.
Defined.

(** X20 on the example. *)
Lemma attention_computes_scaled_dot_product_example :
  ∃ out,
    MultiHeadAttention_forward ex_attention (ex_query 1 3 4) (ex_query 1 5 4)
      (ex_query 1 5 4) None ex_state = (ex_state, Ok out)
    ∧ shape out = [1; 3; 4]
    ∧ ∀ g i o, g < 1 → i < 3 → o < 4 →
        entry out [g; i; o]
        = attention_output ex_attention (ex_query 1 3 4) (ex_query 1 5 4)
            (ex_query 1 5 4) None 5 g i o.
Proof.
  apply (attention_computes_scaled_dot_product ex_attention 4 (ex_query 1 3 4)
           (ex_query 1 5 4) (ex_query 1 5 4) None ex_state 1 3 5);
    [reflexivity | reflexivity | lia | reflexivity .. | exact I].
Defined.
